(** * FileConverter: the JSON / CSV / XML conversion core

    A shallow embedding of [src/components/FileConverter.tsx].

    The component keeps six pieces of React state and converts the input
    text in two steps: a parser chosen by the input format builds an
    untyped JavaScript value, and a serializer chosen by the output format
    renders that value as text.  The embedding follows the source function
    by function and keeps its names.

    Conventions of the model:
    - a JavaScript string is its sequence of UTF-16 code units;
    - [undefined] is [None] where the source can observe it;
    - exceptions are explicit: every function that can throw returns a
      [result];
    - a plain object is the list of its own enumerable properties in the
      order [Object.keys] reports them; reading a key climbs to the
      prototype, where the members of [Object.prototype] and its
      [__proto__] accessor are found;
    - [JSON.parse] and [JSON.stringify] are modelled from ECMA-262;
    - what is left to the engine (the number type and its conversions,
      [DOMParser], the texts of the engine's own errors and functions) is
      a parameter of the development. *)

From Stdlib Require Import String Ascii DecimalString DecimalPos DecimalN.
From Stdlib Require Import List NArith ZArith Arith Bool Lia SpecFloat.
Import ListNotations.

Set Implicit Arguments.
Set Warnings "-register-all".

(** ** Strings *)

Definition jsstring := list N.

(** An ASCII literal as a JavaScript string. *)
Definition js (s : string) : jsstring :=
  map N_of_ascii (list_ascii_of_string s).

Arguments js s%_string.

Definition jsstring_eqb (a b : jsstring) : bool :=
  if list_eq_dec N.eq_dec a b then true else false.

(** [String(n)] for a non-negative integer [n]. *)
Definition decimalN (n : N) : jsstring :=
  js (NilZero.string_of_uint (N.to_uint n)).

Definition decimal (n : nat) : jsstring := decimalN (N.of_nat n).

(** The code units [String.prototype.trim] strips: WhiteSpace and
    LineTerminator of ECMA-262. *)
Definition isWhiteSpace (c : N) : bool :=
  existsb (N.eqb c)
    [9; 10; 11; 12; 13; 32; 160; 5760; 8232; 8233; 8239; 8287; 12288; 65279]%N
  || (N.leb 8192 c && N.leb c 8202).

Fixpoint trimStart (s : jsstring) : jsstring :=
  match s with
  | [] => []
  | c :: r => if isWhiteSpace c then trimStart r else s
  end.

Definition trimEnd (s : jsstring) : jsstring := rev (trimStart (rev s)).

Definition trim (s : jsstring) : jsstring := trimEnd (trimStart s).

(** A string that does not begin with white space. *)
Definition startsClean (s : jsstring) : Prop :=
  match s with
  | c :: _ => isWhiteSpace c = false
  | [] => True
  end.

(** [s.split(sep)] for a separator of one code unit. *)
Fixpoint split (sep : N) (s : jsstring) : list jsstring :=
  match s with
  | [] => [[]]
  | c :: r =>
      if N.eqb c sep then [] :: split sep r
      else match split sep r with
           | h :: t => (c :: h) :: t
           | [] => [[c]]
           end
  end.

(** [l.join(sep)] on an array of strings. *)
Fixpoint join (sep : jsstring) (l : list jsstring) : jsstring :=
  match l with
  | [] => []
  | [x] => x
  | x :: r => x ++ sep ++ join sep r
  end.

Definition comma : N := 44%N.
Definition newline : N := 10%N.
Definition quote : N := 34%N.

(** [s.replace] of every double-quote character by the empty string. *)
Definition removeQuotes (s : jsstring) : jsstring :=
  filter (fun c => negb (N.eqb c quote)) s.

(** What reads a decimal numeral back; it says what [decimal] writes. *)
Definition unjs (s : jsstring) : string :=
  string_of_list_ascii (map ascii_of_N s).

Definition readDecimal (s : jsstring) : option nat :=
  option_map (fun d => N.to_nat (N.of_uint d)) (NilZero.uint_of_string (unjs s)).

(** ** Exceptions *)

(** What is thrown: the component's own [Error], the engine's [TypeError],
    and the [SyntaxError] of [JSON.parse].  All are [Error] objects, and
    the handler reads nothing but the message. *)
Inductive exn :=
| Error (message : jsstring)
| TypeError (message : jsstring)
| SyntaxError (message : jsstring).

Definition messageOf (e : exn) : jsstring :=
  match e with
  | Error m => m
  | TypeError m => m
  | SyntaxError m => m
  end.

Inductive result (A : Type) :=
| Ok (a : A)
| Throw (e : exn).

Arguments Ok {A} a.
Arguments Throw {A} e.

Definition bind {A B} (r : result A) (k : A -> result B) : result B :=
  match r with
  | Ok a => k a
  | Throw e => Throw e
  end.

Notation "x <- r ;; k" := (bind r (fun x => k))
  (at level 61, r at next level, right associativity).

(** [try { body } catch (e) { throw new Error(m) }] *)
Definition rethrow {A} (body : result A) (m : jsstring) : result A :=
  match body with
  | Ok a => Ok a
  | Throw _ => Throw (Error m)
  end.

Definition mapM {A B} (f : A -> result B) : list A -> result (list B) :=
  fix go (l : list A) : result (list B) :=
    match l with
    | [] => Ok []
    | a :: r => b <- f a ;; bs <- go r ;; Ok (b :: bs)
    end.

(** ** The lexical grammar of JSON *)

(** The grammar of a JSON number, as the states of its recognizer: an
    optional minus sign, then a zero or a digit other than zero followed by
    digits, then optionally a point and one digit or more, then optionally
    an exponent mark, a sign and one digit or more. *)
Inductive numberState :=
| NStart | NMinus | NZero | NInt | NDot | NFrac | NExp | NExpSign | NExpDigits.

Definition isDigit (c : N) : bool := N.leb 48 c && N.leb c 57.

Definition numberStep (st : numberState) (c : N) : option numberState :=
  match st with
  | NStart =>
      if N.eqb c 45 then Some NMinus
      else if N.eqb c 48 then Some NZero
      else if isDigit c then Some NInt else None
  | NMinus =>
      if N.eqb c 48 then Some NZero
      else if isDigit c then Some NInt else None
  | NZero =>
      if N.eqb c 46 then Some NDot
      else if N.eqb c 101 || N.eqb c 69 then Some NExp else None
  | NInt =>
      if isDigit c then Some NInt
      else if N.eqb c 46 then Some NDot
      else if N.eqb c 101 || N.eqb c 69 then Some NExp else None
  | NDot => if isDigit c then Some NFrac else None
  | NFrac =>
      if isDigit c then Some NFrac
      else if N.eqb c 101 || N.eqb c 69 then Some NExp else None
  | NExp =>
      if N.eqb c 43 || N.eqb c 45 then Some NExpSign
      else if isDigit c then Some NExpDigits else None
  | NExpSign => if isDigit c then Some NExpDigits else None
  | NExpDigits => if isDigit c then Some NExpDigits else None
  end.

Definition numberComplete (st : numberState) : bool :=
  match st with
  | NZero | NInt | NFrac | NExpDigits => true
  | _ => false
  end.

(** The state the recognizer is in after the text [s]. *)
Fixpoint numberRun (st : numberState) (s : jsstring) : option numberState :=
  match s with
  | [] => Some st
  | c :: r => match numberStep st c with
              | Some st' => numberRun st' r
              | None => None
              end
  end.

(** A text that is a JSON number. *)
Definition isNumberToken (s : jsstring) : bool :=
  match numberRun NStart s with
  | Some st => numberComplete st
  | None => false
  end.

Definition hexValue (c : N) : option N :=
  if isDigit c then Some (c - 48)%N
  else if N.leb 97 c && N.leb c 102 then Some (c - 87)%N
  else if N.leb 65 c && N.leb c 70 then Some (c - 55)%N
  else None.

Definition isJSONWhiteSpace (c : N) : bool :=
  N.eqb c 9 || N.eqb c 10 || N.eqb c 13 || N.eqb c 32.

(** ** Values *)

(** The built-in objects a property read can run into. *)
Inductive builtin := BObject | BArray | BString | BNumber | BBoolean.

(** [Prototype b] is the prototype object itself, [Member b k] the function
    found under the key [k] on it. *)
Inductive native :=
| Prototype (b : builtin)
| Member (b : builtin) (key : jsstring).

Section Values.

(** The platform's number type (IEEE-754 doubles in a browser). *)
Variable number : Type.

(** What the parsers build and the serializers consume.  [VObject] is a
    plain object, given by its own enumerable properties. *)
Inductive value :=
| VNull
| VBool (b : bool)
| VNumber (n : number)
| VString (s : jsstring)
| VArray (items : list value)
| VObject (props : list (jsstring * value))
| VNative (n : native).

(** [Array.isArray(v)]; [Array.prototype] is an array too. *)
Definition isArray (v : value) : bool :=
  match v with
  | VArray _ => true
  | VNative (Prototype BArray) => true
  | _ => false
  end.

(** What the specification puts under a tag name, given the converted
    values of the children with that name in document order: nothing, the
    value itself, or the array of all of them. *)
Definition collapsed (vs : list value) : option value :=
  match vs with
  | [] => None
  | [v] => Some v
  | _ => Some (VArray vs)
  end.

(** *** Own properties of a plain object *)

(** An array index is the canonical decimal form of an integer below
    2^32 - 1; such keys are enumerated first, in ascending order. *)
Definition arrayIndex (k : jsstring) : option N :=
  let digit c := N.leb 48 c && N.leb c 57 in
  let n := fold_left (fun a c => 10 * a + (c - 48))%N k 0%N in
  if forallb digit k && jsstring_eqb (decimalN n) k && N.ltb n 4294967295
  then Some n else None.

Definition hasOwn (props : list (jsstring * value)) (k : jsstring) : bool :=
  existsb (fun p => jsstring_eqb (fst p) k) props.

(** The own property [k] of a plain object; [None] when there is none. *)
Fixpoint obj_get (props : list (jsstring * value)) (k : jsstring)
  : option value :=
  match props with
  | [] => None
  | (k', v) :: rest => if jsstring_eqb k' k then Some v else obj_get rest k
  end.

Fixpoint obj_replace (props : list (jsstring * value)) (k : jsstring)
  (v : value) : list (jsstring * value) :=
  match props with
  | [] => []
  | (k', v') :: rest =>
      if jsstring_eqb k' k then (k, v) :: rest
      else (k', v') :: obj_replace rest k v
  end.

Fixpoint obj_insertIndex (props : list (jsstring * value)) (i : N)
  (k : jsstring) (v : value) : list (jsstring * value) :=
  match props with
  | [] => [(k, v)]
  | (k', v') :: rest =>
      match arrayIndex k' with
      | Some j =>
          if N.ltb j i then (k', v') :: obj_insertIndex rest i k v
          else (k, v) :: props
      | None => (k, v) :: props
      end
  end.

(** The own data property [k] is given the value [v] (CreateDataProperty):
    an existing property keeps its place, a new one goes where
    [Object.keys] will report it.  This is what [JSON.parse] does for every
    member, and what an assignment [obj[k] = v] comes to for every key but
    [__proto__]. *)
Definition obj_set (props : list (jsstring * value)) (k : jsstring)
  (v : value) : list (jsstring * value) :=
  if hasOwn props k then obj_replace props k v
  else match arrayIndex k with
       | Some i => obj_insertIndex props i k v
       | None => props ++ [(k, v)]
       end.

(** *** The configurations of the JSON parser *)

(** An array or an object whose next value is being read. *)
Inductive frame :=
| ArrayFrame (items : list value)
| ObjectFrame (props : list (jsstring * value)) (key : jsstring).

(** Where the parser stands.  A string is a key of the object given by
    [owner] or, without one, a value. *)
Inductive state :=
| BeforeValue
| FirstElement
| NextElement (items : list value)
| FirstKey
| NextKey (props : list (jsstring * value))
| Colon (props : list (jsstring * value)) (key : jsstring)
| NextMember (props : list (jsstring * value))
| InString (acc : jsstring) (owner : option (list (jsstring * value)))
| InEscape (acc : jsstring) (owner : option (list (jsstring * value)))
| InUnicode (acc : jsstring) (owner : option (list (jsstring * value)))
    (digits : list N)
| InNumber (acc : jsstring) (st : numberState)
| InLiteral (expected : jsstring) (v : value)
| Done (v : value).

End Values.

Arguments VNull {number}.
Arguments VBool {number} b.
Arguments VNumber {number} n.
Arguments VString {number} s.
Arguments VArray {number} items.
Arguments VObject {number} props.
Arguments VNative {number} n.
Arguments BeforeValue {number}.
Arguments FirstElement {number}.
Arguments FirstKey {number}.
Arguments InNumber {number} acc st.

(** *** What a plain object inherits *)

(** The function-valued properties of [Object.prototype] (ECMA-262 with
    Annex B).  They are writable data properties: assigning to one of
    these keys creates an own property. *)
Definition objectPrototypeNames : list jsstring :=
  [js "constructor"; js "hasOwnProperty"; js "isPrototypeOf";
   js "propertyIsEnumerable"; js "toLocaleString"; js "toString";
   js "valueOf"; js "__defineGetter__"; js "__defineSetter__";
   js "__lookupGetter__"; js "__lookupSetter__"].

(** The one accessor of [Object.prototype]: its getter returns the
    prototype of the object read, its setter replaces that prototype when
    it is given an object or [null] and does nothing otherwise. *)
Definition protoKey : jsstring := js "__proto__".

Definition isMember (names : list jsstring) (k : jsstring) : bool :=
  existsb (fun name => jsstring_eqb name k) names.

(** ** The document object model *)

(** What [DOMParser] hands back: elements with their attributes and child
    nodes, character data, and comments (processing instructions behave
    like comments here). *)
Inductive node :=
| Element (tagName : jsstring) (attributes : list (jsstring * jsstring))
    (childNodes : list node)
| Text (data : jsstring)
| Comment (data : jsstring).

Definition tagNameOf (n : node) : jsstring :=
  match n with Element tagName _ _ => tagName | _ => [] end.

Definition isElement (n : node) : bool :=
  match n with Element _ _ _ => true | _ => false end.

(** [element.children]: the child nodes that are elements. *)
Definition children (n : node) : list node :=
  match n with
  | Element _ _ childNodes => filter isElement childNodes
  | _ => []
  end.

(** [node.textContent]: the character data of all descendants, in document
    order, comments left out. *)
Fixpoint textContent (n : node) : jsstring :=
  match n with
  | Element _ _ childNodes =>
      concat (map (fun c => match c with
                            | Comment _ => []
                            | _ => textContent c
                            end) childNodes)
  | Text data => data
  | Comment data => data
  end.

(** [document.getElementsByTagName(name)], the root included. *)
Fixpoint getElementsByTagName (name : jsstring) (n : node) : list node :=
  match n with
  | Element tagName _ childNodes =>
      (if jsstring_eqb tagName name then [n] else [])
      ++ concat (map (getElementsByTagName name) childNodes)
  | _ => []
  end.

(** ** The platform *)

(** What is left to the engine.

    Numbers: [Number_ofLiteral] is the Number value of a JSON number
    token, [Number_toString] is Number::toString, [Number_toBoolean] is
    [false] for [0], [-0] and [NaN], and [Number_isFinite] is [false] for
    [NaN] and the infinities.

    Built-in objects: [members b] lists the function-valued properties of
    the prototype [b] other than [Object.prototype], whose members are
    fixed by the standard; [Function_toString b k] is what [String] makes
    of the function under the key [k] there, and [Function_get b k] reads
    a property of that function, which the component never does.

    Errors: the messages of the engine's [TypeError]s and of the
    [SyntaxError] of [JSON.parse].

    [DOMParser_parseFromString s] is the document element of
    [new DOMParser().parseFromString(s, "text/xml")]; a text that is not
    well-formed yields a document with a [parsererror] element in it. *)
Record Platform := {
  number : Type;
  Number_toString : number -> jsstring;
  Number_toBoolean : number -> bool;
  Number_ofNat : nat -> number;
  Number_ofLiteral : jsstring -> number;
  Number_isFinite : number -> bool;
  members : builtin -> list jsstring;
  Function_toString : builtin -> jsstring -> jsstring;
  Function_get : builtin -> jsstring -> jsstring -> option (value number);
  nullKeysMessage : jsstring;
  nullReadMessage : jsstring -> jsstring;
  toPrimitiveMessage : jsstring;
  syntaxErrorMessage : jsstring -> jsstring;
  DOMParser_parseFromString : jsstring -> node
}.

(** ** The state of the component *)

Inductive FileFormat := json | csv | xml.

(** [format.toUpperCase()] *)
Definition toUpperCase (f : FileFormat) : jsstring :=
  match f with
  | json => js "JSON"
  | csv => js "CSV"
  | xml => js "XML"
  end.

(** The [type] of a [ConversionError]. *)
Inductive ErrorType := IsError | IsWarning.

Record ConversionError := {
  message : jsstring;
  type : ErrorType
}.

Record Toast := {
  title : jsstring;
  description : jsstring
}.

(** The six [useState] cells, and the toasts shown so far. *)
Record State := {
  inputData : jsstring;
  outputData : jsstring;
  inputFormat : FileFormat;
  outputFormat : FileFormat;
  error : option ConversionError;
  isConverting : bool;
  toasts : list Toast
}.

(** ** The component *)

Section Component.

Variable P : Platform.

Local Abbreviation value := (value (number P)).

(** *** Conversions and property reads *)

Definition ToBoolean (v : value) : bool :=
  match v with
  | VNull => false
  | VBool b => b
  | VNumber n => Number_toBoolean P n
  | VString s => negb (length s =? 0)
  | VArray _ => true
  | VObject _ => true
  | VNative _ => true
  end.

(** [String(v)], which is also what a template literal applies.  An array
    joins the strings of its entries.  A plain object answers through
    [Object.prototype.toString] unless it has a [toString] key of its own:
    what stands there is no function (no parser puts one under a key), so
    the conversion ends in the engine's [TypeError]. *)
Fixpoint ToString (v : value) : result jsstring :=
  match v with
  | VNull => Ok (js "null")
  | VBool b => Ok (if b then js "true" else js "false")
  | VNumber n => Ok (Number_toString P n)
  | VString s => Ok s
  | VArray items =>
      parts <- mapM (fun e => match e with
                              | VNull => Ok []
                              | _ => ToString e
                              end) items ;;
      Ok (join [comma] parts)
  | VObject props =>
      if hasOwn props (js "toString")
      then Throw (TypeError (toPrimitiveMessage P))
      else Ok (js "[object Object]")
  | VNative (Prototype BObject) => Ok (js "[object Object]")
  | VNative (Prototype BArray) => Ok []
  | VNative (Prototype BString) => Ok []
  | VNative (Prototype BNumber) => Ok (js "0")
  | VNative (Prototype BBoolean) => Ok (js "false")
  | VNative (Member b k) => Ok (Function_toString P b k)
  end.

(** What an object whose prototype is [b] finds under [k] when it has no
    such property of its own: a member of that prototype, a member of
    [Object.prototype] behind it, or, for [__proto__], the prototype
    itself. *)
Definition inherited (b : builtin) (k : jsstring) : option value :=
  if match b with
     | BObject => false
     | _ => isMember (members P b) k
     end
  then Some (VNative (Member b k))
  else if isMember objectPrototypeNames k then Some (VNative (Member BObject k))
  else if jsstring_eqb k protoKey then Some (VNative (Prototype b))
  else None.

(** [Object.keys(v)] *)
Definition Object_keys (v : value) : result (list jsstring) :=
  match v with
  | VNull => Throw (TypeError (nullKeysMessage P))
  | VBool _ => Ok []
  | VNumber _ => Ok []
  | VString s => Ok (map decimal (seq 0 (length s)))
  | VArray items => Ok (map decimal (seq 0 (length items)))
  | VObject props => Ok (map fst props)
  | VNative _ => Ok []
  end.

(** The property [k] of a value other than [null]: the own property, or
    else what the prototype chain holds; [None] is [undefined]. *)
Definition property (v : value) (k : jsstring) : option value :=
  match v with
  | VNull => None
  | VBool _ => inherited BBoolean k
  | VNumber _ => inherited BNumber k
  | VString s =>
      if jsstring_eqb k (js "length")
      then Some (VNumber (Number_ofNat P (length s)))
      else match option_map (fun i => nth_error s (N.to_nat i)) (arrayIndex k)
           with
           | Some (Some c) => Some (VString [c])
           | _ => inherited BString k
           end
  | VArray items =>
      if jsstring_eqb k (js "length")
      then Some (VNumber (Number_ofNat P (length items)))
      else match option_map (fun i => nth_error items (N.to_nat i))
                   (arrayIndex k) with
           | Some (Some item) => Some item
           | _ => inherited BArray k
           end
  | VObject props =>
      match obj_get props k with
      | Some x => Some x
      | None => inherited BObject k
      end
  | VNative (Prototype BObject) =>
      if isMember objectPrototypeNames k then Some (VNative (Member BObject k))
      else if jsstring_eqb k protoKey then Some VNull
      else None
  | VNative (Prototype b) =>
      if match b with
         | BArray | BString => jsstring_eqb k (js "length")
         | _ => false
         end
      then Some (VNumber (Number_ofNat P 0))
      else if isMember (members P b) k then Some (VNative (Member b k))
      else inherited BObject k
  | VNative (Member b name) => Function_get P b name k
  end.

(** [v[k]] *)
Definition Get (v : value) (k : jsstring) : result (option value) :=
  match v with
  | VNull => Throw (TypeError (nullReadMessage P k))
  | _ => Ok (property v k)
  end.

(** *** JSON output: [JSON.stringify(v, null, 2)] *)

Definition hexDigit (d : N) : N :=
  if N.ltb d 10 then (48 + d)%N else (87 + d)%N.

(** UnicodeEscape: a backslash, [u], and four lower-case hex digits. *)
Definition unicodeEscape (c : N) : jsstring :=
  [92; 117; hexDigit (c / 4096); hexDigit ((c / 256) mod 16);
   hexDigit ((c / 16) mod 16); hexDigit (c mod 16)]%N.

Definition isHighSurrogate (c : N) : bool := N.leb 55296 c && N.leb c 56319.
Definition isLowSurrogate (c : N) : bool := N.leb 56320 c && N.leb c 57343.

(** One code point that is no surrogate pair, as QuoteJSONString writes
    it. *)
Definition quoteUnit (c : N) : jsstring :=
  if N.eqb c 8 then [92; 98]%N
  else if N.eqb c 9 then [92; 116]%N
  else if N.eqb c 10 then [92; 110]%N
  else if N.eqb c 12 then [92; 102]%N
  else if N.eqb c 13 then [92; 114]%N
  else if N.eqb c 34 then [92; 34]%N
  else if N.eqb c 92 then [92; 92]%N
  else if N.ltb c 32 || isHighSurrogate c || isLowSurrogate c
       then unicodeEscape c
  else [c].

(** The code points of a string in turn: a high surrogate followed by a
    low one is one code point and is copied; a surrogate on its own is
    escaped. *)
Fixpoint quoteUnits (s : jsstring) : jsstring :=
  match s with
  | [] => []
  | c :: r =>
      match r with
      | d :: r' =>
          if isHighSurrogate c && isLowSurrogate d
          then c :: d :: quoteUnits r'
          else quoteUnit c ++ quoteUnits r
      | [] => quoteUnit c
      end
  end.

Definition QuoteJSONString (s : jsstring) : jsstring :=
  [quote] ++ quoteUnits s ++ [quote].

Definition gap : jsstring := js "  ".

(** SerializeJSONProperty with the indentation reached so far; [None] is
    [undefined], which is what a function serializes to.  No value holds a
    function under the key [toJSON], so that hook is never taken. *)
Fixpoint SerializeJSONProperty (indent : jsstring) (v : value)
  : option jsstring :=
  match v with
  | VNull => Some (js "null")
  | VBool b => Some (if b then js "true" else js "false")
  | VNumber n =>
      Some (if Number_isFinite P n then Number_toString P n else js "null")
  | VString s => Some (QuoteJSONString s)
  | VArray items =>
      match items with
      | [] => Some (js "[]")
      | _ =>
          Some (js "[" ++ [newline] ++ (indent ++ gap)
                ++ join ([comma; newline] ++ (indent ++ gap))
                     (map (fun e =>
                             match SerializeJSONProperty (indent ++ gap) e with
                             | Some text => text
                             | None => js "null"
                             end) items)
                ++ [newline] ++ indent ++ js "]")
      end
  | VObject props =>
      match flat_map
              (fun kv =>
                 match SerializeJSONProperty (indent ++ gap) (snd kv) with
                 | Some text => [QuoteJSONString (fst kv) ++ js ": " ++ text]
                 | None => []
                 end) props with
      | [] => Some (js "{}")
      | partial =>
          Some (js "{" ++ [newline] ++ (indent ++ gap)
                ++ join ([comma; newline] ++ (indent ++ gap)) partial
                ++ [newline] ++ indent ++ js "}")
      end
  | VNative (Member _ _) => None
  | VNative (Prototype BObject) => Some (js "{}")
  | VNative (Prototype BArray) => Some (js "[]")
  | VNative (Prototype BString) => Some (QuoteJSONString [])
  | VNative (Prototype BNumber) => Some (js "0")
  | VNative (Prototype BBoolean) => Some (js "false")
  end.

(** At top level [undefined] would become the output; no parser returns a
    function, so this does not happen, and the model shows nothing then. *)
Definition JSON_stringify (v : value) : jsstring :=
  match SerializeJSONProperty [] v with
  | Some text => text
  | None => []
  end.

(** *** JSON input: [JSON.parse(text)] *)

Local Abbreviation frame := (frame (number P)).
Local Abbreviation state := (state (number P)).

(** Where the parser stands, and the arrays and objects around it. *)
Local Abbreviation config := (state * list frame)%type.

(** A value is complete: it is the result, the next element of the array
    on top of the stack, or the value of the pending key of the object
    there, defined as an own data property. *)
Definition deliver (v : value) (stack : list frame) : config :=
  match stack with
  | [] => (Done v, [])
  | ArrayFrame items :: rest => (NextElement (items ++ [v]), rest)
  | ObjectFrame props key :: rest => (NextMember (obj_set props key v), rest)
  end.

(** The first character of a value. *)
Definition startValue (stack : list frame) (c : N) : option config :=
  if N.eqb c 34 then Some (InString [] None, stack)
  else if N.eqb c 91 then Some (FirstElement, stack)
  else if N.eqb c 123 then Some (FirstKey, stack)
  else if N.eqb c 110 then Some (InLiteral (js "ull") VNull, stack)
  else if N.eqb c 116 then Some (InLiteral (js "rue") (VBool true), stack)
  else if N.eqb c 102 then Some (InLiteral (js "alse") (VBool false), stack)
  else match numberStep NStart c with
       | Some st => Some (InNumber [c] st, stack)
       | None => None
       end.

Definition endString (acc : jsstring)
  (owner : option (list (jsstring * value))) (stack : list frame) : config :=
  match owner with
  | Some props => (Colon props acc, stack)
  | None => deliver (VString acc) stack
  end.

(** A number ends where its grammar cannot go on; it is then converted by
    the engine and delivered. *)
Definition close (cfg : config) : option config :=
  match cfg with
  | (InNumber acc st, stack) =>
      if numberComplete st
      then Some (deliver (VNumber (Number_ofLiteral P acc)) stack)
      else None
  | _ => Some cfg
  end.

(** One character, in a state other than a number that goes on. *)
Definition plainStep (cfg : config) (c : N) : option config :=
  let (st, stack) := cfg in
  match st with
  | BeforeValue =>
      if isJSONWhiteSpace c then Some (BeforeValue, stack)
      else startValue stack c
  | FirstElement =>
      if isJSONWhiteSpace c then Some (FirstElement, stack)
      else if N.eqb c 93 then Some (deliver (VArray []) stack)
      else startValue (ArrayFrame [] :: stack) c
  | NextElement items =>
      if isJSONWhiteSpace c then Some (NextElement items, stack)
      else if N.eqb c 44 then Some (BeforeValue, ArrayFrame items :: stack)
      else if N.eqb c 93 then Some (deliver (VArray items) stack)
      else None
  | FirstKey =>
      if isJSONWhiteSpace c then Some (FirstKey, stack)
      else if N.eqb c 125 then Some (deliver (VObject []) stack)
      else if N.eqb c 34 then Some (InString [] (Some []), stack)
      else None
  | NextKey props =>
      if isJSONWhiteSpace c then Some (NextKey props, stack)
      else if N.eqb c 34 then Some (InString [] (Some props), stack)
      else None
  | Colon props key =>
      if isJSONWhiteSpace c then Some (Colon props key, stack)
      else if N.eqb c 58 then Some (BeforeValue, ObjectFrame props key :: stack)
      else None
  | NextMember props =>
      if isJSONWhiteSpace c then Some (NextMember props, stack)
      else if N.eqb c 44 then Some (NextKey props, stack)
      else if N.eqb c 125 then Some (deliver (VObject props) stack)
      else None
  | InString acc owner =>
      if N.eqb c 34 then Some (endString acc owner stack)
      else if N.eqb c 92 then Some (InEscape acc owner, stack)
      else if N.ltb c 32 then None
      else Some (InString (acc ++ [c]) owner, stack)
  | InEscape acc owner =>
      if N.eqb c 34 || N.eqb c 92 || N.eqb c 47
      then Some (InString (acc ++ [c]) owner, stack)
      else if N.eqb c 98 then Some (InString (acc ++ [8%N]) owner, stack)
      else if N.eqb c 102 then Some (InString (acc ++ [12%N]) owner, stack)
      else if N.eqb c 110 then Some (InString (acc ++ [10%N]) owner, stack)
      else if N.eqb c 114 then Some (InString (acc ++ [13%N]) owner, stack)
      else if N.eqb c 116 then Some (InString (acc ++ [9%N]) owner, stack)
      else if N.eqb c 117 then Some (InUnicode acc owner [], stack)
      else None
  | InUnicode acc owner digits =>
      match hexValue c with
      | Some d =>
          match digits with
          | [d1; d2; d3] =>
              Some (InString (acc ++ [4096 * d1 + 256 * d2 + 16 * d3 + d]%N)
                      owner, stack)
          | _ => Some (InUnicode acc owner (digits ++ [d]), stack)
          end
      | None => None
      end
  | InNumber _ _ => None
  | InLiteral expected v =>
      match expected with
      | e :: rest =>
          if N.eqb c e
          then match rest with
               | [] => Some (deliver v stack)
               | _ => Some (InLiteral rest v, stack)
               end
          else None
      | [] => None
      end
  | Done v => if isJSONWhiteSpace c then Some (Done v, stack) else None
  end.

Definition step (cfg : config) (c : N) : option config :=
  match cfg with
  | (InNumber acc st, stack) =>
      match numberStep st c with
      | Some st' => Some (InNumber (acc ++ [c]) st', stack)
      | None =>
          match close cfg with
          | Some cfg' => plainStep cfg' c
          | None => None
          end
      end
  | _ => plainStep cfg c
  end.

Fixpoint feed (cfg : config) (text : jsstring) : option config :=
  match text with
  | [] => Some cfg
  | c :: rest => match step cfg c with
                 | Some cfg' => feed cfg' rest
                 | None => None
                 end
  end.

(** At the end of the text one value must be complete and nothing open. *)
Definition finish (cfg : config) : option value :=
  match close cfg with
  | Some (Done v, []) => Some v
  | _ => None
  end.

Definition JSON_parse (text : jsstring) : result value :=
  match feed (BeforeValue, []) text with
  | Some cfg =>
      match finish cfg with
      | Some v => Ok v
      | None => Throw (SyntaxError (syntaxErrorMessage P text))
      end
  | None => Throw (SyntaxError (syntaxErrorMessage P text))
  end.

(** *** Assignment to a property of a plain object *)

(** A plain object while the component fills it: its own properties and
    its prototype, which is [Object.prototype] until an assignment to
    [__proto__] replaces it. *)
Record building := {
  own : list (jsstring * value);
  proto : value
}.

Definition emptyObject : building :=
  {| own := []; proto := VNative (Prototype BObject) |}.

(** Whether an object with the prototype [p] inherits the accessor
    [__proto__]: the chain of every object and function leads to
    [Object.prototype], where the accessor is; [null] has no chain, and a
    data property of that name on a plain object, which only [JSON.parse]
    creates, hides the accessor. *)
Definition inheritsAccessor (p : value) : bool :=
  match p with
  | VNull => false
  | VObject props => negb (hasOwn props protoKey)
  | _ => true
  end.

(** [obj[k]] *)
Definition read (obj : building) (k : jsstring) : option value :=
  match obj_get (own obj) k with
  | Some v => Some v
  | None =>
      if jsstring_eqb k protoKey && inheritsAccessor (proto obj)
      then Some (proto obj)
      else property (proto obj) k
  end.

(** Whether the assignment [obj[k] = v] ends in the setter of the
    accessor [__proto__]. *)
Definition reachesSetter (obj : building) (k : jsstring) : bool :=
  jsstring_eqb k protoKey && negb (hasOwn (own obj) k)
  && inheritsAccessor (proto obj).

(** [obj[k] = v]: an own property is overwritten; without one, the key
    [__proto__] reaches the setter on [Object.prototype], which takes an
    object or [null] for the new prototype and ignores anything else; any
    other key becomes an own property, whether or not the prototype chain
    has that key, since what the built-in prototypes and an array hold are
    writable data properties. *)
Definition assign (obj : building) (k : jsstring) (v : value) : building :=
  if reachesSetter obj k then
    match v with
    | VBool _ | VNumber _ | VString _ => obj
    | _ => {| own := own obj; proto := v |}
    end
  else {| own := obj_set (own obj) k v; proto := proto obj |}.

(** *** CSV input *)

(** [f.trim()] and then the removal of every double quote: what [parseCSV]
    applies to each header and each cell. *)
Definition cleanField (f : jsstring) : jsstring := removeQuotes (trim f).

Definition rowLengthMessage (row columns expected : nat) : jsstring :=
  js "Row " ++ decimal row ++ js " has " ++ decimal columns
  ++ js " columns, expected " ++ decimal expected.

(** The [forEach] over the headers: [row[header] = values[index]] on a
    fresh object.  It runs only when both arrays have the same length.
    The values are strings, so the prototype of the row stays what it
    is, and the row is given by its own properties. *)
Definition fillRow (headers values : list jsstring)
  : list (jsstring * value) :=
  own (fold_left (fun row hv => assign row (fst hv) (VString (snd hv)))
         (combine headers values) emptyObject).

(** The locals of [parseCSV]: [lines], [headers], and the [values] of a
    line. *)
Definition linesOf (csvData : jsstring) : list jsstring :=
  split newline (trim csvData).

Definition headersOf (csvData : jsstring) : list jsstring :=
  map cleanField (split comma (nth 0 (linesOf csvData) [])).

Definition valuesOf (line : jsstring) : list jsstring :=
  map cleanField (split comma line).

(** The [for] loop of [parseCSV], from line [i] on, [rows] holding what
    was pushed onto the source's [result] so far. *)
Fixpoint parseRows (headers : list jsstring) (lines : list jsstring)
  (i : nat) (rows : list value) : result (list value) :=
  match lines with
  | [] => Ok rows
  | line :: rest =>
      let values := valuesOf line in
      if negb (length values =? length headers)
      then Throw (Error (rowLengthMessage (i + 1) (length values)
                           (length headers)))
      else parseRows headers rest (i + 1)
             (rows ++ [VObject (fillRow headers values)])
  end.

Definition parseCSV (csvData : jsstring) : result (list value) :=
  let lines := linesOf csvData in
  if length lines =? 0 then Throw (Error (js "CSV data is empty"))
  else
    let headers := headersOf csvData in
    parseRows headers (tl lines) 1 [].

(** *** XML input *)

(** [result[tagName].push(childData)], where the array is the one the
    read of [tagName] has found: under an own key, as the prototype
    itself, or among the properties of the prototype. *)
Definition push (result : building) (tagName : jsstring) (items : list value)
  (childData : value) : building :=
  let pushed := VArray (items ++ [childData]) in
  if hasOwn (own result) tagName
  then {| own := obj_replace (own result) tagName pushed;
          proto := proto result |}
  else if jsstring_eqb tagName protoKey && inheritsAccessor (proto result)
  then {| own := own result; proto := pushed |}
  else
    {| own := own result;
       proto :=
         match proto result with
         | VObject props => VObject (obj_replace props tagName pushed)
         | VArray held =>
             match arrayIndex tagName with
             | Some i =>
                 VArray (firstn (N.to_nat i) held ++ [pushed]
                         ++ skipn (S (N.to_nat i)) held)
             | None => VArray held
             end
         | p => p
         end |}.

(** One turn of the loop of [xmlToObject]: the converted child goes under
    its tag name; a tag whose current entry is truthy is collapsed into an
    array or, when it already is one, extended.  The entry is whatever the
    read finds, inherited properties included. *)
Definition addChild (result : building) (tagName : jsstring)
  (childData : value) : building :=
  match read result tagName with
  | Some existing =>
      if ToBoolean existing then
        if isArray existing then
          match existing with
          | VArray items => push result tagName items childData
          | _ => result
          end
        else assign result tagName (VArray [existing; childData])
      else assign result tagName childData
  | None => assign result tagName childData
  end.

(** The value returned is the object with its own properties.  Its
    prototype, which a child named [__proto__] replaces by an array, is
    left behind: nothing that the component does with the value afterwards
    looks at it (the serializers enumerate own properties, and neither
    [Array.isArray] nor the truthiness test depend on it). *)
Fixpoint xmlToObject (element : node) : value :=
  match element with
  | Element _ _ childNodes =>
      if length (children element) =? 0 then VString (textContent element)
      else
        VObject
          (own
             (fold_left
                (fun result child =>
                   match child with
                   | Element tagName _ _ =>
                       addChild result tagName (xmlToObject child)
                   | _ => result
                   end)
                childNodes emptyObject))
  | _ => VString (textContent element)
  end.

(** The [throw] inside the [try] is caught by the [catch] around it, so
    both failures surface with the same message. *)
Definition parseXML (xmlData : jsstring) : result value :=
  rethrow
    (let xmlDoc := DOMParser_parseFromString P xmlData in
     if 0 <? length (getElementsByTagName (js "parsererror") xmlDoc)
     then Throw (Error (js "Invalid XML format"))
     else Ok (xmlToObject xmlDoc))
    (js "Failed to parse XML data").

(** *** CSV output *)

(** The cell of the template literal: [row[header] || ""] between double
    quotes.  The conversion to a string is where it can throw. *)
Definition cell (c : option value) : result jsstring :=
  shown <- match c with
           | Some v => if ToBoolean v then ToString v else Ok []
           | None => Ok []
           end ;;
  Ok ([quote] ++ shown ++ [quote]).

Definition csvRow (headers : list jsstring) (row : value) : result jsstring :=
  cells <- mapM (fun header => c <- Get row header ;; cell c) headers ;;
  Ok (join [comma] cells).

Definition convertToCSV (data : value) : result jsstring :=
  if negb (isArray data)
  then Throw (Error (js "CSV output requires array data"))
  else
    match data with
    | VArray (first :: rest) =>
        headers <- Object_keys first ;;
        rows <- mapM (csvRow headers) (first :: rest) ;;
        Ok (join [newline] (join [comma] headers :: rows))
    | _ => Ok []
    end.

(** *** XML output *)

(** The second argument is never read in the source either.  The
    prototype objects have no enumerable properties, and
    [Array.prototype] has no elements; a function is no object for
    [typeof] and goes through [String]. *)
Fixpoint objectToXml (obj : value) (rootName : jsstring) : jsstring :=
  match obj with
  | VArray items =>
      join [newline]
        (map (fun item => js "<item>" ++ objectToXml item [] ++ js "</item>")
           items)
  | VObject props =>
      join [newline]
        (map (fun kv => js "<" ++ fst kv ++ js ">" ++ objectToXml (snd kv) []
                        ++ js "</" ++ fst kv ++ js ">")
           props)
  | VNative (Prototype _) => []
  | VNull => js "null"
  | VBool b => if b then js "true" else js "false"
  | VNumber n => Number_toString P n
  | VString s => s
  | VNative (Member b k) => Function_toString P b k
  end.

Definition xmlDeclaration : jsstring :=
  js "<?xml version=" ++ [quote] ++ js "1.0" ++ [quote]
  ++ js " encoding=" ++ [quote] ++ js "UTF-8" ++ [quote] ++ js "?>".

Definition convertToXML (data : value) : jsstring :=
  xmlDeclaration ++ [newline] ++ js "<root>" ++ [newline]
  ++ objectToXml data (js "root") ++ [newline] ++ js "</root>".

(** *** The orchestrator *)

(** The first half of the [try] block. *)
Definition parseInput (fmt : FileFormat) (text : jsstring) : result value :=
  match fmt with
  | json =>
      rethrow (JSON_parse text)
        (js "Invalid JSON format. Please check your syntax.")
  | csv => rows <- parseCSV text ;; Ok (VArray rows)
  | xml => parseXML text
  end.

(** The second half.  The source's last [else], which throws
    [Unsupported output format], cannot be reached: the three formats are
    all there are. *)
Definition serialize (fmt : FileFormat) (parsedData : value)
  : result jsstring :=
  match fmt with
  | json => Ok (JSON_stringify parsedData)
  | csv => convertToCSV parsedData
  | xml => Ok (convertToXML parsedData)
  end.

Definition convert (s : State) : result jsstring :=
  parsedData <- parseInput (inputFormat s) (inputData s) ;;
  serialize (outputFormat s) parsedData.

Definition successToast (s : State) : Toast :=
  {| title := js "Conversion successful!";
     description := js "Successfully converted " ++ toUpperCase (inputFormat s)
                    ++ js " to " ++ toUpperCase (outputFormat s) |}.

(** The state once the handler has returned and React has applied the
    updates it queued. *)
Definition validateAndConvert (s : State) : State :=
  if length (trim (inputData s)) =? 0 then
    {| inputData := inputData s;
       outputData := outputData s;
       inputFormat := inputFormat s;
       outputFormat := outputFormat s;
       error := Some {| message := js "Please enter some data to convert";
                        type := IsWarning |};
       isConverting := isConverting s;
       toasts := toasts s |}
  else
    match convert s with
    | Ok convertedData =>
        {| inputData := inputData s;
           outputData := convertedData;
           inputFormat := inputFormat s;
           outputFormat := outputFormat s;
           error := None;
           isConverting := false;
           toasts := toasts s ++ [successToast s] |}
    | Throw e =>
        {| inputData := inputData s;
           outputData := [];
           inputFormat := inputFormat s;
           outputFormat := outputFormat s;
           error := Some {| message := messageOf e; type := IsError |};
           isConverting := false;
           toasts := toasts s |}
    end.

End Component.

(** ** Upload and download *)

Definition dot : N := 46%N.

(** The string a format is in the source: the [FileFormat] literal. *)
Definition formatName (f : FileFormat) : jsstring :=
  match f with
  | json => js "json"
  | csv => js "csv"
  | xml => js "xml"
  end.

(** [s.toLowerCase()] on the letters A to Z.  The built-in also maps
    letters beyond ASCII, but none of them onto a letter of [json], [csv]
    or [xml], which is all the result is compared with. *)
Definition String_toLowerCase (s : jsstring) : jsstring :=
  map (fun c => if N.leb 65 c && N.leb c 90 then (c + 32)%N else c) s.

(** An uploaded file: its name and the text [readAsText] delivers. *)
Record File := {
  name : jsstring;
  contents : jsstring
}.

(** [file.name.split('.').pop()?.toLowerCase()]; [split] never returns an
    empty array, so [pop] always finds a last piece. *)
Definition extensionOf (fileName : jsstring) : jsstring :=
  String_toLowerCase (last (split dot fileName) []).

(** The test on the extension, with the format it selects. *)
Definition formatOfExtension (extension : jsstring) : option FileFormat :=
  if jsstring_eqb extension (js "json") then Some json
  else if jsstring_eqb extension (js "csv") then Some csv
  else if jsstring_eqb extension (js "xml") then Some xml
  else None.

(** The state once the reader has called [onload]; [None] is an event
    without a file. *)
Definition handleFileUpload (file : option File) (s : State) : State :=
  match file with
  | None => s
  | Some f =>
      {| inputData := contents f;
         outputData := outputData s;
         inputFormat := match formatOfExtension (extensionOf (name f)) with
                        | Some format => format
                        | None => inputFormat s
                        end;
         outputFormat := outputFormat s;
         error := error s;
         isConverting := isConverting s;
         toasts := toasts s |}
  end.

(** What [handleDownload] gives the browser to save: the [download]
    attribute of the anchor, the text of the [Blob] and its type. *)
Record Download := {
  download : jsstring;
  blobText : jsstring;
  blobType : jsstring
}.

(** A toast together with its variant. *)
Record Notice := {
  shown : Toast;
  destructive : bool
}.

(** [handleDownload] calls no setter: it saves a file or not, and shows one
    toast. *)
Definition handleDownload (s : State) : option Download * Notice :=
  if length (outputData s) =? 0 then
    (None,
     {| shown := {| title := js "No data to download";
                    description := js "Please convert some data first" |};
        destructive := true |})
  else
    (Some {| download := js "converted." ++ formatName (outputFormat s);
             blobText := outputData s;
             blobType := js "text/plain" |},
     {| shown := {| title := js "Download started";
                    description := js "File saved as converted."
                                   ++ formatName (outputFormat s) |};
        destructive := false |}).

(** The [disabled] attributes of the two buttons. *)
Definition downloadDisabled (s : State) : bool := length (outputData s) =? 0.

Definition convertDisabled (s : State) : bool :=
  isConverting s || (length (trim (inputData s)) =? 0).

(** ** Vocabulary of the statements *)

(** A string that comes back unchanged from [trim], and one without the
    characters that carry structure in CSV text. *)
Definition trimmed (s : jsstring) : bool := jsstring_eqb (trim s) s.

Definition unstructured (s : jsstring) : bool :=
  forallb (fun c => negb (N.eqb c comma || N.eqb c newline || N.eqb c quote))
    s.

(** A key that may follow the keys [seen] in the enumeration of an object:
    it is new, and if it is an array index, everything before it is a
    smaller one. *)
Definition mayFollow (seen : list jsstring) (k : jsstring) : bool :=
  negb (existsb (fun k' => jsstring_eqb k' k) seen)
  && match arrayIndex k with
     | Some i =>
         forallb (fun k' => match arrayIndex k' with
                            | Some j => N.ltb j i
                            | None => false
                            end) seen
     | None => true
     end.

(** Keys in an order in which [Object.keys] can report them. *)
Fixpoint enumerableFrom (seen keys : list jsstring) : bool :=
  match keys with
  | [] => true
  | k :: rest => mayFollow seen k && enumerableFrom (seen ++ [k]) rest
  end.

Definition enumerable (keys : list jsstring) : bool := enumerableFrom [] keys.

(** The same tree without its attributes. *)
Fixpoint stripAttributes (n : node) : node :=
  match n with
  | Element tagName _ childNodes =>
      Element tagName [] (map stripAttributes childNodes)
  | _ => n
  end.

(** The numbers a value holds. *)
Fixpoint numbersOf {number : Type} (v : value number) : list number :=
  match v with
  | VNumber n => [n]
  | VArray items => flat_map numbersOf items
  | VObject props => flat_map (fun kv => numbersOf (snd kv)) props
  | _ => []
  end.

(** A number that [JSON.stringify] prints as a number and that is read
    back from what is printed. *)
Definition readsBack (P : Platform) (n : number P) : Prop :=
  Number_isFinite P n = true
  /\ isNumberToken (Number_toString P n) = true
  /\ Number_ofLiteral P (Number_toString P n) = n.

(** A value made of JSON data only: no built-in object in it, and the
    keys of every object in an order in which they are enumerated. *)
Fixpoint plain {number : Type} (v : value number) : bool :=
  match v with
  | VArray items => forallb plain items
  | VObject props =>
      enumerable (map fst props) && forallb (fun kv => plain (snd kv)) props
  | VNative _ => false
  | _ => true
  end.

Definition plainProps {number : Type} (props : list (jsstring * value number))
  : bool :=
  enumerable (map fst props) && forallb (fun kv => plain (snd kv)) props.

(** A parser configuration that holds plain values only. *)
Definition plainFrame {number : Type} (f : frame number) : bool :=
  match f with
  | ArrayFrame items => forallb plain items
  | ObjectFrame props _ => plainProps props
  end.

Definition plainOwner {number : Type}
  (owner : option (list (jsstring * value number))) : bool :=
  match owner with
  | Some props => plainProps props
  | None => true
  end.

Definition plainState {number : Type} (st : state number) : bool :=
  match st with
  | NextElement items => forallb plain items
  | NextKey props => plainProps props
  | Colon props _ => plainProps props
  | NextMember props => plainProps props
  | InString _ owner => plainOwner owner
  | InEscape _ owner => plainOwner owner
  | InUnicode _ owner _ => plainOwner owner
  | InLiteral _ v => plain v
  | Done v => plain v
  | _ => true
  end.

Definition plainConfig {number : Type} (cfg : state number * list (frame number))
  : bool :=
  plainState (fst cfg) && forallb plainFrame (snd cfg).

(** A value that [String] converts: no object in it, at any depth of
    arrays, has a [toString] key of its own. *)
Fixpoint printable {number : Type} (v : value number) : bool :=
  match v with
  | VArray items => forallb printable items
  | VObject props => negb (hasOwn props (js "toString"))
  | _ => true
  end.

(** ** IEEE-754 doubles *)

(** The numbers of a JavaScript engine, on the binary64 format of
    [SpecFloat]: the value of a numeric literal (ECMA-262, the rounding of
    the mathematical value of a literal) and Number::toString. *)
Module Double.

Definition prec : Z := 53.
Definition emax : Z := 1024.

Fixpoint span (p : N -> bool) (s : jsstring) : jsstring * jsstring :=
  match s with
  | c :: r => if p c then let (a, b) := span p r in (c :: a, b) else ([], s)
  | [] => ([], [])
  end.

Definition digitsValue (s : jsstring) : N :=
  fold_left (fun a c => 10 * a + (c - 48))%N s 0%N.

(** The mathematical value of a number token, as a sign, digits [d] and an
    exponent [e], for [d * 10^e]: the sign, the digits before the point,
    the point and the digits after it, the exponent mark with its sign,
    and the digits of the exponent. *)
Definition readLiteral (s : jsstring) : bool * N * Z :=
  let (sign, s1) := span (N.eqb 45) s in
  let negative := negb (length sign =? 0) in
  let (whole, s2) := span isDigit s1 in
  let (point, s3) := span (N.eqb 46) s2 in
  let (fraction, s4) := span isDigit s3 in
  let (mark, digits) := span (fun c => negb (isDigit c)) s4 in
  let e := if existsb (N.eqb 45) mark
           then (- Z.of_N (digitsValue digits))%Z
           else Z.of_N (digitsValue digits) in
  (negative, digitsValue (whole ++ fraction),
   (e - Z.of_nat (length fraction))%Z).

(** The double nearest to [d * 10^e], ties to even.  Beyond [10^400]
    everything is infinite and below [10^-400] everything is zero; in
    between the quotient is taken with enough binary digits for the
    rounding to see where the exact value lies. *)
Definition roundDecimal (negative : bool) (d : N) (e : Z) : spec_float :=
  match d with
  | N0 => S754_zero negative
  | Npos p =>
      if (400 <? e)%Z then S754_infinity negative
      else if (e + Z.of_nat (length (decimalN d)) <? -400)%Z
      then S754_zero negative
      else if (0 <=? e)%Z
      then binary_round prec emax negative (p * Z.to_pos (10 ^ e)) 0
      else
        let scale := (10 ^ (- e))%Z in
        let shift := (1200 + Z.log2 scale)%Z in
        let (q, r) := Z.div_eucl (Z.pos p * 2 ^ shift) scale in
        binary_round_aux prec emax negative q (- shift)
          (if (r =? 0)%Z then loc_Exact
           else loc_Inexact (Z.compare (2 * r) scale))
  end.

(** The Number value of a JSON number token; what is no such token has
    none, and [NaN] stands in for it. *)
Definition ofLiteral (s : jsstring) : spec_float :=
  if isNumberToken s
  then let '(negative, d, e) := readLiteral s in roundDecimal negative d e
  else S754_nan.

Definition eqb (x y : spec_float) : bool :=
  match x, y with
  | S754_zero a, S754_zero b => Bool.eqb a b
  | S754_infinity a, S754_infinity b => Bool.eqb a b
  | S754_nan, S754_nan => true
  | S754_finite a m e, S754_finite b m' e' =>
      Bool.eqb a b && Pos.eqb m m' && Z.eqb e e'
  | _, _ => false
  end.

(** The numerals of [k] digits next to [m * 2^e], which lies between
    [10^(n-1)] and [10^n]: the one below and the one above
    [m * 2^e * 10^(k - n)], the nearer first (the even one on a tie), each
    with its [n]. *)
Definition candidates (m : positive) (e : Z) (n : Z) (k : nat)
  : list (N * Z) :=
  let a := (Z.pos m * 2 ^ Z.max e 0 * 10 ^ Z.max (Z.of_nat k - n) 0)%Z in
  let b := (2 ^ Z.max (- e) 0 * 10 ^ Z.max (n - Z.of_nat k) 0)%Z in
  let (q, r) := Z.div_eucl a b in
  let below := (Z.to_N q, n) in
  let above := if (q + 1 =? 10 ^ Z.of_nat k)%Z
               then ((10 ^ N.of_nat (k - 1))%N, (n + 1)%Z)
               else (Z.to_N (q + 1), n) in
  if (r =? 0)%Z then [below]
  else match Z.compare (2 * r) b with
       | Lt => [below; above]
       | Eq => if Z.even q then [below; above] else [above; below]
       | Gt => [above; below]
       end.

(** Number::toString, step 5: the least [k] for which some [s] of [k]
    digits and some [n] make [s * 10^(n - k)] round to the number, with
    the [s] nearest to it.  Seventeen digits always do. *)
Fixpoint shortest (m : positive) (e : Z) (n : Z) (k : nat) (fuel : nat)
  : N * Z :=
  let found :=
    filter (fun sn => eqb (roundDecimal false (fst sn) (snd sn - Z.of_nat k))
                        (S754_finite false m e))
      (candidates m e n k) in
  match found, fuel with
  | sn :: _, _ => sn
  | [], S fuel' => shortest m e n (S k) fuel'
  | [], O => hd (0%N, n) (candidates m e n k)
  end.

Definition zeros (n : Z) : jsstring := repeat 48%N (Z.to_nat n).

(** Steps 6 to 10: the digits laid out with zeros, with a point, or with
    an exponent. *)
Definition toStringPositive (m : positive) (e : Z) : jsstring :=
  let n0 := (Z.of_nat
               (length (decimalN (Z.to_N (Z.pos m * 2 ^ Z.max e 0 * 10 ^ 400
                                          / 2 ^ Z.max (- e) 0))))
             - 400)%Z in
  let (s, n) := shortest m e n0 1 16 in
  let digits := decimalN s in
  let k := Z.of_nat (length digits) in
  if (k <=? n)%Z && (n <=? 21)%Z then digits ++ zeros (n - k)
  else if (0 <? n)%Z && (n <=? 21)%Z
  then firstn (Z.to_nat n) digits ++ js "." ++ skipn (Z.to_nat n) digits
  else if (-6 <? n)%Z && (n <=? 0)%Z
  then js "0." ++ zeros (- n) ++ digits
  else
    let exponent := (if (0 <=? n - 1)%Z then js "+" else js "-")
                    ++ decimalN (Z.to_N (Z.abs (n - 1))) in
    match digits with
    | [d] => [d] ++ js "e" ++ exponent
    | d :: rest => [d] ++ js "." ++ rest ++ js "e" ++ exponent
    | [] => []
    end.

Definition toString (x : spec_float) : jsstring :=
  match x with
  | S754_nan => js "NaN"
  | S754_zero _ => js "0"
  | S754_infinity false => js "Infinity"
  | S754_infinity true => js "-Infinity"
  | S754_finite negative m e =>
      (if negative then js "-" else []) ++ toStringPositive m e
  end.

Definition toBoolean (x : spec_float) : bool :=
  match x with
  | S754_zero _ => false
  | S754_nan => false
  | _ => true
  end.

Definition isFinite (x : spec_float) : bool :=
  match x with
  | S754_zero _ => true
  | S754_finite _ _ _ => true
  | _ => false
  end.

Definition ofNat (n : nat) : spec_float :=
  binary_normalize prec emax (Z.of_nat n) 0 false.

End Double.

(** ** A browser to run the component on *)

(** Numbers are doubles; the members of the built-in prototypes are those
    of ECMA-262; the messages of the type errors and the text of a
    built-in function are V8's.  The message of the syntax error, which
    the component replaces by its own, only quotes the text.  The document
    parser knows a handful of texts and reports every other one as
    malformed. *)
Module Sample.

Definition parsererror : node :=
  Element (js "parsererror") [] [Text (js "error on line 1")].

Definition parseFromString (s : jsstring) : node :=
  if jsstring_eqb s (js "<root><a>1</a><a>2</a></root>") then
    Element (js "root") []
      [Element (js "a") [] [Text (js "1")];
       Element (js "a") [] [Text (js "2")]]
  else if jsstring_eqb s (js "<root><a></a><a>2</a></root>") then
    Element (js "root") []
      [Element (js "a") [] []; Element (js "a") [] [Text (js "2")]]
  else if jsstring_eqb s (js "<x>hi</x>") then
    Element (js "x") [] [Text (js "hi")]
  else if jsstring_eqb s (js "<r><constructor>x</constructor></r>") then
    Element (js "r") [] [Element (js "constructor") [] [Text (js "x")]]
  else if jsstring_eqb s (js "<r><__proto__>x</__proto__><a>1</a></r>") then
    Element (js "r") []
      [Element (js "__proto__") [] [Text (js "x")];
       Element (js "a") [] [Text (js "1")]]
  else parsererror.

Definition arrayMembers : list jsstring :=
  [js "at"; js "concat"; js "constructor"; js "copyWithin"; js "entries";
   js "every"; js "fill"; js "filter"; js "find"; js "findIndex";
   js "findLast"; js "findLastIndex"; js "flat"; js "flatMap"; js "forEach";
   js "includes"; js "indexOf"; js "join"; js "keys"; js "lastIndexOf";
   js "map"; js "pop"; js "push"; js "reduce"; js "reduceRight";
   js "reverse"; js "shift"; js "slice"; js "some"; js "sort"; js "splice";
   js "toLocaleString"; js "toReversed"; js "toSorted"; js "toSpliced";
   js "toString"; js "unshift"; js "values"; js "with"].

Definition stringMembers : list jsstring :=
  [js "anchor"; js "at"; js "big"; js "blink"; js "bold"; js "charAt";
   js "charCodeAt"; js "codePointAt"; js "concat"; js "constructor";
   js "endsWith"; js "fixed"; js "fontcolor"; js "fontsize"; js "includes";
   js "indexOf"; js "isWellFormed"; js "italics"; js "lastIndexOf";
   js "link"; js "localeCompare"; js "match"; js "matchAll"; js "normalize";
   js "padEnd"; js "padStart"; js "repeat"; js "replace"; js "replaceAll";
   js "search"; js "slice"; js "small"; js "split"; js "startsWith";
   js "strike"; js "sub"; js "substr"; js "substring"; js "sup";
   js "toLocaleLowerCase"; js "toLocaleUpperCase"; js "toLowerCase";
   js "toString"; js "toUpperCase"; js "toWellFormed"; js "trim";
   js "trimEnd"; js "trimLeft"; js "trimRight"; js "trimStart";
   js "valueOf"].

Definition numberMembers : list jsstring :=
  [js "constructor"; js "toExponential"; js "toFixed"; js "toLocaleString";
   js "toPrecision"; js "toString"; js "valueOf"].

Definition booleanMembers : list jsstring :=
  [js "constructor"; js "toString"; js "valueOf"].

Definition builtinName (b : builtin) : jsstring :=
  match b with
  | BObject => js "Object"
  | BArray => js "Array"
  | BString => js "String"
  | BNumber => js "Number"
  | BBoolean => js "Boolean"
  end.

(** The name of the function under the key [k] of the prototype [b]: the
    key, but for the constructor and for the two aliases of Annex B. *)
Definition functionName (b : builtin) (k : jsstring) : jsstring :=
  if jsstring_eqb k (js "constructor") then builtinName b
  else if jsstring_eqb k (js "trimLeft") then js "trimStart"
  else if jsstring_eqb k (js "trimRight") then js "trimEnd"
  else k.

Definition functionText (b : builtin) (k : jsstring) : jsstring :=
  js "function " ++ functionName b k ++ js "() { [native code] }".

(** Of the properties of a built-in function the sample knows the name;
    the component never reads one. *)
Definition functionProperty (b : builtin) (k : jsstring) (p : jsstring)
  : option (value spec_float) :=
  if jsstring_eqb p (js "name") then Some (VString (functionName b k))
  else None.

Definition browser : Platform :=
  {| number := spec_float;
     Number_toString := Double.toString;
     Number_toBoolean := Double.toBoolean;
     Number_ofNat := Double.ofNat;
     Number_ofLiteral := Double.ofLiteral;
     Number_isFinite := Double.isFinite;
     members := fun b => match b with
                         | BObject => []
                         | BArray => arrayMembers
                         | BString => stringMembers
                         | BNumber => numberMembers
                         | BBoolean => booleanMembers
                         end;
     Function_toString := functionText;
     Function_get := functionProperty;
     nullKeysMessage := js "Cannot convert undefined or null to object";
     nullReadMessage := fun k =>
       js "Cannot read properties of null (reading '" ++ k ++ js "')";
     toPrimitiveMessage := js "Cannot convert object to primitive value";
     syntaxErrorMessage := fun text =>
       js "Unexpected token or end of input in JSON: " ++ text;
     DOMParser_parseFromString := parseFromString |}.

(** Two states of the component. *)
Definition blankState : State :=
  {| inputData := js "  " ++ [newline];
     outputData := js "kept";
     inputFormat := json;
     outputFormat := csv;
     error := None;
     isConverting := false;
     toasts := [] |}.

Definition shortRowState : State :=
  {| inputData := js "a,b" ++ [newline] ++ js "1";
     outputData := js "old";
     inputFormat := csv;
     outputFormat := xml;
     error := None;
     isConverting := false;
     toasts := [] |}.

(** A session with an earlier output on display. *)
Definition session (text : jsstring) (from to : FileFormat) : State :=
  {| inputData := text;
     outputData := js "old";
     inputFormat := from;
     outputFormat := to;
     error := None;
     isConverting := false;
     toasts := [] |}.

(** JSON texts: a number beyond the doubles; a document with numbers,
    strings and nesting; an array whose second row lacks the key of the
    first, a key that [Object.prototype] knows; an array with a cell that
    has a [toString] key of its own. *)
Definition literal (s : string) : jsstring := [quote] ++ js s ++ [quote].

Definition overflow : jsstring := js "1e999".

Definition inventory : jsstring :=
  js "{" ++ literal "b" ++ js ":[1.5,-2e3," ++ literal "x\ty"
  ++ js ", null,true ], " ++ literal "10" ++ js ":{}," ++ literal "2"
  ++ js ":0.1, " ++ literal "b c" ++ js ": [[],5e-324]}".

Definition inheritedCell : jsstring :=
  js "[{" ++ literal "constructor" ++ js ":" ++ literal "x" ++ js "},{}]".

Definition unprintableCell : jsstring :=
  js "[{" ++ literal "a" ++ js ":{" ++ literal "toString" ++ js ":1}}]".

Definition people : jsstring :=
  js "name , age" ++ [newline] ++ js "Ann, 41" ++ [newline] ++ js "Bob,7".

Definition catalogue : node :=
  Element (js "shop") [(js "id", js "7")]
    [Element (js "item") [] [Text (js "pen")];
     Comment (js "stock");
     Element (js "item") [(js "new", js "yes")] [Text (js "ink")];
     Element (js "owner") [] [Text (js "Ann")]].

End Sample.

(** * Properties *)

(** ** Strings *)

Lemma jsstring_eqb_eq (a b : jsstring) : jsstring_eqb a b = true <-> a = b.
Proof.
  unfold jsstring_eqb. destruct (list_eq_dec N.eq_dec a b); split;
    congruence.
Qed.

Lemma jsstring_eqb_refl (a : jsstring) : jsstring_eqb a a = true.
Proof. now apply jsstring_eqb_eq. Qed.

Lemma jsstring_eqb_neq (a b : jsstring) : jsstring_eqb a b = false <-> a <> b.
Proof.
  unfold jsstring_eqb. destruct (list_eq_dec N.eq_dec a b); split;
    congruence.
Qed.

Lemma jsstring_eqb_sym (a b : jsstring) : jsstring_eqb a b = jsstring_eqb b a.
Proof.
  unfold jsstring_eqb.
  destruct (list_eq_dec N.eq_dec a b), (list_eq_dec N.eq_dec b a);
    congruence.
Qed.

Lemma trimStart_blank (s : jsstring) :
  trimStart s = [] <-> forallb isWhiteSpace s = true.
Proof.
  induction s as [|c r IH]; simpl.
  - tauto.
  - destruct (isWhiteSpace c); simpl.
    + exact IH.
    + split; discriminate.
Qed.

(** A text trims to nothing exactly when it holds white space only. *)
Lemma trim_blank (s : jsstring) :
  trim s = [] <-> forallb isWhiteSpace s = true.
Proof.
  unfold trim, trimEnd. split.
  - intros H.
    assert (H1 : trimStart (rev (trimStart s)) = []).
    { destruct (trimStart (rev (trimStart s))) as [|x t]; [reflexivity|].
      apply (f_equal (@length N)) in H. rewrite length_rev in H.
      discriminate. }
    apply trimStart_blank in H1.
    assert (H2 : forallb isWhiteSpace (trimStart s) = true).
    { rewrite forallb_forall in *. intros x Hx. apply H1.
      now apply in_rev in Hx. }
    clear H H1. apply trimStart_blank.
    induction s as [|c r IH]; simpl in *; [reflexivity|].
    destruct (isWhiteSpace c) eqn:E.
    + now apply IH.
    + simpl in H2. now rewrite E in H2.
  - intros H. apply trimStart_blank in H. now rewrite H.
Qed.

Lemma trimStart_spec (s : jsstring) :
  exists pre,
    s = pre ++ trimStart s /\ forallb isWhiteSpace pre = true
    /\ startsClean (trimStart s).
Proof.
  induction s as [|c r (pre & E & Hpre & Hhd)]; simpl.
  - now exists [].
  - destruct (isWhiteSpace c) eqn:Ec.
    + exists (c :: pre). simpl. rewrite Ec, Hpre. now rewrite <- E.
    + now exists [].
Qed.

(** [trim] cuts a run of white space off either end and stops at the
    first and the last code unit that is none. *)
Lemma trim_spec (s : jsstring) :
  exists pre post,
    s = pre ++ trim s ++ post
    /\ forallb isWhiteSpace pre = true /\ forallb isWhiteSpace post = true
    /\ startsClean (trim s) /\ startsClean (rev (trim s)).
Proof.
  unfold trim, trimEnd.
  destruct (trimStart_spec s) as (pre & E & Hpre & Hhd).
  destruct (trimStart_spec (rev (trimStart s))) as (erp & E' & Herp & Hlast).
  apply (f_equal (@rev N)) in E'. rewrite rev_involutive, rev_app_distr in E'.
  exists pre, (rev erp). repeat split.
  - now rewrite <- E'.
  - exact Hpre.
  - rewrite forallb_forall in *. intros x Hx. apply Herp. now apply in_rev.
  - rewrite E' in Hhd.
    destruct (rev (trimStart (rev (trimStart s)))); [exact I | exact Hhd].
  - now rewrite rev_involutive.
Qed.

Lemma removeQuotes_no_quote (s : jsstring) : ~ In quote (removeQuotes s).
Proof.
  unfold removeQuotes. intros H. apply filter_In in H. destruct H as [_ H].
  now rewrite N.eqb_refl in H.
Qed.

Lemma split_nonempty (sep : N) (s : jsstring) : split sep s <> [].
Proof.
  destruct s as [|c r]; simpl; [discriminate|].
  destruct (N.eqb c sep); [discriminate|].
  destruct (split sep r); discriminate.
Qed.

(** ** Own properties *)

Section ObjectLemmas.

Variable number : Type.

Local Abbreviation props := (list (jsstring * value number)).

Lemma hasOwn_obj_get (o : props) (k : jsstring) :
  hasOwn o k = false <-> obj_get o k = None.
Proof.
  induction o as [|[k' v'] rest IH]; simpl.
  - tauto.
  - destruct (jsstring_eqb k' k); simpl.
    + split; discriminate.
    + exact IH.
Qed.

Lemma obj_get_replace (o : props) (k k' : jsstring) (v : value number) :
  hasOwn o k = true ->
  obj_get (obj_replace o k v) k'
  = if jsstring_eqb k k' then Some v else obj_get o k'.
Proof.
  induction o as [|[k0 v0] rest IH]; simpl; [discriminate|].
  destruct (jsstring_eqb k0 k) eqn:E0; simpl.
  - intros _. apply jsstring_eqb_eq in E0. subst k0.
    destruct (jsstring_eqb k k'); reflexivity.
  - intros H. rewrite (IH H).
    destruct (jsstring_eqb k0 k') eqn:E1; [|reflexivity].
    apply jsstring_eqb_eq in E1. subst k'.
    destruct (jsstring_eqb k k0) eqn:E2; [|reflexivity].
    apply jsstring_eqb_eq in E2. subst k0.
    now rewrite jsstring_eqb_refl in E0.
Qed.

Lemma obj_get_insertIndex (o : props) (i : N) (k k' : jsstring)
  (v : value number) :
  hasOwn o k = false ->
  obj_get (obj_insertIndex o i k v) k'
  = if jsstring_eqb k k' then Some v else obj_get o k'.
Proof.
  induction o as [|[k0 v0] rest IH]; simpl; [reflexivity|].
  intros H. apply orb_false_elim in H. destruct H as [H0 H].
  destruct (arrayIndex k0) as [j|]; [destruct (N.ltb j i)|]; simpl;
    try reflexivity.
  rewrite (IH H).
  destruct (jsstring_eqb k0 k') eqn:E1; [|reflexivity].
  apply jsstring_eqb_eq in E1. subst k'.
  now rewrite jsstring_eqb_sym, H0.
Qed.

Lemma obj_get_app (o : props) (k k' : jsstring) (v : value number) :
  hasOwn o k = false ->
  obj_get (o ++ [(k, v)]) k'
  = if jsstring_eqb k k' then Some v else obj_get o k'.
Proof.
  induction o as [|[k0 v0] rest IH]; simpl.
  - intros _. reflexivity.
  - intros H. apply orb_false_elim in H. destruct H as [H0 H].
    rewrite (IH H).
    destruct (jsstring_eqb k0 k') eqn:E1; [|reflexivity].
    apply jsstring_eqb_eq in E1. subst k'.
    now rewrite jsstring_eqb_sym, H0.
Qed.

(** Reading after writing: [obj[k] = v] changes what [obj[k]] yields and
    nothing else. *)
Lemma obj_get_set (o : props) (k k' : jsstring) (v : value number) :
  obj_get (obj_set o k v) k'
  = if jsstring_eqb k k' then Some v else obj_get o k'.
Proof.
  unfold obj_set. destruct (hasOwn o k) eqn:E.
  - now apply obj_get_replace.
  - destruct (arrayIndex k).
    + now apply obj_get_insertIndex.
    + now apply obj_get_app.
Qed.

End ObjectLemmas.

(** ** The component *)

Section Properties.

Variable P : Platform.

Local Abbreviation value := (value (number P)).

(** *** Assignments *)

(** An assignment of a string: the key [__proto__] is lost unless the
    object has it as an own property, any other key is set. *)
Lemma assign_string (obj : building P) (k s : jsstring) :
  assign obj k (VString s)
  = if reachesSetter obj k then obj
    else {| own := obj_set (own obj) k (VString s); proto := proto obj |}.
Proof. unfold assign. now destruct (reachesSetter obj k). Qed.

Lemma obj_get_assign_string (obj : building P) (k k' s : jsstring) :
  obj_get (own (assign obj k (VString s))) k'
  = if reachesSetter obj k
    then obj_get (own obj) k'
    else if jsstring_eqb k k' then Some (VString s)
         else obj_get (own obj) k'.
Proof.
  rewrite assign_string. destruct (reachesSetter obj k); [reflexivity|].
  apply obj_get_set.
Qed.

Lemma proto_assign_string (obj : building P) (k s : jsstring) :
  proto (assign obj k (VString s)) = proto obj.
Proof. rewrite assign_string. now destruct (reachesSetter obj k). Qed.

Lemma reachesSetter_other (obj : building P) (k : jsstring) :
  k <> protoKey -> reachesSetter obj k = false.
Proof.
  intros H. apply jsstring_eqb_neq in H. unfold reachesSetter. now rewrite H.
Qed.

(** *** Rows of a CSV text *)

Local Abbreviation store :=
  (fun (row : building P) (hv : jsstring * jsstring) =>
     assign row (fst hv) (VString (snd hv))).

Lemma store_other (l : list (jsstring * jsstring)) (acc : building P)
  (k : jsstring) :
  ~ In k (map fst l) ->
  obj_get (own (fold_left store l acc)) k = obj_get (own acc) k.
Proof.
  revert acc. induction l as [|[h c] l IH]; simpl; intros acc Hk.
  - reflexivity.
  - rewrite IH by tauto. rewrite obj_get_assign_string.
    destruct (reachesSetter acc h); [reflexivity|].
    destruct (jsstring_eqb h k) eqn:E; [|reflexivity].
    apply jsstring_eqb_eq in E. tauto.
Qed.

Lemma store_origin (l : list (jsstring * jsstring)) (acc : building P)
  (k : jsstring) (v : value) :
  obj_get (own (fold_left store l acc)) k = Some v ->
  (exists j c, nth_error l j = Some (k, c) /\ v = VString c)
  \/ obj_get (own acc) k = Some v.
Proof.
  revert acc. induction l as [|[h c] l IH]; simpl; intros acc H.
  - now right.
  - destruct (IH _ H) as [(j & c' & Hj & Hv)|H'].
    + left. now exists (S j), c'.
    + rewrite obj_get_assign_string in H'.
      destruct (reachesSetter acc h); [now right|].
      destruct (jsstring_eqb h k) eqn:E.
      * apply jsstring_eqb_eq in E. subst h. injection H' as <-.
        left. now exists 0, c.
      * now right.
Qed.

Lemma nth_error_combine {A B} (l : list A) (l' : list B) (j : nat) a b :
  nth_error (combine l l') j = Some (a, b) <->
  nth_error l j = Some a /\ nth_error l' j = Some b.
Proof.
  revert l' j. induction l as [|x l IH]; intros [|y l'] [|j]; simpl;
    try (split; [discriminate | intros [? ?]; discriminate]).
  - split; [intros [= -> ->]; now split | intros [[= ->] [= ->]]; reflexivity].
  - apply IH.
Qed.

(** The object built for a row maps a header other than [__proto__] to
    the cell of the last column that carries this header. *)
Lemma fillRow_last (headers values : list jsstring) (j : nat)
  (h c : jsstring) :
  nth_error headers j = Some h ->
  nth_error values j = Some c ->
  (forall j', j < j' -> nth_error headers j' <> Some h) ->
  h <> protoKey ->
  obj_get (fillRow P headers values) h = Some (VString c).
Proof.
  unfold fillRow. generalize (emptyObject P) as acc.
  revert values j. induction headers as [|h0 headers IH];
    intros values j acc Hh Hc Hlast Hproto.
  - now destruct j.
  - destruct values as [|c0 values]; [now destruct j|].
    destruct j as [|j]; simpl in *.
    + injection Hh as ->. injection Hc as ->.
      rewrite store_other.
      * rewrite obj_get_assign_string, jsstring_eqb_refl.
        now rewrite reachesSetter_other.
      * intros Hin. apply in_map_iff in Hin.
        destruct Hin as ([h' c'] & Hfst & Hin). simpl in Hfst. subst h'.
        apply In_nth_error in Hin. destruct Hin as [n Hn].
        apply nth_error_combine in Hn. destruct Hn as [Hn _].
        apply (Hlast (S n)); [lia | exact Hn].
    + apply (IH values j); auto.
      intros j' Hj'. apply (Hlast (S j')). lia.
Qed.

(** Whatever the object of a row holds under a key is the cell of a
    column with that header, kept as a string. *)
Lemma fillRow_origin (headers values : list jsstring) (k : jsstring)
  (v : value) :
  obj_get (fillRow P headers values) k = Some v ->
  exists j c, nth_error headers j = Some k /\ nth_error values j = Some c
              /\ v = VString c.
Proof.
  unfold fillRow. intros H. apply store_origin in H.
  destruct H as [(j & c & Hj & Hv)|H]; [|discriminate].
  apply nth_error_combine in Hj. destruct Hj. now exists j, c.
Qed.

(** The header [__proto__] leaves no key behind. *)
Lemma fillRow_proto (headers values : list jsstring) :
  obj_get (fillRow P headers values) protoKey = None.
Proof.
  unfold fillRow.
  assert (G : forall l (acc : building P),
             proto acc = VNative (Prototype BObject) ->
             obj_get (own acc) protoKey = None ->
             obj_get (own (fold_left store l acc)) protoKey = None).
  { induction l as [|[h c] l IH]; simpl; intros acc Hp Hacc; [exact Hacc|].
    apply IH; [now rewrite proto_assign_string|].
    rewrite obj_get_assign_string.
    destruct (reachesSetter acc h) eqn:E; [exact Hacc|].
    destruct (jsstring_eqb h protoKey) eqn:Eh; [|exact Hacc].
    unfold reachesSetter in E. rewrite Eh, Hp in E.
    cbn [inheritsAccessor andb] in E. rewrite andb_true_r in E.
    apply negb_false_iff in E.
    apply jsstring_eqb_eq in Eh. subst h.
    apply hasOwn_obj_get in Hacc. congruence. }
  now apply G.
Qed.

(** The loop of [parseCSV] on lines that all have the length of the
    header. *)
Lemma parseRows_ok (headers lines : list jsstring) (i : nat)
  (rows : list value) :
  Forall (fun line => length (valuesOf line) = length headers) lines ->
  parseRows P headers lines i rows
  = Ok (rows ++ map (fun line => VObject (fillRow P headers (valuesOf line)))
                  lines).
Proof.
  revert i rows. induction lines as [|line rest IH]; simpl; intros i rows H.
  - now rewrite app_nil_r.
  - inversion H as [|? ? Hline Hrest]; subst.
    rewrite Hline, Nat.eqb_refl. simpl.
    rewrite (IH _ _ Hrest), <- app_assoc. reflexivity.
Qed.

(** The loop stops at the first line of another length. *)
Lemma parseRows_throw (headers good rest : list jsstring) (bad : jsstring)
  (i : nat) (rows : list value) :
  Forall (fun line => length (valuesOf line) = length headers) good ->
  length (valuesOf bad) <> length headers ->
  parseRows P headers (good ++ bad :: rest) i rows
  = Throw (Error (rowLengthMessage (i + length good + 1)
                    (length (valuesOf bad)) (length headers))).
Proof.
  revert i rows. induction good as [|line good IH]; simpl; intros i rows H Hb.
  - apply Nat.eqb_neq in Hb. rewrite Hb. simpl.
    now rewrite Nat.add_0_r.
  - inversion H as [|? ? Hline Hgood]; subst.
    rewrite Hline, Nat.eqb_refl. simpl.
    rewrite (IH _ _ Hgood Hb). do 3 f_equal. lia.
Qed.

Lemma parseCSV_unfold (csvData : jsstring) :
  parseCSV P csvData
  = parseRows P (headersOf csvData) (tl (linesOf csvData)) 1 [].
Proof.
  unfold parseCSV.
  destruct (linesOf csvData) eqn:E; [|reflexivity].
  now apply split_nonempty in E.
Qed.

(** Either every line has the length of the header, or there is a first
    one that has not. *)
Lemma first_offending_line (headers lines : list jsstring) :
  Forall (fun line => length (valuesOf line) = length headers) lines
  \/ exists good bad rest,
       lines = good ++ bad :: rest
       /\ Forall (fun line => length (valuesOf line) = length headers) good
       /\ length (valuesOf bad) <> length headers.
Proof.
  induction lines as [|line lines IH].
  - left. constructor.
  - destruct (Nat.eq_dec (length (valuesOf line)) (length headers)) as [E|E].
    + destruct IH as [IH|(good & bad & rest & -> & Hg & Hb)].
      * left. now constructor.
      * right. exists (line :: good), bad, rest. repeat split; auto.
    + right. exists [], line, lines. repeat split; auto.
Qed.

Lemma parseCSV_Ok_inv (csvData : jsstring) (rows : list value) :
  parseCSV P csvData = Ok rows ->
  Forall (fun line => length (valuesOf line) = length (headersOf csvData))
    (tl (linesOf csvData))
  /\ rows = map (fun line =>
                   VObject (fillRow P (headersOf csvData) (valuesOf line)))
            (tl (linesOf csvData)).
Proof.
  rewrite parseCSV_unfold. intros H.
  destruct (first_offending_line (headersOf csvData) (tl (linesOf csvData)))
    as [Hall|(good & bad & rest & E & Hg & Hb)].
  - split; [exact Hall|]. rewrite parseRows_ok in H by exact Hall.
    simpl in H. now injection H as <-.
  - rewrite E, parseRows_throw in H by assumption. discriminate.
Qed.

(** What [decimal] writes is the numeral that reads back as the number. *)
Lemma readDecimal_decimal (n : nat) : readDecimal (decimal n) = Some n.
Proof.
  unfold readDecimal, decimal, decimalN, unjs, js.
  rewrite map_map.
  rewrite (map_ext _ (fun a => a)) by (intros a; apply ascii_N_embedding).
  rewrite map_id, string_of_list_ascii_of_string, NilZero.usu.
  - simpl. now rewrite DecimalN.Unsigned.of_to, Nat2N.id.
  - destruct (N.of_nat n); simpl; [discriminate|].
    apply DecimalPos.Unsigned.to_uint_nonnil.
Qed.

(** C3: when some data line of a CSV text splits into a number of fields
    other than the number of headers, [parseCSV] throws, and the message
    names such a line -- the first one -- by its 1-based row number (the
    header being row 1), with the number of columns it has and the number
    expected: the text is [Row], the row number, [has], the number of
    fields of the line, [columns, expected], and the number of headers,
    each number as the decimal numeral that reads back as it.  For the
    text [a,b] with the one data line [1] the message is [Row 2 has 1
    columns, expected 2]. *)
Theorem parseCSV_row_length_error (csvData : jsstring) :
  (exists i line,
      1 <= i /\ nth_error (linesOf csvData) i = Some line
      /\ length (valuesOf line) <> length (headersOf csvData)) ->
  exists i line,
    1 <= i /\ nth_error (linesOf csvData) i = Some line
    /\ length (valuesOf line) <> length (headersOf csvData)
    /\ (forall j l, 1 <= j < i -> nth_error (linesOf csvData) j = Some l ->
                    length (valuesOf l) = length (headersOf csvData))
    /\ parseCSV P csvData
       = Throw (Error (js "Row " ++ decimal (i + 1) ++ js " has "
                       ++ decimal (length (valuesOf line))
                       ++ js " columns, expected "
                       ++ decimal (length (headersOf csvData))))
    /\ readDecimal (decimal (i + 1)) = Some (i + 1)
    /\ readDecimal (decimal (length (valuesOf line)))
       = Some (length (valuesOf line))
    /\ readDecimal (decimal (length (headersOf csvData)))
       = Some (length (headersOf csvData))
    /\ parseCSV P (js "a,b" ++ [newline] ++ js "1")
       = Throw (Error (js "Row 2 has 1 columns, expected 2")).
Proof.
  intros (i0 & line0 & Hi0 & Hline0 & Hbad0).
  rewrite parseCSV_unfold.
  destruct (linesOf csvData) as [|header data] eqn:E.
  { now destruct i0. }
  cbn [tl].
  destruct (first_offending_line (headersOf csvData) data)
    as [Hall|(good & bad & rest & -> & Hg & Hb)].
  - exfalso. destruct i0 as [|i0]; [lia|]. simpl in Hline0.
    apply nth_error_In in Hline0.
    rewrite Forall_forall in Hall. now apply Hbad0, Hall.
  - exists (S (length good)), bad. repeat split.
    + lia.
    + simpl. rewrite nth_error_app2 by lia. now rewrite Nat.sub_diag.
    + exact Hb.
    + intros [|j] l Hj Hl; [lia|]. simpl in Hl.
      rewrite nth_error_app1 in Hl by lia.
      apply nth_error_In in Hl. rewrite Forall_forall in Hg. now apply Hg.
    + rewrite parseRows_throw by assumption. unfold rowLengthMessage.
      reflexivity.
    + apply readDecimal_decimal.
    + apply readDecimal_decimal.
    + apply readDecimal_decimal.
Qed.

Lemma last_occurrence (k : jsstring) (l : list jsstring) :
  In k l ->
  exists j, nth_error l j = Some k
            /\ forall j', j < j' -> nth_error l j' <> Some k.
Proof.
  induction l as [|x l IH]; simpl; [tauto|]. intros H.
  destruct (in_dec (list_eq_dec N.eq_dec) k l) as [Hin|Hout].
  - destruct (IH Hin) as (j & Hj & Hlast). exists (S j). split; [exact Hj|].
    intros [|j'] Hlt; [lia|]. simpl. apply Hlast. lia.
  - destruct H as [->|H]; [|tauto]. exists 0. split; [reflexivity|].
    intros [|j'] Hlt; [lia|]. simpl. intros Hn.
    now apply nth_error_In in Hn.
Qed.

Lemma Forall2_map_r {A B} (R : A -> B -> Prop) (f : A -> B) (l : list A) :
  Forall (fun a => R a (f a)) l -> Forall2 R l (map f l).
Proof. induction 1; simpl; constructor; auto. Qed.

(** C4, as amended: the first line of the trimmed text is the header, each
    of its comma-separated fields trimmed and freed of quotes.  When every
    data line has as many fields as the header, [parseCSV] returns one
    object per data line, and the object maps a header other than
    [__proto__] to the cell string of the last column that carries its
    name -- to its own cell when no later column repeats the name.  The
    text [a,b] / [1,2] yields [{a:"1", b:"2"}]. *)
Theorem parseCSV_rows (csvData : jsstring) :
  (Forall (fun line => length (valuesOf line) = length (headersOf csvData))
     (tl (linesOf csvData)) ->
   headersOf csvData
   = map (fun f => removeQuotes (trim f))
       (split comma (nth 0 (split newline (trim csvData)) []))
   /\ exists objs,
       parseCSV P csvData = Ok (map VObject objs)
       /\ Forall2
            (fun line row =>
               forall j h c,
                 nth_error (headersOf csvData) j = Some h ->
                 nth_error (valuesOf line) j = Some c ->
                 (forall j', j < j' ->
                             nth_error (headersOf csvData) j' <> Some h) ->
                 h <> js "__proto__" ->
                 obj_get row h = Some (VString c))
            (tl (linesOf csvData)) objs)
  /\ parseCSV P (js "a,b" ++ [newline] ++ js "1,2")
     = Ok [VObject [(js "a", VString (js "1")); (js "b", VString (js "2"))]].
Proof.
  split; [|reflexivity].
  intros Hall. split; [reflexivity|].
  exists (map (fun line => fillRow P (headersOf csvData) (valuesOf line))
            (tl (linesOf csvData))).
  split.
  - rewrite parseCSV_unfold, parseRows_ok by exact Hall.
    now rewrite map_map.
  - apply Forall2_map_r. rewrite Forall_forall in *. intros line Hline.
    intros j h c Hh Hc Hlast Hproto. now apply (fillRow_last _ _ Hh Hc).
Qed.

(** C10: whatever [parseCSV] stores comes from the raw fields by [trim]
    followed by the removal of every double quote, wherever it stands:
    each key is the cleaned header field of some column and the value
    under it the cleaned cell of that column, and neither holds a double
    quote.  A cell written as [a], a double quote and [b] is stored as
    [ab]. *)
Theorem parseCSV_cleans_fields (csvData : jsstring) (rows : list value) :
  (parseCSV P csvData = Ok rows ->
   exists objs,
     rows = map VObject objs
     /\ Forall2
          (fun line row =>
             forall k v, obj_get row k = Some v ->
               exists j hf cf,
                 nth_error (split comma (nth 0 (linesOf csvData) [])) j
                 = Some hf
                 /\ nth_error (split comma line) j = Some cf
                 /\ k = removeQuotes (trim hf)
                 /\ v = VString (removeQuotes (trim cf))
                 /\ ~ In quote k
                 /\ ~ In quote (removeQuotes (trim cf)))
          (tl (linesOf csvData)) objs)
  /\ cleanField (js " a" ++ [quote] ++ js "b ") = js "ab"
  /\ parseCSV P (js "x" ++ [newline] ++ js "a" ++ [quote] ++ js "b")
     = Ok [VObject [(js "x", VString (js "ab"))]].
Proof.
  split; [|split; reflexivity].
  intros H. apply parseCSV_Ok_inv in H. destruct H as [_ ->].
  exists (map (fun line => fillRow P (headersOf csvData) (valuesOf line))
            (tl (linesOf csvData))).
  split; [now rewrite map_map|].
  apply Forall2_map_r, Forall_forall. intros line _ k v Hv.
  apply fillRow_origin in Hv. destruct Hv as (j & c & Hj & Hc & ->).
  unfold headersOf in Hj. unfold valuesOf in Hc.
  rewrite nth_error_map in Hj, Hc.
  destruct (nth_error (split comma (nth 0 (linesOf csvData) [])) j)
    as [hf|] eqn:Ehf; [|discriminate].
  destruct (nth_error (split comma line) j) as [cf|] eqn:Ecf; [|discriminate].
  injection Hj as <-. injection Hc as <-.
  exists j, hf, cf. unfold cleanField.
  repeat split; auto; apply removeQuotes_no_quote.
Qed.

(** *** CSV output *)

Lemma mapM_total {A B} (f : A -> result B) (g : A -> B) (l : list A) :
  (forall a, In a l -> f a = Ok (g a)) -> mapM f l = Ok (map g l).
Proof.
  induction l as [|a l IH]; simpl; intros H; [reflexivity|].
  rewrite (H a) by now left. simpl. rewrite IH by auto. reflexivity.
Qed.

Lemma mapM_Forall2 {A B} (f : A -> result B) (l : list A) (l' : list B) :
  Forall2 (fun a b => f a = Ok b) l l' -> mapM f l = Ok l'.
Proof.
  induction 1 as [|a b l l' Hab _ IH]; simpl; [reflexivity|].
  now rewrite Hab, IH.
Qed.

Lemma mapM_Ok_inv {A B} (f : A -> result B) (l : list A) (l' : list B) :
  mapM f l = Ok l' -> Forall2 (fun a b => f a = Ok b) l l'.
Proof.
  revert l'. induction l as [|a l IH]; simpl; intros l' H.
  - injection H as <-. constructor.
  - destruct (f a) as [b|e] eqn:Ea; simpl in H; [|discriminate].
    destruct (mapM f l) as [bs|e] eqn:El; simpl in H; [|discriminate].
    injection H as <-. constructor; auto.
Qed.

(** A loop that throws does so at one of its elements. *)
Lemma mapM_Throw_inv {A B} (f : A -> result B) (l : list A) (e : exn) :
  mapM f l = Throw e -> exists a, In a l /\ f a = Throw e.
Proof.
  induction l as [|a l IH]; simpl; intros H; [discriminate|].
  destruct (f a) as [b|e'] eqn:Ea; simpl in H.
  - destruct (mapM f l) as [bs|e'] eqn:El; simpl in H; [discriminate|].
    injection H as ->. destruct (IH eq_refl) as (x & Hx & Ex).
    exists x. split; [now right | exact Ex].
  - injection H as ->. exists a. split; [now left | exact Ea].
Qed.

Lemma mapM_outcome {A B} (f : A -> result B) (l : list A) :
  (forall a, In a l -> exists b, f a = Ok b) -> exists bs, mapM f l = Ok bs.
Proof.
  intros H. destruct (mapM f l) as [bs|e] eqn:E; [now exists bs|].
  apply mapM_Throw_inv in E. destruct E as (a & Ha & Ea).
  destruct (H a Ha) as [b Hb]. congruence.
Qed.

(** C5, as amended: [convertToCSV] throws on every value that is not an
    array; what it throws is a plain [Error], no [TypeError], with the
    message that CSV output requires array data.  On the empty array it
    returns the empty string. *)
Theorem convertToCSV_requires_array (data : value) :
  (isArray data = false ->
   convertToCSV P data = Throw (Error (js "CSV output requires array data"))
   /\ forall m, convertToCSV P data <> Throw (TypeError m))
  /\ convertToCSV P (VArray []) = Ok [].
Proof.
  split; [|reflexivity].
  intros H. unfold convertToCSV. rewrite H. simpl.
  split; [reflexivity | discriminate].
Qed.

(** The text of a cell: what the value read converts to when it is
    truthy, and nothing otherwise. *)
Lemma cell_shown (c : option value) (text : jsstring) :
  match c with
  | Some v => if ToBoolean P v then ToString P v = Ok text else text = []
  | None => text = []
  end ->
  cell P c = Ok ([quote] ++ text ++ [quote]).
Proof.
  unfold cell. destruct c as [v|].
  - destruct (ToBoolean P v); [intros -> | intros ->]; reflexivity.
  - now intros ->.
Qed.


(** *** XML output *)

(** C7: the text [convertToXML] returns starts with the XML declaration
    and holds the rendering of the value between the tags of a [root]
    element.  An array is rendered as one [item] element per entry and an
    object as one element per key, named after the key; siblings follow
    one another with a line break in between, and nothing is written for
    an empty array or object.  Anything else is rendered as the string it
    converts to.  The object [{a: ["1", null], b: true}] gives the five
    lines shown. *)
Theorem convertToXML_shape (data : value) :
  convertToXML P data
  = (js "<?xml version=" ++ [quote] ++ js "1.0" ++ [quote]
     ++ js " encoding=" ++ [quote] ++ js "UTF-8" ++ [quote] ++ js "?>")
    ++ [newline] ++ js "<root>" ++ [newline]
    ++ objectToXml P data (js "root")
    ++ [newline] ++ js "</root>"
  /\ (forall rootName,
        objectToXml P (VArray []) rootName = []
        /\ (forall item,
              objectToXml P (VArray [item]) rootName
              = js "<item>" ++ objectToXml P item [] ++ js "</item>")
        /\ (forall item next items,
              objectToXml P (VArray (item :: next :: items)) rootName
              = js "<item>" ++ objectToXml P item [] ++ js "</item>"
                ++ [newline]
                ++ objectToXml P (VArray (next :: items)) rootName))
  /\ (forall rootName,
        objectToXml P (VObject []) rootName = []
        /\ (forall key v,
              objectToXml P (VObject [(key, v)]) rootName
              = js "<" ++ key ++ js ">" ++ objectToXml P v []
                ++ js "</" ++ key ++ js ">")
        /\ (forall key v next props,
              objectToXml P (VObject ((key, v) :: next :: props)) rootName
              = js "<" ++ key ++ js ">" ++ objectToXml P v []
                ++ js "</" ++ key ++ js ">"
                ++ [newline]
                ++ objectToXml P (VObject (next :: props)) rootName))
  /\ (forall rootName,
        objectToXml P VNull rootName = js "null"
        /\ objectToXml P (VBool true) rootName = js "true"
        /\ objectToXml P (VBool false) rootName = js "false"
        /\ (forall n, objectToXml P (VNumber n) rootName
                      = Number_toString P n)
        /\ (forall s, objectToXml P (VString s) rootName = s))
  /\ convertToXML P
       (VObject [(js "a", VArray [VString (js "1"); VNull]);
                 (js "b", VBool true)])
     = js "<?xml version=" ++ [quote] ++ js "1.0" ++ [quote]
       ++ js " encoding=" ++ [quote] ++ js "UTF-8" ++ [quote] ++ js "?>"
       ++ [newline] ++ js "<root>"
       ++ [newline] ++ js "<a><item>1</item>"
       ++ [newline] ++ js "<item>null</item></a>"
       ++ [newline] ++ js "<b>true</b>"
       ++ [newline] ++ js "</root>".
Proof.
  split; [reflexivity|].
  split.
  { intros rootName. split; [reflexivity|]. split.
    - intros item. cbn [objectToXml map join]. reflexivity.
    - intros item next items. cbn [objectToXml map join].
      now rewrite <- !app_assoc. }
  split.
  { intros rootName. split; [reflexivity|]. split.
    - intros key v. cbn [objectToXml map join fst snd]. reflexivity.
    - intros key v next props. cbn [objectToXml map join fst snd].
      now rewrite <- !app_assoc. }
  split; [|reflexivity].
  intros rootName. repeat split.
Qed.

(** *** XML input *)

Lemma xmlToObject_leaf (element : node) :
  children element = [] ->
  xmlToObject P element = VString (textContent element).
Proof.
  destruct element; simpl; try reflexivity.
  intros ->. reflexivity.
Qed.

(** An element with child elements becomes the object that [addChild]
    builds from them, in document order. *)
Lemma xmlToObject_container (element : node) :
  children element <> [] ->
  xmlToObject P element
  = VObject
      (own
         (fold_left
            (fun result child =>
               addChild result (tagNameOf child) (xmlToObject P child))
            (children element) (emptyObject P))).
Proof.
  destruct element as [tagName attributes childNodes| |]; simpl;
    try congruence.
  intros H.
  assert (E : (length (filter isElement childNodes) =? 0) = false)
    by (destruct (filter isElement childNodes); [congruence|reflexivity]).
  rewrite E. do 2 f_equal. clear.
  generalize (emptyObject P) as acc.
  induction childNodes as [|child childNodes IH]; intros acc;
    [reflexivity|].
  destruct child; simpl; apply IH.
Qed.

Lemma xmlToObject_not_array (element : node) :
  isArray (xmlToObject P element) = false.
Proof.
  destruct element as [tagName attributes childNodes| |]; simpl;
    try reflexivity.
  now destruct (length (filter isElement childNodes) =? 0).
Qed.

(** What [xmlToObject] returns is a string or a plain object. *)
Lemma xmlToObject_kind (element : node) :
  (exists s, xmlToObject P element = VString s)
  \/ (exists props, xmlToObject P element = VObject props).
Proof.
  destruct element as [tagName attributes childNodes| |]; simpl;
    try (left; eexists; reflexivity).
  destruct (length (filter isElement childNodes) =? 0);
    [left | right]; eexists; reflexivity.
Qed.

(** The key [__proto__] is no member of [Object.prototype]: it is its
    accessor. *)
Lemma inherited_proto :
  inherited P BObject protoKey = Some (VNative (Prototype BObject)).
Proof. reflexivity. Qed.

Lemma inherited_not_proto (k : jsstring) :
  inherited P BObject k = None -> k <> protoKey.
Proof. intros H ->. discriminate. Qed.

(** A read on an object whose prototype is still [Object.prototype]. *)
Lemma read_own (obj : building P) (k : jsstring) (v : value) :
  obj_get (own obj) k = Some v -> read obj k = Some v.
Proof. unfold read. now intros ->. Qed.

Lemma read_inherited (obj : building P) (k : jsstring) :
  obj_get (own obj) k = None ->
  proto obj = VNative (Prototype BObject) ->
  read obj k = inherited P BObject k.
Proof.
  unfold read. intros -> ->. cbn [inheritsAccessor]. rewrite andb_true_r.
  destruct (jsstring_eqb k protoKey) eqn:E.
  - apply jsstring_eqb_eq in E. now subst k.
  - unfold inherited, property. now rewrite E.
Qed.

Lemma assign_own (obj : building P) (k : jsstring) (v : value) :
  k <> protoKey ->
  assign obj k v = {| own := obj_set (own obj) k v; proto := proto obj |}.
Proof.
  intros H. unfold assign. now rewrite reachesSetter_other.
Qed.

(** A child whose tag is not [__proto__] leaves the prototype alone. *)
Lemma addChild_proto (result : building P) (tagName : jsstring)
  (childData : value) :
  proto result = VNative (Prototype BObject) ->
  tagName <> protoKey ->
  proto (addChild result tagName childData) = VNative (Prototype BObject).
Proof.
  intros Hp Ht. unfold addChild.
  destruct (read result tagName) as [existing|];
    [destruct (ToBoolean P existing); [destruct (isArray existing)|]|];
    try (rewrite assign_own by exact Ht; exact Hp).
  destruct existing; try exact Hp.
  unfold push. apply jsstring_eqb_neq in Ht. rewrite Ht.
  destruct (hasOwn (own result) tagName); simpl; [exact Hp|].
  now rewrite Hp.
Qed.

(** What [addChild] leaves under a tag that [Object.prototype] does not
    know. *)
Lemma addChild_get (result : building P) (tagName : jsstring)
  (childData : value) :
  proto result = VNative (Prototype BObject) ->
  inherited P BObject tagName = None ->
  obj_get (own (addChild result tagName childData)) tagName
  = match obj_get (own result) tagName with
    | Some existing =>
        if ToBoolean P existing then
          match existing with
          | VArray items => Some (VArray (items ++ [childData]))
          | VNative (Prototype BArray) => Some existing
          | _ => Some (VArray [existing; childData])
          end
        else Some childData
    | None => Some childData
    end.
Proof.
  intros Hp Hk. pose proof (inherited_not_proto Hk) as Ht.
  unfold addChild.
  destruct (obj_get (own result) tagName) as [existing|] eqn:E.
  - rewrite (read_own _ _ E).
    destruct (ToBoolean P existing).
    + destruct existing as [| | | |items| |[[]|]]; cbn [isArray];
        try (rewrite assign_own by exact Ht; cbn [own];
             now rewrite obj_get_set, jsstring_eqb_refl).
      * unfold push.
        assert (Ho : hasOwn (own result) tagName = true).
        { destruct (hasOwn (own result) tagName) eqn:Ho; [reflexivity|].
          apply hasOwn_obj_get in Ho. congruence. }
        rewrite Ho. cbn [own].
        now rewrite obj_get_replace, jsstring_eqb_refl.
      * exact E.
    + rewrite assign_own by exact Ht. cbn [own].
      now rewrite obj_get_set, jsstring_eqb_refl.
  - rewrite (read_inherited _ _ E Hp), Hk.
    rewrite assign_own by exact Ht. cbn [own].
    now rewrite obj_get_set, jsstring_eqb_refl.
Qed.

Lemma addChild_get_other (result : building P) (tagName k : jsstring)
  (childData : value) :
  tagName <> k ->
  obj_get (own (addChild result tagName childData)) k
  = obj_get (own result) k.
Proof.
  intros H. pose proof H as Hb. apply jsstring_eqb_neq in Hb.
  unfold addChild.
  assert (Ha : forall v, obj_get (own (assign result tagName v)) k
                         = obj_get (own result) k).
  { intros v. unfold assign.
    destruct (reachesSetter result tagName).
    - now destruct v.
    - cbn [own]. now rewrite obj_get_set, Hb. }
  destruct (read result tagName) as [existing|];
    [destruct (ToBoolean P existing); [destruct (isArray existing)|]|];
    try apply Ha.
  destruct existing; try reflexivity.
  unfold push.
  destruct (hasOwn (own result) tagName) eqn:Ho; cbn [own].
  - now rewrite obj_get_replace, Hb.
  - now destruct (jsstring_eqb tagName protoKey && _).
Qed.

Lemma xmlToObject_repeated_tag :
  xmlToObject P
    (Element (js "root") []
       [Element (js "a") [] [Text (js "1")];
        Element (js "a") [] [Text (js "2")]])
  = VObject [(js "a", VArray [VString (js "1"); VString (js "2")])].
Proof. reflexivity. Qed.

(** The converted values of the nodes named [k]. *)
Local Abbreviation under k nodes :=
  (map (xmlToObject P)
     (filter (fun c => jsstring_eqb (tagNameOf c) k) nodes)).

Lemma addChild_collapses (kids seen : list node) (acc : building P) :
  (forall c, In c (seen ++ kids) -> ToBoolean P (xmlToObject P c) = true) ->
  (forall c, In c kids -> inherited P BObject (tagNameOf c) = None) ->
  proto acc = VNative (Prototype BObject) ->
  (forall k, obj_get (own acc) k = collapsed (under k seen)) ->
  forall k,
    obj_get
      (own
         (fold_left
            (fun result child =>
               addChild result (tagNameOf child) (xmlToObject P child))
            kids acc)) k
    = collapsed (under k (seen ++ kids)).
Proof.
  revert seen acc.
  induction kids as [|c kids IH]; intros seen acc Ht Hin Hp Hacc k.
  - rewrite app_nil_r. apply Hacc.
  - cbn [fold_left].
    replace (seen ++ c :: kids) with ((seen ++ [c]) ++ kids) in *
      by now rewrite <- app_assoc.
    assert (Hc : inherited P BObject (tagNameOf c) = None)
      by (apply Hin; now left).
    apply IH; [exact Ht | intros c' Hc'; apply Hin; now right | |].
    { apply addChild_proto; [exact Hp | now apply inherited_not_proto]. }
    clear IH k. intros k.
    rewrite filter_app, map_app. cbn [filter].
    destruct (jsstring_eqb (tagNameOf c) k) eqn:E.
    + apply jsstring_eqb_eq in E. subst k.
      rewrite (addChild_get _ _ _ Hp Hc), Hacc. cbn [map].
      assert (Hseen : forall v, In v (under (tagNameOf c) seen) ->
                                ToBoolean P v = true
                                /\ ((exists s, v = VString s)
                                    \/ exists props, v = VObject props)).
      { intros v Hv. apply in_map_iff in Hv. destruct Hv as (x & <- & Hx).
        apply filter_In in Hx. destruct Hx as [Hx _].
        split; [|apply xmlToObject_kind].
        apply Ht. apply in_or_app. left. apply in_or_app. now left. }
      destruct (under (tagNameOf c) seen) as [|v [|v' vs]]; cbn [collapsed app].
      * reflexivity.
      * destruct (Hseen v (or_introl eq_refl)) as [-> [[s ->]|[o ->]]];
          reflexivity.
      * reflexivity.
    + rewrite addChild_get_other by (apply jsstring_eqb_neq; exact E).
      cbn [map]. now rewrite app_nil_r.
Qed.

(** Where no child element converts to a falsy value, that is, where no
    leaf among the children has empty text, and no child bears a name
    that [Object.prototype] knows, the object of a container holds under
    each tag name what the specification says: the value of the one child
    of that name, or the array of the values of all of them, in document
    order.  A single child named [constructor] shows what the second
    condition is for: the read finds the inherited function, and the
    child is stored in an array behind it. *)
Lemma xmlToObject_collapses (element : node) :
  (children element <> [] ->
   (forall c, In c (children element) ->
              ToBoolean P (xmlToObject P c) = true) ->
   (forall c, In c (children element) ->
              inherited P BObject (tagNameOf c) = None) ->
   exists props,
     xmlToObject P element = VObject props
     /\ forall k, obj_get props k = collapsed (under k (children element)))
  /\ xmlToObject P
       (Element (js "r") [] [Element (js "constructor") [] [Text (js "x")]])
     = VObject [(js "constructor",
                 VArray [VNative (Member BObject (js "constructor"));
                         VString (js "x")])].
Proof.
  split; [|reflexivity].
  intros Hc Ht Hin. rewrite (xmlToObject_container _ Hc).
  eexists. split; [reflexivity|].
  apply (addChild_collapses (children element) []); auto.
Qed.

(** [parseXML] on a text the parser accepts. *)
Lemma parseXML_document (xmlData : jsstring) :
  getElementsByTagName (js "parsererror")
    (DOMParser_parseFromString P xmlData) = [] ->
  parseXML P xmlData
  = Ok (xmlToObject P (DOMParser_parseFromString P xmlData)).
Proof. unfold parseXML. now intros ->. Qed.

(** A text the parser rejects, and any document with a [parsererror]
    element in it, ends in the one message of the outer [catch]. *)
Lemma parseXML_parsererror (xmlData : jsstring) :
  getElementsByTagName (js "parsererror")
    (DOMParser_parseFromString P xmlData) <> [] ->
  parseXML P xmlData = Throw (Error (js "Failed to parse XML data")).
Proof.
  unfold parseXML. intros H.
  destruct (getElementsByTagName _ _); [congruence|reflexivity].
Qed.

(** C2 at the document [<root><a></a><a>2</a></root>]: the first [a] is a
    leaf with empty text, the empty string is falsy, and the test
    [result[child.tagName]] takes the second [a] for the first of its
    name.  The object holds the single string ["2"] under [a], not the
    array of the two converted values. *)
Theorem xmlToObject_empty_leaf_repeated :
  xmlToObject P
    (Element (js "root") []
       [Element (js "a") [] []; Element (js "a") [] [Text (js "2")]])
  = VObject [(js "a", VString (js "2"))]
  /\ xmlToObject P
       (Element (js "root") []
          [Element (js "a") [] []; Element (js "a") [] [Text (js "2")]])
     <> VObject [(js "a", VArray [VString []; VString (js "2")])].
Proof.
  split; [reflexivity|]. simpl. discriminate.
Qed.

(** *** The orchestrator *)

(** C8: with an input that is empty or white space only, the handler
    changes nothing but the error cell, which receives a message of type
    warning.  The output text stays as it was, and nothing of the platform
    enters the new state: no parser and no serializer has run. *)
Theorem validateAndConvert_blank (s : State) :
  forallb isWhiteSpace (inputData s) = true ->
  validateAndConvert P s
  = {| inputData := inputData s;
       outputData := outputData s;
       inputFormat := inputFormat s;
       outputFormat := outputFormat s;
       error := Some {| message := js "Please enter some data to convert";
                        type := IsWarning |};
       isConverting := isConverting s;
       toasts := toasts s |}
  /\ outputData (validateAndConvert P s) = outputData s
  /\ (forall Q : Platform, validateAndConvert Q s = validateAndConvert P s).
Proof.
  intros H. apply trim_blank in H.
  assert (E : forall Q, validateAndConvert Q s
                        = {| inputData := inputData s;
                             outputData := outputData s;
                             inputFormat := inputFormat s;
                             outputFormat := outputFormat s;
                             error := Some {| message :=
                                                js "Please enter some data to convert";
                                              type := IsWarning |};
                             isConverting := isConverting s;
                             toasts := toasts s |}).
  { intros Q. unfold validateAndConvert. now rewrite H. }
  repeat split.
  - apply E.
  - now rewrite E.
  - intros Q. now rewrite !E.
Qed.

(** From JSON to JSON the output is what [JSON.stringify] makes of what
    [JSON.parse] returned. *)
Lemma validateAndConvert_json_json (s : State) (parsedData : value) :
  forallb isWhiteSpace (inputData s) = false ->
  inputFormat s = json -> outputFormat s = json ->
  JSON_parse P (inputData s) = Ok parsedData ->
  outputData (validateAndConvert P s) = JSON_stringify P parsedData.
Proof.
  intros H Hin Hout Hparse.
  assert (E : (length (trim (inputData s)) =? 0) = false).
  { apply Nat.eqb_neq. intros H0. apply length_zero_iff_nil in H0.
    apply trim_blank in H0. congruence. }
  unfold validateAndConvert, convert. rewrite E, Hin, Hout. simpl.
  now rewrite Hparse.
Qed.

(** C9: with an input that is not blank, a throw in the parser or in the
    serializer ends with the output text empty and one message of type
    error, the message of what was thrown; when neither throws, the
    serialized text becomes the output and the error cell is cleared. *)
Theorem validateAndConvert_outcome (s : State) :
  forallb isWhiteSpace (inputData s) = false ->
  (forall e,
      parseInput P (inputFormat s) (inputData s) = Throw e ->
      outputData (validateAndConvert P s) = []
      /\ error (validateAndConvert P s)
         = Some {| message := messageOf e; type := IsError |})
  /\ (forall parsedData e,
        parseInput P (inputFormat s) (inputData s) = Ok parsedData ->
        serialize P (outputFormat s) parsedData = Throw e ->
        outputData (validateAndConvert P s) = []
        /\ error (validateAndConvert P s)
           = Some {| message := messageOf e; type := IsError |})
  /\ (forall parsedData convertedData,
        parseInput P (inputFormat s) (inputData s) = Ok parsedData ->
        serialize P (outputFormat s) parsedData = Ok convertedData ->
        outputData (validateAndConvert P s) = convertedData
        /\ error (validateAndConvert P s) = None).
Proof.
  intros H.
  assert (E : (length (trim (inputData s)) =? 0) = false).
  { apply Nat.eqb_neq. intros H0. apply length_zero_iff_nil in H0.
    apply trim_blank in H0. congruence. }
  unfold validateAndConvert, convert. rewrite E.
  repeat split; intros; repeat match goal with
    | H : _ = _ |- _ => rewrite H; simpl
    end; reflexivity.
Qed.

End Properties.

(** * Further properties *)

(** ** More on strings *)

Lemma split_without (sep : N) (s : jsstring) :
  ~ In sep s -> split sep s = [s].
Proof.
  induction s as [|c r IH]; simpl; intros H; [reflexivity|].
  destruct (N.eqb_spec c sep) as [->|_]; [tauto|].
  rewrite IH by tauto. reflexivity.
Qed.

Lemma split_app (sep : N) (s t : jsstring) :
  ~ In sep s -> split sep (s ++ sep :: t) = s :: split sep t.
Proof.
  induction s as [|c r IH]; simpl; intros H.
  - now rewrite N.eqb_refl.
  - destruct (N.eqb_spec c sep) as [->|_]; [tauto|].
    rewrite IH by tauto. reflexivity.
Qed.

(** Splitting what was joined gives the pieces back, as long as none of
    them holds the separator. *)
Lemma split_join (sep : N) (l : list jsstring) :
  l <> [] -> Forall (fun x => ~ In sep x) l ->
  split sep (join [sep] l) = l.
Proof.
  induction l as [|x [|y r] IH]; intros Hne H.
  - congruence.
  - inversion H; subst. now apply split_without.
  - inversion H as [|? ? Hx Hr]; subst.
    change (join [sep] (x :: y :: r)) with (x ++ sep :: join [sep] (y :: r)).
    rewrite split_app by exact Hx. f_equal. now apply IH.
Qed.

Lemma join_last (sep : jsstring) (l : list jsstring) (x : jsstring) :
  exists pre, join sep (l ++ [x]) = pre ++ x.
Proof.
  induction l as [|y l (pre & IH)].
  - now exists [].
  - exists (y ++ sep ++ pre).
    change (join sep ((y :: l) ++ [x])) with (join sep (y :: l ++ [x])).
    destruct (l ++ [x]) as [|z zs] eqn:E; [now destruct l|].
    change (join sep (y :: z :: zs)) with (y ++ sep ++ join sep (z :: zs)).
    rewrite IH. now rewrite <- !app_assoc.
Qed.

Lemma join_free (sep bad : N) (l : list jsstring) :
  bad <> sep -> Forall (fun x => ~ In bad x) l -> ~ In bad (join [sep] l).
Proof.
  intros Hsep. induction l as [|x [|y r] IH]; intros H Hin.
  - exact Hin.
  - inversion H; subst. tauto.
  - inversion H as [|? ? Hx Hr]; subst.
    change (join [sep] (x :: y :: r)) with (x ++ sep :: join [sep] (y :: r))
      in Hin.
    apply in_app_or in Hin. destruct Hin as [Hin|[Hin|Hin]];
      [tauto | congruence | now apply IH].
Qed.

Lemma join_first (sep x : jsstring) (l : list jsstring) :
  exists post, join sep (x :: l) = x ++ post.
Proof.
  destruct l as [|y l].
  - exists []. simpl. now rewrite app_nil_r.
  - now exists (sep ++ join sep (y :: l)).
Qed.

Lemma trimStart_id (s : jsstring) : startsClean s -> trimStart s = s.
Proof. destruct s as [|c r]; simpl; [reflexivity|]. now intros ->. Qed.

(** [trim] leaves alone what neither begins nor ends with white space. *)
Lemma trim_id (s : jsstring) :
  startsClean s -> startsClean (rev s) -> trim s = s.
Proof.
  intros H1 H2. unfold trim, trimEnd.
  rewrite (trimStart_id _ H1), (trimStart_id _ H2). apply rev_involutive.
Qed.

Lemma trimmed_startsClean (s : jsstring) :
  trimmed s = true -> startsClean s.
Proof.
  unfold trimmed. intros H. apply jsstring_eqb_eq in H.
  destruct (trim_spec s) as (_ & _ & _ & _ & _ & Hc & _).
  now rewrite H in Hc.
Qed.

Lemma unstructured_spec (s : jsstring) :
  unstructured s = true ->
  ~ In comma s /\ ~ In newline s /\ ~ In quote s.
Proof.
  unfold unstructured. rewrite forallb_forall. intros H.
  repeat split; intros Hin; apply H in Hin; now vm_compute in Hin.
Qed.

Lemma removeQuotes_id (s : jsstring) : ~ In quote s -> removeQuotes s = s.
Proof.
  unfold removeQuotes. induction s as [|c r IH]; simpl; intros H;
    [reflexivity|].
  destruct (N.eqb_spec c quote) as [->|_]; [tauto|].
  simpl. rewrite IH by tauto. reflexivity.
Qed.

(** A cell between its two double quotes, as [convertToCSV] writes it. *)
Local Abbreviation quoted c := ([quote] ++ c ++ [quote]).

(** What was written between double quotes is read back as it was, white
    space at its ends included. *)
Lemma cleanField_quoted (c : jsstring) :
  ~ In quote c -> cleanField (quoted c) = c.
Proof.
  intros H. unfold cleanField. rewrite trim_id.
  - assert (Hq : removeQuotes [quote] = []) by reflexivity.
    unfold removeQuotes in *. rewrite !filter_app, Hq, app_nil_r.
    now apply removeQuotes_id.
  - reflexivity.
  - simpl. rewrite rev_app_distr. reflexivity.
Qed.

Lemma cleanField_id (k : jsstring) :
  trimmed k = true -> ~ In quote k -> cleanField k = k.
Proof.
  unfold cleanField, trimmed. intros H Hq. apply jsstring_eqb_eq in H.
  rewrite H. now apply removeQuotes_id.
Qed.

(** ** Objects with keys in enumeration order *)

Section EnumerationOrder.

Variable number : Type.

Local Abbreviation props := (list (jsstring * value number)).

Lemma obj_insertIndex_last (o : props) (i : N) (k : jsstring)
  (v : value number) :
  forallb (fun k' => match arrayIndex k' with
                     | Some j => N.ltb j i
                     | None => false
                     end) (map fst o) = true ->
  obj_insertIndex o i k v = o ++ [(k, v)].
Proof.
  induction o as [|[k' v'] o IH]; simpl; intros H; [reflexivity|].
  apply andb_prop in H. destruct H as [H1 H2].
  destruct (arrayIndex k') as [j|]; [|discriminate].
  rewrite H1, IH by exact H2. reflexivity.
Qed.

(** A key that may follow the others is put last. *)
Lemma obj_set_last (o : props) (k : jsstring) (v : value number) :
  mayFollow (map fst o) k = true -> obj_set o k v = o ++ [(k, v)].
Proof.
  unfold mayFollow, obj_set. intros H. apply andb_prop in H.
  destruct H as [Hnew Hord]. apply negb_true_iff in Hnew.
  assert (E : hasOwn o k = false).
  { unfold hasOwn. rewrite <- Hnew. clear. induction o as [|p o IH]; simpl;
      [reflexivity | now rewrite IH]. }
  rewrite E. destruct (arrayIndex k); [|reflexivity].
  now apply obj_insertIndex_last.
Qed.

Lemma enumerableFrom_fresh (seen keys : list jsstring) :
  enumerableFrom seen keys = true ->
  NoDup keys /\ forall k, In k keys -> ~ In k seen.
Proof.
  revert seen. induction keys as [|k keys IH]; simpl; intros seen H.
  - split; [constructor | tauto].
  - apply andb_prop in H. destruct H as [Hk H].
    destruct (IH _ H) as [Hnd Hfresh].
    assert (Hks : ~ In k seen).
    { unfold mayFollow in Hk. apply andb_prop in Hk. destruct Hk as [Hk _].
      apply negb_true_iff in Hk. intros Hin.
      assert (existsb (fun k' => jsstring_eqb k' k) seen = true); [|congruence].
      apply existsb_exists. exists k. split; [exact Hin|].
      apply jsstring_eqb_refl. }
    split.
    + constructor; [|exact Hnd]. intros Hin.
      apply (Hfresh k Hin). apply in_or_app. right. now left.
    + intros k' [<-|Hin]; [exact Hks|].
      intros Hs. apply (Hfresh k' Hin). apply in_or_app. now left.
Qed.

(** Reading the keys of an object off in order gives its values in
    order. *)
Lemma obj_get_combine (keys : list jsstring) (vals : list (value number)) :
  NoDup keys -> length vals = length keys ->
  map (obj_get (combine keys vals)) keys = map Some vals.
Proof.
  revert vals. induction keys as [|k keys IH]; intros [|v vals] Hnd Hlen;
    try discriminate; [reflexivity|].
  inversion Hnd as [|? ? Hk Hnd']; subst. simpl.
  rewrite jsstring_eqb_refl. f_equal.
  rewrite <- IH by (auto; simpl in Hlen; lia).
  apply map_ext_in. intros h Hh.
  destruct (jsstring_eqb k h) eqn:E; [|reflexivity].
  apply jsstring_eqb_eq in E. now subst.
Qed.

Lemma map_fst_combine {A B} (l : list A) (l' : list B) :
  length l' = length l -> map fst (combine l l') = l.
Proof.
  revert l'. induction l as [|a l IH]; intros [|b l'] H; try discriminate;
    [reflexivity|].
  simpl. f_equal. apply IH. simpl in H. lia.
Qed.

End EnumerationOrder.

(** ** More on the component *)

Section FurtherProperties.

Variable P : Platform.

Local Abbreviation value := (value (number P)).

(** *** CSV input and output *)

Lemma fillRow_from (keys cells : list jsstring) (acc : building P) :
  length cells = length keys ->
  ~ In protoKey keys ->
  enumerableFrom (map fst (own acc)) keys = true ->
  own (fold_left (fun row hv => assign row (fst hv) (VString (snd hv)))
         (combine keys cells) acc)
  = own acc ++ combine keys (map VString cells).
Proof.
  revert cells acc.
  induction keys as [|k keys IH]; intros [|c cells] acc Hlen Hproto H;
    try discriminate; simpl.
  - now rewrite app_nil_r.
  - simpl in H. apply andb_prop in H. destruct H as [Hk H].
    rewrite assign_own by (intros E; apply Hproto; now left).
    rewrite IH; cbn [own].
    + rewrite obj_set_last by exact Hk. now rewrite <- app_assoc.
    + simpl in Hlen. lia.
    + intros Hin. apply Hproto. now right.
    + rewrite obj_set_last by exact Hk. now rewrite map_app.
Qed.

(** With headers in enumeration order -- distinct, and numeric ones first
    and ascending -- and none of them [__proto__], the object of a row
    lists the columns as they stand. *)
Lemma fillRow_enumerable (keys cells : list jsstring) :
  enumerable keys = true -> ~ In protoKey keys ->
  length cells = length keys ->
  fillRow P keys cells = combine keys (map VString cells).
Proof.
  intros H Hproto Hlen. unfold fillRow. now rewrite fillRow_from.
Qed.

Lemma cell_string (c : jsstring) :
  cell P (Some (VString c)) = Ok (quoted c).
Proof. now destruct c. Qed.

Lemma obj_get_combine_in (keys : list jsstring) (vals : list value)
  (k : jsstring) :
  In k keys -> length vals = length keys ->
  exists v, In v vals /\ obj_get (combine keys vals) k = Some v.
Proof.
  revert vals. induction keys as [|k0 keys IH]; intros [|v vals] Hin Hlen;
    try discriminate; [now destruct Hin|].
  simpl. destruct (jsstring_eqb k0 k) eqn:E.
  - exists v. split; [now left | reflexivity].
  - destruct Hin as [->|Hin]; [now rewrite jsstring_eqb_refl in E|].
    destruct (IH vals Hin) as (v' & Hv' & Hget); [simpl in Hlen; lia|].
    exists v'. split; [now right | exact Hget].
Qed.

(** The line [convertToCSV] writes for a row that has exactly the header's
    keys and strings under them. *)
Lemma csvRow_table (keys cells : list jsstring) :
  NoDup keys -> length cells = length keys ->
  csvRow P keys (VObject (combine keys (map VString cells)))
  = Ok (join [comma] (map (fun c => quoted c) cells)).
Proof.
  intros Hnd Hlen. unfold csvRow.
  rewrite (mapM_total _
             (fun header =>
                match obj_get (combine keys (map VString cells)
                               : list (jsstring * value)) header with
                | Some (VString c) => quoted c
                | _ => []
                end)).
  - cbn [bind]. do 2 f_equal.
    rewrite <- (map_map (obj_get (combine keys (map VString cells)))
                  (fun x : option value => match x with
                            | Some (VString c) => quoted c
                            | _ => []
                            end)).
    rewrite obj_get_combine by (auto; now rewrite length_map).
    rewrite !map_map. reflexivity.
  - intros header Hin.
    destruct (@obj_get_combine_in keys (map VString cells) header Hin)
      as (v & Hv & Hget); [now rewrite length_map|].
    apply in_map_iff in Hv. destruct Hv as (c & <- & _).
    cbn [Get property bind]. rewrite Hget. apply cell_string.
Qed.

Lemma convertToCSV_table (keys : list jsstring)
  (table : list (list jsstring)) :
  NoDup keys -> table <> [] ->
  Forall (fun cells => length cells = length keys) table ->
  convertToCSV P
    (VArray (map (fun cells => VObject (combine keys (map VString cells)))
               table))
  = Ok (join [newline]
          (join [comma] keys
           :: map (fun cells => join [comma] (map (fun c => quoted c) cells))
                table)).
Proof.
  intros Hnd Hne Hall. destruct table as [|first rest]; [congruence|].
  unfold convertToCSV. cbn [map isArray negb Object_keys bind].
  rewrite map_fst_combine
    by (rewrite length_map; now inversion Hall).
  rewrite <- (map_cons (fun cells => VObject (combine keys (map VString cells)))).
  rewrite (mapM_total _
             (fun row => match csvRow P keys row with
                         | Ok line => line
                         | Throw _ => []
                         end)).
  - cbn [bind]. do 3 f_equal. rewrite map_map.
    apply (map_ext_in _
             (fun cells => join [comma] (map (fun c => quoted c) cells))
             (first :: rest)).
    intros cells Hc. rewrite Forall_forall in Hall.
    now rewrite (@csvRow_table keys cells Hnd (Hall _ Hc)).
  - intros a Ha. apply in_map_iff in Ha. destruct Ha as (cells & <- & Hc).
    rewrite Forall_forall in Hall.
    now rewrite (@csvRow_table keys cells Hnd (Hall _ Hc)).
Qed.

(** [parseCSV] has two outcomes: one object per line after the first, or
    the complaint about the length of a row from the second on.  The
    message [CSV data is empty] is never thrown, since [split] returns at
    least one piece. *)
Theorem parseCSV_outcome (csvData : jsstring) :
  ((exists rows,
       parseCSV P csvData = Ok rows
       /\ length rows + 1 = length (linesOf csvData))
   \/ (exists i columns,
          2 <= i <= length (linesOf csvData)
          /\ columns <> length (headersOf csvData)
          /\ parseCSV P csvData
             = Throw (Error (rowLengthMessage i columns
                               (length (headersOf csvData))))))
  /\ parseCSV P csvData <> Throw (Error (js "CSV data is empty")).
Proof.
  assert (H : (exists rows,
                  parseCSV P csvData = Ok rows
                  /\ length rows + 1 = length (linesOf csvData))
              \/ (exists i columns,
                     2 <= i <= length (linesOf csvData)
                     /\ columns <> length (headersOf csvData)
                     /\ parseCSV P csvData
                        = Throw (Error (rowLengthMessage i columns
                                          (length (headersOf csvData)))))).
  { rewrite parseCSV_unfold.
    destruct (linesOf csvData) as [|header data] eqn:E.
    { unfold linesOf in E. now apply split_nonempty in E. }
    simpl tl.
    destruct (first_offending_line (headersOf csvData) data)
      as [Hall|(good & bad & rest & -> & Hg & Hb)].
    - left. eexists. rewrite parseRows_ok by exact Hall. split; [reflexivity|].
      simpl. rewrite length_map. lia.
    - right. exists (length good + 2), (length (valuesOf bad)).
      repeat split.
      + lia.
      + simpl. rewrite length_app. simpl. lia.
      + exact Hb.
      + rewrite parseRows_throw by assumption. do 3 f_equal. lia. }
  split; [exact H|].
  destruct H as [(rows & -> & _)|(i & columns & _ & _ & ->)]; discriminate.
Qed.

(** A text of white space only is no error for [parseCSV]: it is a CSV
    text without data lines and parses to the empty array. *)
Theorem parseCSV_blank (csvData : jsstring) :
  forallb isWhiteSpace csvData = true -> parseCSV P csvData = Ok [].
Proof.
  intros H. apply trim_blank in H. rewrite parseCSV_unfold.
  unfold linesOf. now rewrite H.
Qed.

(** The text [convertToCSV] writes for a table. *)
Local Abbreviation written keys table :=
  (join [newline]
     (join [comma] keys
      :: map (fun cells => join [comma] (map (fun c => quoted c) cells)) table)).

Lemma join_quoted_ends (cells : list jsstring) :
  cells <> [] ->
  exists pre, join [comma] (map (fun c => quoted c) cells) = pre ++ [quote].
Proof.
  intros H. destruct (exists_last H) as (cells' & c & ->).
  destruct (join_last [comma] (map (fun c => quoted c) cells') (quoted c))
    as (pre & E).
  exists (pre ++ [quote] ++ c). rewrite map_app.
  etransitivity; [exact E|]. now rewrite <- !app_assoc.
Qed.

(** With at least one row, and no row without cells, the text ends in a
    double quote. *)
Lemma written_ends (keys : list jsstring) (table : list (list jsstring)) :
  table <> [] -> (forall cells, In cells table -> cells <> []) ->
  exists pre, written keys table = pre ++ [quote].
Proof.
  intros Hne Hcells. destruct (exists_last Hne) as (table' & cells & ->).
  destruct (join_quoted_ends (cells := cells)) as (pre' & E').
  { apply Hcells. apply in_or_app. right. now left. }
  destruct (join_last [newline]
              (join [comma] keys
               :: map (fun cells => join [comma]
                                      (map (fun c => quoted c) cells)) table')
              (join [comma] (map (fun c => quoted c) cells)))
    as (pre & E).
  exists (pre ++ pre'). rewrite map_app.
  etransitivity; [exact E|]. now rewrite E', app_assoc.
Qed.

Lemma written_lines (keys : list jsstring) (table : list (list jsstring)) :
  join [comma] keys <> [] ->
  forallb (fun k => trimmed k && unstructured k) keys = true ->
  table <> [] ->
  forallb (fun cells => (length cells =? length keys)
                        && forallb unstructured cells) table = true ->
  linesOf (written keys table)
  = join [comma] keys
    :: map (fun cells => join [comma] (map (fun c => quoted c) cells)) table.
Proof.
  intros Hhead Hkeys Hne Htable. unfold linesOf.
  rewrite forallb_forall in Hkeys, Htable.
  assert (Hk : keys <> []) by (intros ->; now apply Hhead).
  rewrite trim_id.
  - apply split_join; [discriminate|]. constructor.
    + apply join_free; [discriminate|]. apply Forall_forall. intros k Hin.
      specialize (Hkeys k Hin). apply andb_prop in Hkeys.
      destruct Hkeys as [_ Hu]. now apply unstructured_spec in Hu.
    + apply Forall_forall. intros line Hline. apply in_map_iff in Hline.
      destruct Hline as (cells & <- & Hcells). specialize (Htable _ Hcells).
      apply andb_prop in Htable. destruct Htable as [_ Hu].
      rewrite forallb_forall in Hu.
      apply join_free; [discriminate|]. apply Forall_forall.
      intros q Hq. apply in_map_iff in Hq. destruct Hq as (c & <- & Hc).
      destruct (unstructured_spec _ (Hu c Hc)) as (_ & Hn & _).
      intros Hin. simpl in Hin. destruct Hin as [Hin|Hin]; [discriminate|].
      apply in_app_or in Hin. simpl in Hin.
      destruct Hin as [Hin|[Hin|[]]]; [tauto | discriminate].
  - destruct (join_first [newline] (join [comma] keys)
                (map (fun cells => join [comma] (map (fun c => quoted c) cells))
                   table)) as (post & ->).
    destruct keys as [|k keys]; [congruence|].
    destruct (join_first [comma] k keys) as (post' & E). rewrite E.
    destruct k as [|c k].
    + destruct keys as [|k' keys]; [now simpl in Hhead|].
      simpl in E. rewrite <- E. reflexivity.
    + apply (trimmed_startsClean (c :: k)).
      specialize (Hkeys (c :: k) (or_introl eq_refl)).
      now apply andb_prop in Hkeys.
  - destruct (written_ends keys Hne) as (pre & ->).
    + intros cells Hin ->. specialize (Htable [] Hin).
      apply andb_prop in Htable. destruct Htable as [Hl _].
      apply Nat.eqb_eq in Hl. destruct keys; [congruence | discriminate].
    + now rewrite rev_app_distr.
Qed.

Lemma valuesOf_quoted (cells : list jsstring) :
  cells <> [] -> forallb unstructured cells = true ->
  valuesOf (join [comma] (map (fun c => quoted c) cells)) = cells.
Proof.
  intros Hne Hu. rewrite forallb_forall in Hu. unfold valuesOf.
  rewrite split_join.
  - rewrite map_map. rewrite <- (map_id cells) at 2. apply map_ext_in.
    intros c Hc. apply cleanField_quoted.
    now apply unstructured_spec, Hu.
  - now destruct cells.
  - apply Forall_forall. intros q Hq. apply in_map_iff in Hq.
    destruct Hq as (c & <- & Hc).
    destruct (unstructured_spec _ (Hu c Hc)) as (Hcomma & _ & _).
    intros Hin. simpl in Hin. destruct Hin as [Hin|Hin]; [discriminate|].
    apply in_app_or in Hin. simpl in Hin.
    destruct Hin as [Hin|[Hin|[]]]; [tauto | discriminate].
Qed.

Lemma headersOf_written (keys : list jsstring)
  (table : list (list jsstring)) :
  join [comma] keys <> [] ->
  forallb (fun k => trimmed k && unstructured k) keys = true ->
  table <> [] ->
  forallb (fun cells => (length cells =? length keys)
                        && forallb unstructured cells) table = true ->
  headersOf (written keys table) = keys.
Proof.
  intros Hhead Hkeys Hne Htable. unfold headersOf.
  rewrite written_lines by assumption. simpl nth.
  rewrite forallb_forall in Hkeys.
  rewrite split_join.
  - rewrite <- (map_id keys) at 2. apply map_ext_in. intros k Hk.
    specialize (Hkeys k Hk). apply andb_prop in Hkeys.
    destruct Hkeys as [Ht Hu]. apply (cleanField_id _ Ht).
    now apply unstructured_spec in Hu.
  - intros ->. now apply Hhead.
  - apply Forall_forall. intros k Hk. specialize (Hkeys k Hk).
    apply andb_prop in Hkeys. destruct Hkeys as [_ Hu].
    now apply unstructured_spec in Hu.
Qed.

(** CSV output followed by CSV input is the identity on tables: an array
    of objects that all have the same keys, in an order [Object.keys] can
    report, none of them [__proto__], the keys trimmed and not all of
    them empty, with strings under them, and no comma, line break or
    double quote in any key or cell.  White space at the ends of a cell
    survives, because the cell travels between double quotes. *)
Theorem csv_round_trip (keys : list jsstring) (table : list (list jsstring)) :
  enumerable keys = true ->
  ~ In (js "__proto__") keys ->
  join [comma] keys <> [] ->
  forallb (fun k => trimmed k && unstructured k) keys = true ->
  forallb (fun cells => (length cells =? length keys)
                        && forallb unstructured cells) table = true ->
  exists text,
    convertToCSV P
      (VArray (map (fun cells => VObject (combine keys (map VString cells)))
                 table)) = Ok text
    /\ parseCSV P text
       = Ok (map (fun cells => VObject (combine keys (map VString cells)))
               table).
Proof.
  intros Henum Hproto Hhead Hkeys Htable.
  destruct table as [|first rest].
  { exists []. split; reflexivity. }
  assert (Hne : first :: rest <> []) by discriminate.
  remember (first :: rest) as table eqn:Etable. clear Etable.
  assert (Hlen : Forall (fun cells => length cells = length keys) table).
  { apply Forall_forall. intros cells Hc.
    rewrite forallb_forall in Htable. specialize (Htable _ Hc).
    apply andb_prop in Htable. now apply Nat.eqb_eq. }
  exists (written keys table). split.
  - apply convertToCSV_table; auto.
    now apply (enumerableFrom_fresh [] keys).
  - rewrite parseCSV_unfold, headersOf_written, written_lines by assumption.
    cbn [tl]. rewrite parseRows_ok.
    + cbn [app]. f_equal. rewrite map_map. apply map_ext_in.
      intros cells Hc. rewrite Forall_forall in Hlen.
      rewrite forallb_forall in Htable. specialize (Htable _ Hc).
      apply andb_prop in Htable. destruct Htable as [Hl Hu].
      rewrite valuesOf_quoted.
      * f_equal. apply fillRow_enumerable; auto.
      * intros ->. apply Nat.eqb_eq in Hl.
        destruct keys; [now apply Hhead | discriminate].
      * exact Hu.
    + apply Forall_forall. intros line Hline. apply in_map_iff in Hline.
      destruct Hline as (cells & <- & Hc).
      rewrite forallb_forall in Htable. specialize (Htable _ Hc).
      apply andb_prop in Htable. destruct Htable as [Hl Hu].
      rewrite valuesOf_quoted.
      * now apply Nat.eqb_eq.
      * intros ->. apply Nat.eqb_eq in Hl.
        destruct keys; [now apply Hhead | discriminate].
      * exact Hu.
Qed.

Lemma nonblank_guard (text : jsstring) :
  forallb isWhiteSpace text = false -> (length (trim text) =? 0) = false.
Proof.
  intros H. apply Nat.eqb_neq. intros H0. apply length_zero_iff_nil in H0.
  apply trim_blank in H0. congruence.
Qed.

Lemma data_lines_nonblank (text : jsstring) :
  tl (linesOf text) <> [] -> forallb isWhiteSpace text = false.
Proof.
  intros H. destruct (forallb isWhiteSpace text) eqn:E; [|reflexivity].
  apply trim_blank in E. unfold linesOf in H. rewrite E in H. now elim H.
Qed.

Lemma parseCSV_table (csvData : jsstring) :
  enumerable (headersOf csvData) = true ->
  ~ In protoKey (headersOf csvData) ->
  Forall (fun line => length (valuesOf line) = length (headersOf csvData))
    (tl (linesOf csvData)) ->
  parseCSV P csvData
  = Ok (map (fun cells =>
               VObject (combine (headersOf csvData) (map VString cells)))
          (map valuesOf (tl (linesOf csvData)))).
Proof.
  intros Henum Hproto Hall.
  rewrite parseCSV_unfold, parseRows_ok by exact Hall.
  cbn [app]. f_equal. rewrite map_map. apply map_ext_in. intros line Hline.
  rewrite Forall_forall in Hall. f_equal.
  apply fillRow_enumerable; auto.
Qed.

(** From CSV to CSV the component rewrites the text in its own hand: the
    header line with the cleaned headers, and under it every data line
    with its cleaned cells, each between double quotes.  This needs at
    least one data line, all data lines of the header's length, and
    headers in enumeration order, none of them [__proto__]. *)
Theorem csv_to_csv (s : State) :
  inputFormat s = csv -> outputFormat s = csv ->
  enumerable (headersOf (inputData s)) = true ->
  ~ In (js "__proto__") (headersOf (inputData s)) ->
  tl (linesOf (inputData s)) <> [] ->
  Forall (fun line => length (valuesOf line)
                      = length (headersOf (inputData s)))
    (tl (linesOf (inputData s))) ->
  outputData (validateAndConvert P s)
  = join [newline]
      (join [comma] (headersOf (inputData s))
       :: map (fun line => join [comma] (map (fun c => quoted c) (valuesOf line)))
            (tl (linesOf (inputData s))))
  /\ error (validateAndConvert P s) = None.
Proof.
  intros Hin Hout Henum Hproto Hne Hall.
  unfold validateAndConvert, convert.
  rewrite (nonblank_guard _ (data_lines_nonblank _ Hne)), Hin, Hout.
  cbn [parseInput serialize]. rewrite parseCSV_table by assumption.
  cbn [bind]. rewrite convertToCSV_table.
  - rewrite map_map. split; reflexivity.
  - now apply (enumerableFrom_fresh [] (headersOf (inputData s))).
  - intros E. apply map_eq_nil in E. contradiction.
  - apply Forall_forall. intros cells Hc. apply in_map_iff in Hc.
    destruct Hc as (line & <- & Hline).
    rewrite Forall_forall in Hall. now apply Hall.
Qed.

(** A CSV text that has a header line and nothing under it converts to
    CSV without an error, yet the output is empty: the header is lost, the
    success toast is shown, and the download that follows is refused. *)
Theorem csv_header_only (s : State) :
  inputFormat s = csv -> outputFormat s = csv ->
  forallb isWhiteSpace (inputData s) = false ->
  tl (linesOf (inputData s)) = [] ->
  outputData (validateAndConvert P s) = []
  /\ error (validateAndConvert P s) = None
  /\ toasts (validateAndConvert P s) = toasts s ++ [successToast s]
  /\ fst (handleDownload (validateAndConvert P s)) = None.
Proof.
  intros Hin Hout Hnb Hno.
  assert (E : validateAndConvert P s
              = {| inputData := inputData s;
                   outputData := [];
                   inputFormat := inputFormat s;
                   outputFormat := outputFormat s;
                   error := None;
                   isConverting := false;
                   toasts := toasts s ++ [successToast s] |}).
  { unfold validateAndConvert, convert.
    rewrite (nonblank_guard _ Hnb), Hin, Hout.
    cbn [parseInput serialize]. rewrite parseCSV_unfold, Hno. reflexivity. }
  rewrite E. repeat split.
Qed.

Lemma combine_map_r {A B C} (f : B -> C) (l : list A) (l' : list B) :
  combine l (map f l') = map (fun p => (fst p, f (snd p))) (combine l l').
Proof.
  revert l'. induction l as [|a l IH]; intros [|b l']; simpl;
    try reflexivity.
  now rewrite IH.
Qed.

Lemma objectToXml_row (keys cells : list jsstring) :
  objectToXml P (VObject (combine keys (map VString cells))) []
  = join [newline]
      (map (fun hc => js "<" ++ fst hc ++ js ">" ++ snd hc
                      ++ js "</" ++ fst hc ++ js ">")
         (combine keys cells)).
Proof.
  rewrite combine_map_r.
  transitivity
    (join [newline]
       (map (fun kv => js "<" ++ fst kv ++ js ">"
                       ++ objectToXml P (snd kv) []
                       ++ js "</" ++ fst kv ++ js ">")
          (map (fun p : jsstring * jsstring => (fst p, VString (snd p)))
             (combine keys cells)))); [reflexivity|].
  now rewrite map_map.
Qed.

Lemma objectToXml_table (keys : list jsstring)
  (table : list (list jsstring)) (rootName : jsstring) :
  objectToXml P
    (VArray (map (fun cells => VObject (combine keys (map VString cells)))
               table)) rootName
  = join [newline]
      (map (fun cells =>
              js "<item>"
              ++ join [newline]
                   (map (fun hc => js "<" ++ fst hc ++ js ">" ++ snd hc
                                   ++ js "</" ++ fst hc ++ js ">")
                      (combine keys cells))
              ++ js "</item>") table).
Proof.
  transitivity
    (join [newline]
       (map (fun item => js "<item>" ++ objectToXml P item [] ++ js "</item>")
          (map (fun cells => VObject (combine keys (map VString cells)))
             table))); [reflexivity|].
  rewrite map_map. f_equal. apply map_ext. intros cells.
  now rewrite objectToXml_row.
Qed.

(** From CSV to XML every data line becomes an [item] element with one
    child per column, named after the cleaned header and holding the
    cleaned cell as it is, nothing escaped.  The headers are to be in
    enumeration order, none of them [__proto__]. *)
Theorem csv_to_xml (s : State) :
  inputFormat s = csv -> outputFormat s = xml ->
  forallb isWhiteSpace (inputData s) = false ->
  enumerable (headersOf (inputData s)) = true ->
  ~ In (js "__proto__") (headersOf (inputData s)) ->
  Forall (fun line => length (valuesOf line)
                      = length (headersOf (inputData s)))
    (tl (linesOf (inputData s))) ->
  outputData (validateAndConvert P s)
  = xmlDeclaration ++ [newline] ++ js "<root>" ++ [newline]
    ++ join [newline]
         (map (fun line =>
                 js "<item>"
                 ++ join [newline]
                      (map (fun hc => js "<" ++ fst hc ++ js ">" ++ snd hc
                                      ++ js "</" ++ fst hc ++ js ">")
                         (combine (headersOf (inputData s)) (valuesOf line)))
                 ++ js "</item>")
            (tl (linesOf (inputData s))))
    ++ [newline] ++ js "</root>".
Proof.
  intros Hin Hout Hnb Henum Hproto Hall.
  unfold validateAndConvert, convert.
  rewrite (nonblank_guard _ Hnb), Hin, Hout.
  cbn [parseInput serialize]. rewrite parseCSV_table by assumption.
  cbn [bind outputData]. unfold convertToXML.
  now rewrite objectToXml_table, map_map.
Qed.

(** *** Where the CSV serializer fails *)

(** Induction on a value, with the hypothesis for every value inside. *)
Lemma value_nested_ind (Q : value -> Prop) :
  Q VNull ->
  (forall b, Q (VBool b)) ->
  (forall n, Q (VNumber n)) ->
  (forall s, Q (VString s)) ->
  (forall items, Forall Q items -> Q (VArray items)) ->
  (forall props, Forall (fun kv => Q (snd kv)) props -> Q (VObject props)) ->
  (forall n, Q (VNative n)) ->
  forall v, Q v.
Proof.
  intros HN HB HNum HS HA HO HNat.
  refine (fix IH (v : value) : Q v :=
            match v with
            | VNull => HN
            | VBool b => HB b
            | VNumber n => HNum n
            | VString s => HS s
            | VArray items =>
                HA items
                  ((fix go (l : list value) : Forall Q l :=
                      match l with
                      | [] => Forall_nil Q
                      | x :: r => Forall_cons x (IH x) (go r)
                      end) items)
            | VObject props =>
                HO props
                  ((fix go (l : list (jsstring * value))
                      : Forall (fun kv => Q (snd kv)) l :=
                      match l with
                      | [] => Forall_nil _
                      | x :: r => Forall_cons x (IH (snd x)) (go r)
                      end) props)
            | VNative n => HNat n
            end).
Qed.

(** The conversion to a string throws exactly on the values that are not
    printable, and what it throws is the engine's [TypeError]. *)
Lemma ToString_outcome (v : value) :
  if printable v then exists s, ToString P v = Ok s
  else ToString P v = Throw (TypeError (toPrimitiveMessage P)).
Proof.
  induction v as [| | | |items IH|props _|n] using value_nested_ind;
    cbn [printable ToString]; try (eexists; reflexivity).
  - induction IH as [|item items Hitem _ IHitems]; cbn [forallb mapM bind].
    + eexists. reflexivity.
    + destruct (printable item) eqn:Ep; cbn [andb].
      * destruct Hitem as (s & Hs).
        assert (Hf : exists s', match item with
                               | VNull => Ok []
                               | _ => ToString P item
                               end = Ok s')
          by (destruct item; eauto).
        destruct Hf as (s' & ->). cbn [bind].
        destruct (forallb printable items).
        -- destruct IHitems as (t & Ht).
           destruct (mapM _ items) as [parts|e]; [|discriminate].
           cbn [bind]. eexists. reflexivity.
        -- destruct (mapM _ items) as [parts|e]; [discriminate|].
           cbn [bind] in *. exact IHitems.
      * assert (Hf : match item with
                     | VNull => Ok []
                     | _ => ToString P item
                     end = Throw (TypeError (toPrimitiveMessage P)))
          by (destruct item; try discriminate; exact Hitem).
        now rewrite Hf.
  - destruct (hasOwn props (js "toString")); cbn [negb];
      [reflexivity | eexists; reflexivity].
  - destruct n as [[]|]; eexists; reflexivity.
Qed.

Lemma ToString_printable (v : value) :
  printable v = true -> exists s, ToString P v = Ok s.
Proof. intros H. pose proof (ToString_outcome v) as Ho. now rewrite H in Ho. Qed.

Lemma ToString_Throw (v : value) (e : exn) :
  ToString P v = Throw e ->
  printable v = false /\ e = TypeError (toPrimitiveMessage P).
Proof.
  intros H. pose proof (ToString_outcome v) as Ho.
  destruct (printable v).
  - destruct Ho as (s & Hs). congruence.
  - split; [reflexivity | congruence].
Qed.

(** A cell throws when what was read is truthy and not printable. *)
Lemma cell_Throw (c : option value) (e : exn) :
  cell P c = Throw e ->
  exists v, c = Some v /\ ToBoolean P v = true /\ printable v = false
            /\ e = TypeError (toPrimitiveMessage P).
Proof.
  unfold cell. destruct c as [v|]; [|discriminate].
  destruct (ToBoolean P v) eqn:Et; [|discriminate].
  destruct (ToString P v) as [s|e'] eqn:Es; cbn [bind]; [discriminate|].
  intros [= ->]. apply ToString_Throw in Es. destruct Es as [Hp ->].
  now exists v.
Qed.

Lemma cell_Ok (c : option value) :
  match c with
  | Some v => ToBoolean P v = true -> printable v = true
  | None => True
  end ->
  exists text, cell P c = Ok text.
Proof.
  unfold cell. destruct c as [v|]; [|eexists; reflexivity].
  destruct (ToBoolean P v); [|eexists; reflexivity].
  intros H. destruct (ToString_printable _ (H eq_refl)) as (s & ->).
  eexists. reflexivity.
Qed.

(** A row throws when it is [null], at the read, or when one of its cells
    does. *)
Lemma csvRow_Throw (headers : list jsstring) (row : value) (e : exn) :
  csvRow P headers row = Throw e ->
  (row = VNull /\ exists k, e = TypeError (nullReadMessage P k))
  \/ (exists h v, property P row h = Some v /\ ToBoolean P v = true
                  /\ printable v = false
                  /\ e = TypeError (toPrimitiveMessage P)).
Proof.
  unfold csvRow.
  destruct (mapM _ headers) as [cells|e'] eqn:Em; cbn [bind]; [discriminate|].
  intros [= ->]. apply mapM_Throw_inv in Em. destruct Em as (h & _ & Eh).
  destruct row; cbn [Get bind] in Eh;
    try (right; apply cell_Throw in Eh;
         destruct Eh as (v & Ev & Ht & Hp & ->); exists h, v; now auto).
  left. injection Eh as <-. split; [reflexivity | now exists h].
Qed.

Lemma csvRow_Ok (headers : list jsstring) (row : value) :
  row <> VNull ->
  (forall h v, property P row h = Some v -> ToBoolean P v = true ->
               printable v = true) ->
  exists line, csvRow P headers row = Ok line.
Proof.
  intros Hn Hp. unfold csvRow.
  destruct (mapM_outcome (fun header => c <- Get P row header ;; cell P c)
              headers) as (cells & ->).
  - intros h _.
    assert (E : Get P row h = Ok (property P row h))
      by (destruct row; try reflexivity; congruence).
    rewrite E. cbn [bind]. apply cell_Ok.
    destruct (property P row h) as [v|] eqn:Ev; [|exact I].
    intros Ht. exact (Hp h v Ev Ht).
  - cbn [bind]. eexists. reflexivity.
Qed.

Lemma convertToCSV_array_Throw (items : list value) (e : exn) :
  convertToCSV P (VArray items) = Throw e ->
  (In VNull items
   /\ (e = TypeError (nullKeysMessage P)
       \/ exists k, e = TypeError (nullReadMessage P k)))
  \/ ((exists row h v,
         In row items /\ property P row h = Some v
         /\ ToBoolean P v = true /\ printable v = false)
      /\ e = TypeError (toPrimitiveMessage P)).
Proof.
  destruct items as [|first rest]; [discriminate|].
  unfold convertToCSV. cbn [isArray negb]. intros H.
  destruct (Object_keys P first) as [headers|e'] eqn:Ek; cbn [bind] in H.
  - destruct (mapM (csvRow P headers) (first :: rest)) as [rows|e'] eqn:Em;
      cbn [bind] in H; [discriminate|].
    injection H as ->. apply mapM_Throw_inv in Em.
    destruct Em as (row & Hrow & Hthrow).
    apply csvRow_Throw in Hthrow.
    destruct Hthrow as [(-> & k & ->)|(h & v & Hv & Ht & Hp & ->)].
    + left. split; [exact Hrow|]. right. now exists k.
    + right. split; [|reflexivity]. now exists row, h, v.
  - injection H as ->. destruct first; try discriminate.
    simpl in Ek. injection Ek as <-. left. split; [now left | now left].
Qed.

Lemma convertToCSV_array_Ok (items : list value) :
  ~ In VNull items ->
  (forall row h v, In row items -> property P row h = Some v ->
                   ToBoolean P v = true -> printable v = true) ->
  exists text, convertToCSV P (VArray items) = Ok text.
Proof.
  destruct items as [|first rest]; [now exists []|].
  unfold convertToCSV. cbn [isArray negb]. intros Hnull Hp.
  assert (Hk : exists headers, Object_keys P first = Ok headers).
  { destruct first; simpl; eauto. elim Hnull. now left. }
  destruct Hk as (headers & ->). cbn [bind].
  destruct (mapM_outcome (csvRow P headers) (first :: rest)) as (rows & ->).
  - intros row Hrow. apply csvRow_Ok.
    + intros ->. contradiction.
    + intros h v. now apply Hp.
  - cbn [bind]. eexists. reflexivity.
Qed.


(** What a plain object inherits is a built-in object, which converts. *)
Lemma inherited_printable (b : builtin) (k : jsstring) (v : value) :
  inherited P b k = Some v -> printable v = true.
Proof.
  unfold inherited.
  destruct (match b with BObject => false | _ => isMember (members P b) k end);
    [now intros [= <-]|].
  destruct (isMember objectPrototypeNames k); [now intros [= <-]|].
  destruct (jsstring_eqb k protoKey); [now intros [= <-] | discriminate].
Qed.

(** The rows of [parseCSV] are always written. *)
Lemma convertToCSV_array_lines (lines : list jsstring)
  (headers : list jsstring) (e : exn) :
  convertToCSV P
    (VArray (map (fun line => VObject (fillRow P headers (valuesOf line)))
               lines))
  = Throw e -> False.
Proof.
  intros H.
  destruct (@convertToCSV_array_Ok
              (map (fun line => VObject (fillRow P headers (valuesOf line)))
                 lines)) as (text & Ht).
  - intros Hin. apply in_map_iff in Hin. destruct Hin as (l & Hl & _).
    discriminate.
  - intros row h v Hrow Hv _. apply in_map_iff in Hrow.
    destruct Hrow as (l & <- & _). cbn [property] in Hv.
    destruct (obj_get (fillRow P headers (valuesOf l)) h) as [x|] eqn:Ex.
    + injection Hv as <-. apply (fillRow_origin P) in Ex.
      destruct Ex as (j & c & _ & _ & ->). reflexivity.
    + now apply inherited_printable in Hv.
  - congruence.
Qed.

(** With CSV as the input format the one thing that can go wrong is a
    data line of the wrong length: whatever the output format, the
    conversion ends without an error exactly when every data line has as
    many fields as the header. *)
Theorem csv_input_fails_iff (s : State) :
  inputFormat s = csv ->
  forallb isWhiteSpace (inputData s) = false ->
  (error (validateAndConvert P s) = None
   <-> Forall (fun line => length (valuesOf line)
                           = length (headersOf (inputData s)))
         (tl (linesOf (inputData s)))).
Proof.
  intros Hin Hnb. unfold validateAndConvert, convert.
  rewrite (nonblank_guard _ Hnb), Hin. cbn [parseInput].
  rewrite parseCSV_unfold.
  destruct (first_offending_line (headersOf (inputData s))
              (tl (linesOf (inputData s))))
    as [Hall|(good & bad & rest & E & Hg & Hb)].
  - rewrite parseRows_ok by exact Hall. cbn [bind app].
    split; [intros _; exact Hall | intros _].
    destruct (outputFormat s); cbn [serialize]; try reflexivity.
    destruct (convertToCSV P _) as [text|e] eqn:Ec; [reflexivity|].
    exfalso. apply convertToCSV_array_lines in Ec. exact Ec.
  - rewrite E, parseRows_throw by assumption. cbn [bind error].
    split; [discriminate|]. intros Hall. exfalso.
    rewrite Forall_forall in Hall. apply Hb, Hall.
    apply in_or_app. right. now left.
Qed.

(** *** XML input *)

(** Induction on a tree, with the hypothesis for every child node. *)
Lemma node_nested_ind (Q : node -> Prop) :
  (forall tagName attributes childNodes,
      Forall Q childNodes -> Q (Element tagName attributes childNodes)) ->
  (forall data, Q (Text data)) ->
  (forall data, Q (Comment data)) ->
  forall n, Q n.
Proof.
  intros HE HT HC.
  refine (fix IH (n : node) : Q n :=
            match n with
            | Element tagName attributes childNodes =>
                HE tagName attributes childNodes
                  ((fix go (l : list node) : Forall Q l :=
                      match l with
                      | [] => Forall_nil Q
                      | x :: r => Forall_cons x (IH x) (go r)
                      end) childNodes)
            | Text data => HT data
            | Comment data => HC data
            end).
Qed.

Lemma textContent_stripAttributes (n : node) :
  textContent (stripAttributes n) = textContent n.
Proof.
  induction n as [tagName attributes childNodes IH| |] using node_nested_ind;
    try reflexivity.
  simpl. f_equal. rewrite map_map.
  induction IH as [|c childNodes Hc _ IHl]; simpl; [reflexivity|].
  rewrite IHl. f_equal. destruct c; try reflexivity. exact Hc.
Qed.

Lemma children_stripAttributes (childNodes : list node) :
  length (filter isElement (map stripAttributes childNodes))
  = length (filter isElement childNodes).
Proof.
  induction childNodes as [|c childNodes IH]; simpl; [reflexivity|].
  destruct c; simpl; auto.
Qed.

(** Attributes are ignored: [xmlToObject] returns the same value for a
    tree and for the tree without its attributes, so two documents that
    differ in attributes only are converted alike. *)
Theorem xmlToObject_ignores_attributes (element : node) :
  xmlToObject P (stripAttributes element) = xmlToObject P element.
Proof.
  induction element as [tagName attributes childNodes IH| |]
    using node_nested_ind; try reflexivity.
  pose proof (textContent_stripAttributes
                (Element tagName attributes childNodes)) as Ht.
  simpl in *. rewrite children_stripAttributes, Ht. clear Ht.
  destruct (length (filter isElement childNodes) =? 0); [reflexivity|].
  do 2 f_equal. generalize (emptyObject P) as acc.
  induction IH as [|c childNodes Hc _ IHl]; intros acc; simpl;
    [reflexivity|].
  rewrite IHl. f_equal. destruct c; try reflexivity.
  simpl in *. now rewrite Hc.
Qed.

(** A child whose tag is not [__proto__] finds its tag among the keys
    afterwards. *)
Lemma addChild_has (result : building P) (tagName : jsstring)
  (childData : value) :
  proto result = VNative (Prototype BObject) ->
  tagName <> protoKey ->
  obj_get (own (addChild result tagName childData)) tagName <> None.
Proof.
  intros Hp Ht. unfold addChild.
  assert (Ha : forall v, obj_get (own (assign result tagName v)) tagName
                         <> None).
  { intros v. rewrite assign_own by exact Ht. cbn [own].
    now rewrite obj_get_set, jsstring_eqb_refl. }
  destruct (obj_get (own result) tagName) as [x|] eqn:E.
  - rewrite (read_own _ _ E).
    destruct (ToBoolean P x); [destruct (isArray x)|]; try apply Ha.
    destruct x; try congruence.
    unfold push.
    assert (Ho : hasOwn (own result) tagName = true).
    { destruct (hasOwn (own result) tagName) eqn:Ho; [reflexivity|].
      apply hasOwn_obj_get in Ho. congruence. }
    rewrite Ho. cbn [own]. now rewrite obj_get_replace, jsstring_eqb_refl.
  - rewrite (read_inherited _ _ E Hp). unfold inherited.
    apply jsstring_eqb_neq in Ht. rewrite Ht.
    destruct (isMember objectPrototypeNames tagName); apply Ha.
Qed.

Lemma addChild_keys (kids : list node) (acc : building P) (k : jsstring) :
  proto acc = VNative (Prototype BObject) ->
  (forall child, In child kids -> tagNameOf child <> protoKey) ->
  obj_get
    (own
       (fold_left
          (fun result child =>
             addChild result (tagNameOf child) (xmlToObject P child))
          kids acc)) k <> None
  <-> obj_get (own acc) k <> None
      \/ exists child, In child kids /\ tagNameOf child = k.
Proof.
  revert acc. induction kids as [|c kids IH]; intros acc Hp Hk; simpl.
  - split; [now left | intros [H|(child & [] & _)]; exact H].
  - assert (Hc : tagNameOf c <> protoKey) by (apply Hk; now left).
    rewrite IH;
      [|now apply addChild_proto | intros child Hin; apply Hk; now right].
    split.
    + intros [H|(child & Hin & Ht)].
      * destruct (list_eq_dec N.eq_dec (tagNameOf c) k) as [E|E].
        -- right. exists c. split; [now left | exact E].
        -- left. now rewrite addChild_get_other in H.
      * right. exists child. split; [now right | exact Ht].
    + intros [H|(child & [<-|Hin] & Ht)].
      * left. destruct (list_eq_dec N.eq_dec (tagNameOf c) k) as [<-|E].
        -- now apply addChild_has.
        -- now rewrite addChild_get_other.
      * left. subst k. now apply addChild_has.
      * right. now exists child.
Qed.

(** The object built for a container without a child named [__proto__]
    has exactly the tag names of its child elements as keys, empty leaves
    included.  A child named [__proto__] leaves no key: the assignment
    replaces the prototype of the object instead. *)
Theorem xmlToObject_keys (element : node) :
  (children element <> [] ->
   (forall child, In child (children element) ->
                  tagNameOf child <> js "__proto__") ->
   exists props,
     xmlToObject P element = VObject props
     /\ forall k, obj_get props k <> None
                  <-> exists child, In child (children element)
                                    /\ tagNameOf child = k)
  /\ xmlToObject P
       (Element (js "r") [] [Element (js "__proto__") [] [Text (js "x")]])
     = VObject [].
Proof.
  split; [|reflexivity].
  intros H Hk. rewrite (xmlToObject_container P _ H).
  eexists. split; [reflexivity|]. intros k.
  rewrite addChild_keys; [|reflexivity | exact Hk].
  split; [intros [Hn|Hn]; [now elim Hn | exact Hn] | now right].
Qed.

(** [parseXML] returns the converted document when it holds no element
    named [parsererror], and throws [Failed to parse XML data] when it
    holds one, wherever that element stands.  The message [Invalid XML
    format] of the inner [throw] never leaves the function. *)
Theorem parseXML_outcome (xmlData : jsstring) :
  (getElementsByTagName (js "parsererror")
     (DOMParser_parseFromString P xmlData) = [] ->
   parseXML P xmlData
   = Ok (xmlToObject P (DOMParser_parseFromString P xmlData)))
  /\ (getElementsByTagName (js "parsererror")
        (DOMParser_parseFromString P xmlData) <> [] ->
      parseXML P xmlData = Throw (Error (js "Failed to parse XML data")))
  /\ parseXML P xmlData <> Throw (Error (js "Invalid XML format")).
Proof.
  split; [apply parseXML_document|]. split; [apply parseXML_parsererror|].
  destruct (getElementsByTagName (js "parsererror")
              (DOMParser_parseFromString P xmlData)) eqn:E.
  - now rewrite (parseXML_document P _ E).
  - rewrite parseXML_parsererror by congruence. discriminate.
Qed.

(** From XML to CSV the conversion cannot succeed: [xmlToObject] returns a
    string or an object, never an array, and [convertToCSV] accepts
    arrays only.  Whatever the document, the output is empty and the
    message is one of two. *)
Theorem xml_to_csv_always_fails (s : State) :
  inputFormat s = xml -> outputFormat s = csv ->
  forallb isWhiteSpace (inputData s) = false ->
  outputData (validateAndConvert P s) = []
  /\ (error (validateAndConvert P s)
      = Some {| message := js "Failed to parse XML data"; type := IsError |}
      \/ error (validateAndConvert P s)
         = Some {| message := js "CSV output requires array data";
                   type := IsError |}).
Proof.
  intros Hin Hout Hnb. unfold validateAndConvert, convert.
  rewrite (nonblank_guard _ Hnb), Hin, Hout. cbn [parseInput].
  unfold parseXML.
  destruct (0 <? length (getElementsByTagName (js "parsererror")
                           (DOMParser_parseFromString P (inputData s)))).
  - split; [reflexivity | now left].
  - cbn [rethrow bind serialize]. unfold convertToCSV.
    rewrite (xmlToObject_not_array P).
    split; [reflexivity | now right].
Qed.

(** *** The orchestrator *)

(** A conversion never touches the input text or the two selected formats,
    and it shows the success toast exactly when it leaves no error
    behind: either one toast is added and the error cell is empty, or no
    toast is added and the error cell is filled. *)
Theorem validateAndConvert_frame (s : State) :
  inputData (validateAndConvert P s) = inputData s
  /\ inputFormat (validateAndConvert P s) = inputFormat s
  /\ outputFormat (validateAndConvert P s) = outputFormat s
  /\ ((toasts (validateAndConvert P s) = toasts s ++ [successToast s]
       /\ error (validateAndConvert P s) = None)
      \/ (toasts (validateAndConvert P s) = toasts s
          /\ error (validateAndConvert P s) <> None)).
Proof.
  unfold validateAndConvert.
  destruct (length (trim (inputData s)) =? 0).
  - repeat split. right. split; [reflexivity | discriminate].
  - destruct (convert P s); repeat split.
    + now left.
    + right. split; [reflexivity | discriminate].
Qed.

Lemma validateAndConvert_frame_fields (s : State) :
  inputData (validateAndConvert P s) = inputData s
  /\ inputFormat (validateAndConvert P s) = inputFormat s
  /\ outputFormat (validateAndConvert P s) = outputFormat s.
Proof.
  unfold validateAndConvert.
  destruct (length (trim (inputData s)) =? 0); [repeat split|].
  destruct (convert P s); repeat split.
Qed.

Lemma convert_same_input (s s' : State) :
  inputData s' = inputData s -> inputFormat s' = inputFormat s ->
  outputFormat s' = outputFormat s -> convert P s' = convert P s.
Proof. unfold convert. now intros -> -> ->. Qed.

Lemma validateAndConvert_display (s : State) :
  (outputData (validateAndConvert P s), error (validateAndConvert P s))
  = if length (trim (inputData s)) =? 0 then
      (outputData s,
       Some {| message := js "Please enter some data to convert";
               type := IsWarning |})
    else match convert P s with
         | Ok convertedData => (convertedData, None)
         | Throw e => ([], Some {| message := messageOf e; type := IsError |})
         end.
Proof.
  unfold validateAndConvert.
  destruct (length (trim (inputData s)) =? 0); [reflexivity|].
  now destruct (convert P s).
Qed.

(** Converting again without editing changes nothing that is displayed:
    the second attempt leaves the output text and the error cell as the
    first left them. *)
Theorem validateAndConvert_idempotent (s : State) :
  outputData (validateAndConvert P (validateAndConvert P s))
  = outputData (validateAndConvert P s)
  /\ error (validateAndConvert P (validateAndConvert P s))
     = error (validateAndConvert P s).
Proof.
  destruct (validateAndConvert_frame_fields s) as (Hi & Hf & Ho).
  pose proof (validateAndConvert_display (validateAndConvert P s)) as H2.
  pose proof (validateAndConvert_display s) as H1.
  rewrite Hi, (convert_same_input _ _ Hi Hf Ho) in H2.
  destruct (length (trim (inputData s)) =? 0).
  - injection H1 as H1o H1e. injection H2 as H2o H2e. split; congruence.
  - rewrite <- H1 in H2. now injection H2.
Qed.

Lemma parseCSV_Throw_inv (csvData : jsstring) (e : exn) :
  parseCSV P csvData = Throw e ->
  exists i columns,
    e = Error (rowLengthMessage i columns (length (headersOf csvData))).
Proof.
  rewrite parseCSV_unfold.
  destruct (first_offending_line (headersOf csvData) (tl (linesOf csvData)))
    as [Hall|(good & bad & rest & -> & Hg & Hb)].
  - rewrite parseRows_ok by exact Hall. discriminate.
  - rewrite parseRows_throw by assumption. intros [= <-]. eauto.
Qed.


(** *** Upload and download *)

Lemma split_app_any (sep : N) (s t : jsstring) :
  exists pre, pre <> [] /\ split sep (s ++ sep :: t) = pre ++ split sep t.
Proof.
  induction s as [|c r (pre & Hpre & E)]; simpl.
  - rewrite N.eqb_refl. now exists [[]].
  - destruct (N.eqb c sep).
    + exists ([] :: pre). split; [discriminate|]. now rewrite E.
    + rewrite E. destruct pre as [|h pre]; [congruence|].
      now exists ((c :: h) :: pre).
Qed.

Lemma last_app_r {A} (l l' : list A) (d : A) :
  l' <> [] -> last (l ++ l') d = last l' d.
Proof.
  intros H. induction l as [|a l IH]; [reflexivity|].
  simpl. destruct (l ++ l') eqn:E; [|exact IH].
  apply app_eq_nil in E. now destruct E.
Qed.

(** The extension is what follows the last dot, in lower case; a name
    without a dot is its own extension. *)
Lemma extensionOf_spec (fileName ext : jsstring) :
  ~ In dot ext ->
  fileName = ext \/ (exists stem, fileName = stem ++ dot :: ext) ->
  extensionOf fileName = String_toLowerCase ext.
Proof.
  intros Hdot [->|(stem & ->)]; unfold extensionOf.
  - now rewrite split_without.
  - destruct (split_app_any dot stem ext) as (pre & _ & ->).
    rewrite last_app_r by apply split_nonempty.
    now rewrite split_without.
Qed.

(** An upload replaces the input text by the text of the file and leaves
    output, error and output format alone.  The input format follows what
    stands after the last dot of the file name, whatever its case: [json],
    [csv] or [xml] select that format over any prior selection, anything
    else keeps the selection.  A name without a dot counts as its own
    extension, so a file called [csv] selects CSV. *)
Theorem handleFileUpload_format (f : File) (s : State) (ext : jsstring) :
  ~ In dot ext ->
  name f = ext \/ (exists stem, name f = stem ++ dot :: ext) ->
  handleFileUpload (Some f) s
  = {| inputData := contents f;
       outputData := outputData s;
       inputFormat := match formatOfExtension (String_toLowerCase ext) with
                      | Some format => format
                      | None => inputFormat s
                      end;
       outputFormat := outputFormat s;
       error := error s;
       isConverting := isConverting s;
       toasts := toasts s |}.
Proof.
  intros Hdot Hname. unfold handleFileUpload.
  now rewrite (@extensionOf_spec (name f) ext Hdot Hname).
Qed.

(** What can be downloaded after a conversion of a non-blank input: after
    a failure nothing, whatever an earlier conversion had produced; after
    a success with a non-empty result, a text file that holds exactly the
    result and is named [converted] with the output format as
    extension. *)
Theorem download_after_conversion (s : State) :
  forallb isWhiteSpace (inputData s) = false ->
  (forall e, convert P s = Throw e ->
             fst (handleDownload (validateAndConvert P s)) = None
             /\ destructive (snd (handleDownload (validateAndConvert P s)))
                = true)
  /\ (forall text, convert P s = Ok text -> text <> [] ->
         handleDownload (validateAndConvert P s)
         = (Some {| download := js "converted." ++ formatName (outputFormat s);
                    blobText := text;
                    blobType := js "text/plain" |},
            {| shown := {| title := js "Download started";
                           description := js "File saved as converted."
                                          ++ formatName (outputFormat s) |};
               destructive := false |})).
Proof.
  intros Hnb. unfold validateAndConvert. rewrite (nonblank_guard _ Hnb).
  split.
  - intros e ->. split; reflexivity.
  - intros text -> Hne. unfold handleDownload. cbn [outputData outputFormat].
    destruct text; [congruence | reflexivity].
Qed.

(** The two guards inside the handlers cannot be reached through the
    buttons: while the convert button is enabled a conversion never ends
    in the warning, and while the download button is enabled a download
    always saves the output text. *)
Theorem enabled_buttons (s : State) :
  (convertDisabled s = false ->
   forall shown, error (validateAndConvert P s) = Some shown ->
                 type shown = IsError)
  /\ (downloadDisabled s = false ->
      exists file, fst (handleDownload s) = Some file
                   /\ blobText file = outputData s).
Proof.
  unfold convertDisabled, downloadDisabled. split.
  - intros H. apply orb_false_elim in H. destruct H as [_ H].
    unfold validateAndConvert. rewrite H.
    destruct (convert P s); [discriminate|]. now intros shown [= <-].
  - intros H. unfold handleDownload. rewrite H. eexists. split; reflexivity.
Qed.

End FurtherProperties.

(** * JSON *)

(** ** Keys in enumeration order *)

Section KeyOrder.

Variable number : Type.

Local Abbreviation props := (list (jsstring * value number)).

(** An array index has one spelling. *)
Lemma arrayIndex_decimal (k : jsstring) (i : N) :
  arrayIndex k = Some i -> k = decimalN i.
Proof.
  unfold arrayIndex.
  destruct (forallb _ k && jsstring_eqb (decimalN _) k && N.ltb _ _) eqn:E;
    [|discriminate].
  intros [= <-]. apply andb_prop in E. destruct E as [E _].
  apply andb_prop in E. destruct E as [_ E].
  apply jsstring_eqb_eq in E. now symmetry.
Qed.

Lemma arrayIndex_inj (k k' : jsstring) (i : N) :
  arrayIndex k = Some i -> arrayIndex k' = Some i -> k = k'.
Proof.
  intros H H'. apply arrayIndex_decimal in H, H'. congruence.
Qed.

Lemma enumerableFrom_app (seen a b : list jsstring) :
  enumerableFrom seen (a ++ b)
  = enumerableFrom seen a && enumerableFrom (seen ++ a) b.
Proof.
  revert seen. induction a as [|k a IH]; intros seen; simpl.
  - now rewrite app_nil_r.
  - rewrite IH, <- app_assoc, andb_assoc. reflexivity.
Qed.

Lemma existsb_app_one (seen : list jsstring) (x k : jsstring) :
  existsb (fun k' => jsstring_eqb k' k) (seen ++ [x])
  = existsb (fun k' => jsstring_eqb k' k) seen || jsstring_eqb x k.
Proof. rewrite existsb_app. simpl. now rewrite orb_false_r. Qed.

(** What it takes for a key to follow after one more key. *)
Lemma mayFollow_snoc (seen : list jsstring) (x k : jsstring) :
  mayFollow (seen ++ [x]) k
  = mayFollow seen k && negb (jsstring_eqb x k)
    && match arrayIndex k with
       | Some i => match arrayIndex x with
                   | Some j => N.ltb j i
                   | None => false
                   end
       | None => true
       end.
Proof.
  unfold mayFollow. rewrite existsb_app_one, negb_orb.
  destruct (arrayIndex k) as [i|].
  - rewrite forallb_app. simpl. rewrite andb_true_r.
    destruct (negb (existsb _ seen)), (negb (jsstring_eqb x k)),
      (forallb _ seen); simpl; try reflexivity;
      now rewrite ?andb_true_r, ?andb_false_r.
  - now rewrite !andb_true_r.
Qed.

(** What a key changes for the keys after it, when it is put in among
    those seen. *)
Lemma mayFollow_insert (s1 s2 : list jsstring) (x k : jsstring) :
  mayFollow (s1 ++ x :: s2) k
  = mayFollow (s1 ++ s2) k && negb (jsstring_eqb x k)
    && match arrayIndex k with
       | Some i => match arrayIndex x with
                   | Some j => N.ltb j i
                   | None => false
                   end
       | None => true
       end.
Proof.
  unfold mayFollow. rewrite !existsb_app. simpl.
  rewrite !negb_orb.
  destruct (arrayIndex k) as [i|].
  - rewrite !forallb_app. simpl.
    destruct (negb (existsb _ s1)), (negb (existsb _ s2)),
      (negb (jsstring_eqb x k)), (forallb _ s1), (forallb _ s2),
      (match arrayIndex x with Some j => N.ltb j i | None => false end);
      reflexivity.
  - rewrite !andb_true_r.
    destruct (negb (existsb _ s1)), (negb (existsb _ s2)),
      (negb (jsstring_eqb x k)); reflexivity.
Qed.

Lemma enumerableFrom_insert (s1 s2 keys : list jsstring) (x : jsstring) :
  enumerableFrom (s1 ++ s2) keys = true ->
  Forall (fun k => jsstring_eqb x k = false
                   /\ match arrayIndex k with
                      | Some i => match arrayIndex x with
                                  | Some j => N.ltb j i = true
                                  | None => False
                                  end
                      | None => True
                      end) keys ->
  enumerableFrom (s1 ++ x :: s2) keys = true.
Proof.
  revert s2. induction keys as [|k keys IH]; intros s2 H Hall;
    [reflexivity|].
  simpl in *. apply andb_prop in H. destruct H as [Hk H].
  inversion Hall as [|? ? [Hne Hord] Hrest]; subst.
  rewrite mayFollow_insert, Hk, Hne. cbn [negb andb].
  replace (match arrayIndex k with
           | Some i => match arrayIndex x with
                       | Some j => N.ltb j i
                       | None => false
                       end
           | None => true
           end) with true
    by (destruct (arrayIndex k); [destruct (arrayIndex x)|];
        [now rewrite Hord | contradiction | reflexivity]).
  cbn [andb].
  replace ((s1 ++ x :: s2) ++ [k]) with (s1 ++ x :: (s2 ++ [k]))
    by now rewrite <- app_assoc.
  apply IH; [|exact Hrest]. now rewrite app_assoc.
Qed.

(** In an enumeration an index is followed by larger indices and by keys
    that are none, and what follows a key that is no index is no index
    either. *)
Lemma enumerableFrom_after (seen keys : list jsstring) (x : jsstring) :
  In x seen -> enumerableFrom seen keys = true ->
  Forall (fun k => jsstring_eqb x k = false
                   /\ match arrayIndex k with
                      | Some i => match arrayIndex x with
                                  | Some j => N.ltb j i = true
                                  | None => False
                                  end
                      | None => True
                      end) keys.
Proof.
  revert seen. induction keys as [|k keys IH]; intros seen Hx H;
    [constructor|].
  simpl in H. apply andb_prop in H. destruct H as [Hk H].
  constructor.
  - apply in_split in Hx. destruct Hx as (s1 & s2 & ->).
    rewrite mayFollow_insert in Hk.
    apply andb_prop in Hk. destruct Hk as [Hk Hord].
    apply andb_prop in Hk. destruct Hk as [_ Hne].
    apply negb_true_iff in Hne. split; [exact Hne|].
    destruct (arrayIndex k); [|exact I].
    destruct (arrayIndex x); [exact Hord | discriminate].
  - apply (IH (seen ++ [k])); [|exact H]. apply in_or_app. now left.
Qed.

Lemma obj_replace_keys (o : props) (k : jsstring) (v : value number) :
  map fst (obj_replace o k v) = map fst o.
Proof.
  induction o as [|[k' v'] o IH]; simpl; [reflexivity|].
  destruct (jsstring_eqb k' k) eqn:E; simpl.
  - apply jsstring_eqb_eq in E. now subst.
  - now rewrite IH.
Qed.

Lemma hasOwn_keys (o : props) (k : jsstring) :
  hasOwn o k = existsb (fun k' => jsstring_eqb k' k) (map fst o).
Proof.
  unfold hasOwn. induction o as [|p o IH]; simpl; [reflexivity|].
  now rewrite IH.
Qed.

Lemma obj_insertIndex_enumerable (o : props) (seen : list jsstring)
  (i : N) (k : jsstring) (v : value number) :
  arrayIndex k = Some i ->
  hasOwn o k = false ->
  mayFollow seen k = true ->
  enumerableFrom seen (map fst o) = true ->
  enumerableFrom seen (map fst (obj_insertIndex o i k v)) = true.
Proof.
  intros Hi. revert seen.
  induction o as [|[k' v'] o IH]; intros seen Hown Hk H; simpl in *.
  - now rewrite Hk.
  - apply orb_false_elim in Hown. destruct Hown as [Hne Hown].
    apply andb_prop in H. destruct H as [Hk' H].
    assert (Hlater : (k', v') :: o = (k', v') :: o) by reflexivity.
    destruct (arrayIndex k') as [j|] eqn:Ej;
      [destruct (N.ltb j i) eqn:Elt|].
    + simpl. rewrite Hk'. cbn [andb]. apply IH; auto.
      rewrite mayFollow_snoc, Hk, Hne, Hi, Ej, Elt. reflexivity.
    + simpl. rewrite Hk. cbn [andb].
      rewrite mayFollow_snoc, Hk', jsstring_eqb_sym, Hne, Ej, Hi.
      cbn [negb andb].
      assert (Hji : N.ltb i j = true).
      { apply N.ltb_lt. apply N.ltb_ge in Elt.
        destruct (N.eq_dec i j) as [->|Hd]; [|lia].
        rewrite (arrayIndex_inj _ _ Ej Hi), jsstring_eqb_refl in Hne.
        discriminate. }
      rewrite Hji. cbn [andb].
      replace ((seen ++ [k]) ++ [k']) with (seen ++ k :: [k'])
        by now rewrite <- app_assoc.
      apply enumerableFrom_insert; [exact H|].
      assert (Hafter := @enumerableFrom_after (seen ++ [k']) (map fst o) k').
      specialize (Hafter ltac:(apply in_or_app; right; now left) H).
      rewrite Forall_forall in *. intros x Hx.
      destruct (Hafter x Hx) as [Hxk' Hord]. split.
      * rewrite hasOwn_keys in Hown.
        destruct (jsstring_eqb k x) eqn:E; [|reflexivity].
        apply jsstring_eqb_eq in E. subst x.
        assert (existsb (fun k0 => jsstring_eqb k0 k) (map fst o) = true);
          [|congruence].
        apply existsb_exists. exists k. split; [exact Hx|].
        apply jsstring_eqb_refl.
      * destruct (arrayIndex x) as [jx|]; [|exact I].
        rewrite Hi. rewrite Ej in Hord.
        apply N.ltb_lt. apply N.ltb_lt in Hord, Hji. lia.
    + simpl. rewrite Hk. cbn [andb].
      rewrite mayFollow_snoc, Hk', jsstring_eqb_sym, Hne, Ej.
      cbn [negb andb].
      replace ((seen ++ [k]) ++ [k']) with (seen ++ k :: [k'])
        by now rewrite <- app_assoc.
      apply enumerableFrom_insert; [exact H|].
      assert (Hafter := @enumerableFrom_after (seen ++ [k']) (map fst o) k').
      specialize (Hafter ltac:(apply in_or_app; right; now left) H).
      rewrite Forall_forall in *. intros x Hx.
      destruct (Hafter x Hx) as [Hxk' Hord]. split.
      * rewrite hasOwn_keys in Hown.
        destruct (jsstring_eqb k x) eqn:E; [|reflexivity].
        apply jsstring_eqb_eq in E. subst x.
        assert (existsb (fun k0 => jsstring_eqb k0 k) (map fst o) = true);
          [|congruence].
        apply existsb_exists. exists k. split; [exact Hx|].
        apply jsstring_eqb_refl.
      * destruct (arrayIndex x) as [jx|]; [|exact I].
        rewrite Ej in Hord. contradiction.
Qed.

(** Defining a property keeps the keys in enumeration order. *)
Lemma obj_set_enumerable (o : props) (k : jsstring) (v : value number) :
  enumerable (map fst o) = true ->
  enumerable (map fst (obj_set o k v)) = true.
Proof.
  unfold enumerable, obj_set. intros H.
  destruct (hasOwn o k) eqn:Eo.
  - now rewrite obj_replace_keys.
  - assert (Hfresh : negb (existsb (fun k' => jsstring_eqb k' k) []) = true)
      by reflexivity.
    destruct (arrayIndex k) as [i|] eqn:Ei.
    + apply obj_insertIndex_enumerable; auto.
      unfold mayFollow. now rewrite Ei.
    + rewrite map_app, enumerableFrom_app, H. simpl.
      unfold mayFollow. rewrite <- hasOwn_keys, Eo, Ei. reflexivity.
Qed.

Lemma obj_set_forallb (Q : value number -> bool) (o : props) (k : jsstring)
  (v : value number) :
  forallb (fun kv => Q (snd kv)) o = true -> Q v = true ->
  forallb (fun kv => Q (snd kv)) (obj_set o k v) = true.
Proof.
  intros Ho Hv. unfold obj_set.
  destruct (hasOwn o k); [|destruct (arrayIndex k) as [i|]].
  - induction o as [|[k' v'] o IH]; simpl in *; [reflexivity|].
    apply andb_prop in Ho. destruct Ho as [H1 H2].
    destruct (jsstring_eqb k' k); simpl.
    + now rewrite Hv, H2.
    + now rewrite H1, IH.
  - induction o as [|[k' v'] o IH]; simpl in *; [now rewrite Hv|].
    apply andb_prop in Ho. destruct Ho as [H1 H2].
    destruct (arrayIndex k') as [j|]; [destruct (N.ltb j i)|]; simpl;
      rewrite ?Hv, ?H1, ?H2, ?IH; auto.
  - rewrite forallb_app, Ho. simpl. now rewrite Hv.
Qed.

Lemma plainProps_set (o : props) (k : jsstring) (v : value number) :
  plainProps o = true -> plain v = true -> plainProps (obj_set o k v) = true.
Proof.
  unfold plainProps. intros H Hv. apply andb_prop in H.
  destruct H as [He Hp].
  rewrite obj_set_enumerable by exact He.
  now rewrite (obj_set_forallb plain).
Qed.

End KeyOrder.

(** ** What the parser builds *)

Section ParserInvariant.

Variable P : Platform.

Local Abbreviation value := (value (number P)).
Local Abbreviation frame := (frame (number P)).
Local Abbreviation state := (state (number P)).
Local Abbreviation config := (state * list frame)%type.

Lemma deliver_plain (v : value) (stack : list frame) :
  plain v = true -> forallb plainFrame stack = true ->
  plainConfig (deliver P v stack) = true.
Proof.
  intros Hv Hs. unfold plainConfig.
  destruct stack as [|[items|props key] rest]; cbn [deliver fst snd].
  - cbn. now rewrite Hv.
  - cbn [forallb plainFrame] in Hs. apply andb_prop in Hs.
    destruct Hs as [Hi Hr]. cbn [plainState].
    rewrite forallb_app, Hi, Hr. cbn [forallb]. now rewrite Hv.
  - cbn [forallb plainFrame] in Hs. apply andb_prop in Hs.
    destruct Hs as [Hp Hr]. cbn [plainState].
    now rewrite plainProps_set, Hr.
Qed.

Lemma startValue_plain (stack : list frame) (c : N) (cfg : config) :
  forallb plainFrame stack = true ->
  startValue P stack c = Some cfg -> plainConfig cfg = true.
Proof.
  intros Hs. unfold startValue, plainConfig.
  repeat (match goal with
          | |- context [if ?b then _ else _] => destruct b
          end; [intros [= <-]; cbn; exact Hs|]).
  destruct (numberStep NStart c); [|discriminate].
  intros [= <-]. exact Hs.
Qed.

Lemma close_plain (cfg cfg' : config) :
  plainConfig cfg = true -> close P cfg = Some cfg' ->
  plainConfig cfg' = true.
Proof.
  destruct cfg as [st stack]. intros H.
  destruct st; cbn [close]; try (intros [= <-]; exact H).
  destruct (numberComplete st); [|discriminate].
  intros [= <-]. apply deliver_plain; [reflexivity|].
  unfold plainConfig in H. now apply andb_prop in H.
Qed.

Ltac plain_split H :=
  unfold plainConfig in H; cbn [fst snd plainState] in H;
  apply andb_prop in H; destruct H as [?Hst ?Hstack].

Ltac plain_done :=
  first
    [ assumption
    | apply deliver_plain; solve [assumption | reflexivity]
    | unfold plainConfig; cbn [fst snd plainState plainOwner forallb
                                 plainFrame];
      repeat (apply andb_true_intro; split);
      solve [assumption | reflexivity] ].

Lemma plainStep_plain (cfg cfg' : config) (c : N) :
  plainConfig cfg = true -> plainStep P cfg c = Some cfg' ->
  plainConfig cfg' = true.
Proof.
  destruct cfg as [st stack]. intros H. pose proof H as H0. plain_split H.
  destruct st; cbn [plainStep].
  - (* BeforeValue *)
    destruct (isJSONWhiteSpace c); [intros [= <-]; exact H0|].
    now apply startValue_plain.
  - (* FirstElement *)
    destruct (isJSONWhiteSpace c); [intros [= <-]; exact H0|].
    destruct (N.eqb c 93); [intros [= <-]; plain_done|].
    apply startValue_plain. cbn. exact Hstack.
  - (* NextElement *)
    destruct (isJSONWhiteSpace c); [intros [= <-]; exact H0|].
    destruct (N.eqb c 44); [intros [= <-]; plain_done|].
    destruct (N.eqb c 93); [intros [= <-]; plain_done | discriminate].
  - (* FirstKey *)
    destruct (isJSONWhiteSpace c); [intros [= <-]; exact H0|].
    destruct (N.eqb c 125); [intros [= <-]; plain_done|].
    destruct (N.eqb c 34); [intros [= <-]; plain_done | discriminate].
  - (* NextKey *)
    destruct (isJSONWhiteSpace c); [intros [= <-]; exact H0|].
    destruct (N.eqb c 34); [intros [= <-]; plain_done | discriminate].
  - (* Colon *)
    destruct (isJSONWhiteSpace c); [intros [= <-]; exact H0|].
    destruct (N.eqb c 58); [intros [= <-]; plain_done | discriminate].
  - (* NextMember *)
    destruct (isJSONWhiteSpace c); [intros [= <-]; exact H0|].
    destruct (N.eqb c 44); [intros [= <-]; plain_done|].
    destruct (N.eqb c 125); [intros [= <-]|discriminate].
    apply deliver_plain; [|exact Hstack]. exact Hst.
  - (* InString *)
    destruct (N.eqb c 34).
    { intros [= <-]. destruct owner as [props|]; cbn [endString].
      - plain_done.
      - now apply deliver_plain. }
    destruct (N.eqb c 92); [intros [= <-]; exact H0|].
    destruct (N.ltb c 32); [discriminate|]. intros [= <-]. exact H0.
  - (* InEscape *)
    repeat (match goal with
            | |- context [if ?b then _ else _] => destruct b
            end; [intros [= <-]; exact H0|]).
    discriminate.
  - (* InUnicode *)
    destruct (hexValue c); [|discriminate].
    destruct digits as [|d1 [|d2 [|d3 [|d4 more]]]]; intros [= <-]; exact H0.
  - (* InNumber *)
    discriminate.
  - (* InLiteral *)
    destruct expected as [|e rest]; [discriminate|].
    destruct (N.eqb c e); [|discriminate].
    destruct rest; intros [= <-]; [now apply deliver_plain | exact H0].
  - (* Done *)
    destruct (isJSONWhiteSpace c); [intros [= <-]; exact H0 | discriminate].
Qed.

Lemma step_plain (cfg cfg' : config) (c : N) :
  plainConfig cfg = true -> step P cfg c = Some cfg' ->
  plainConfig cfg' = true.
Proof.
  intros H. destruct cfg as [st stack].
  destruct st as [| | | | | | | | | |acc nst| |];
    try (intros Hs; eapply plainStep_plain; [exact H | exact Hs]).
  cbn [step]. destruct (numberStep nst c) as [nst'|].
  - intros [= <-]. exact H.
  - destruct (close P (InNumber acc nst, stack)) as [cfg1|] eqn:Ec;
      [|discriminate].
    apply plainStep_plain. eapply close_plain; [exact H | exact Ec].
Qed.

Lemma feed_plain (text : jsstring) (cfg cfg' : config) :
  plainConfig cfg = true -> feed P cfg text = Some cfg' ->
  plainConfig cfg' = true.
Proof.
  revert cfg. induction text as [|c text IH]; intros cfg H; cbn [feed].
  - now intros [= <-].
  - destruct (step P cfg c) as [cfg1|] eqn:Es; [|discriminate].
    apply IH. eapply step_plain; [exact H | exact Es].
Qed.

(** What [JSON.parse] returns is made of JSON data, and every object in
    it has its keys in enumeration order. *)
Lemma JSON_parse_plain (text : jsstring) (v : value) :
  JSON_parse P text = Ok v -> plain v = true.
Proof.
  unfold JSON_parse.
  destruct (feed P (BeforeValue, []) text) as [cfg|] eqn:Ef; [|discriminate].
  destruct (finish P cfg) as [v'|] eqn:Efin; [|discriminate].
  intros [= <-]. unfold finish in Efin.
  destruct (close P cfg) as [[st stack]|] eqn:Ec; [|discriminate].
  assert (Hp : plainConfig (st, stack) = true).
  { eapply close_plain; [|exact Ec].
    eapply feed_plain; [|exact Ef]. reflexivity. }
  destruct st; try discriminate. destruct stack; [|discriminate].
  injection Efin as <-. unfold plainConfig in Hp. cbn in Hp.
  now rewrite andb_true_r in Hp.
Qed.

End ParserInvariant.

(** ** Reading what was printed *)

Section RoundTrip.

Variable P : Platform.

Local Abbreviation value := (value (number P)).
Local Abbreviation frame := (frame (number P)).
Local Abbreviation state := (state (number P)).
Local Abbreviation config := (state * list frame)%type.

Lemma feed_app (cfg : config) (a b : jsstring) :
  feed P cfg (a ++ b)
  = match feed P cfg a with
    | Some cfg' => feed P cfg' b
    | None => None
    end.
Proof.
  revert cfg. induction a as [|c a IH]; intros cfg; cbn [feed app];
    [reflexivity|].
  destruct (step P cfg c); [apply IH | reflexivity].
Qed.

Lemma feed_step (cfg cfg' : config) (c : N) (text : jsstring) :
  step P cfg c = Some cfg' -> feed P cfg (c :: text) = feed P cfg' text.
Proof. intros H. cbn [feed]. now rewrite H. Qed.

(** After a value the parser may still be inside a number; [close] says
    where it stands once the number has ended. *)
Lemma close_deliver (v : value) (stack : list frame) :
  close P (deliver P v stack) = Some (deliver P v stack).
Proof. now destruct stack as [|[items|props key] rest]. Qed.

(** A character that cannot stand in a number ends one. *)
Lemma step_settled (cfg d : config) (c : N) :
  close P cfg = Some d ->
  (forall st, numberStep st c = None) ->
  step P cfg c = plainStep P d c.
Proof.
  intros Hc Hn. destruct cfg as [st stack].
  destruct st as [| | | | | | | | | |acc nst| |];
    try (cbn [close] in Hc; injection Hc as <-; reflexivity).
  cbn [step]. now rewrite Hn, Hc.
Qed.

Lemma comma_ends_number (st : numberState) : numberStep st 44 = None.
Proof. now destruct st. Qed.

Lemma newline_ends_number (st : numberState) : numberStep st 10 = None.
Proof. now destruct st. Qed.

(** *** White space *)

Lemma feed_whiteSpace (cfg : config) (w : jsstring) :
  (forall c, isJSONWhiteSpace c = true -> step P cfg c = Some cfg) ->
  forallb isJSONWhiteSpace w = true ->
  feed P cfg w = Some cfg.
Proof.
  intros Hs. induction w as [|c w IH]; cbn [feed forallb]; [reflexivity|].
  intros H. apply andb_prop in H. destruct H as [Hc Hw].
  rewrite (Hs c Hc). now apply IH.
Qed.

Lemma whiteSpace_BeforeValue (stack : list frame) (w : jsstring) :
  forallb isJSONWhiteSpace w = true ->
  feed P (BeforeValue, stack) w = Some (BeforeValue, stack).
Proof.
  apply feed_whiteSpace. intros c Hc. cbn [step plainStep]. now rewrite Hc.
Qed.

Lemma whiteSpace_FirstElement (stack : list frame) (w : jsstring) :
  forallb isJSONWhiteSpace w = true ->
  feed P (FirstElement, stack) w = Some (FirstElement, stack).
Proof.
  apply feed_whiteSpace. intros c Hc. cbn [step plainStep]. now rewrite Hc.
Qed.

Lemma whiteSpace_NextElement (items : list value) (stack : list frame)
  (w : jsstring) :
  forallb isJSONWhiteSpace w = true ->
  feed P (NextElement items, stack) w = Some (NextElement items, stack).
Proof.
  apply feed_whiteSpace. intros c Hc. cbn [step plainStep]. now rewrite Hc.
Qed.

Lemma whiteSpace_FirstKey (stack : list frame) (w : jsstring) :
  forallb isJSONWhiteSpace w = true ->
  feed P (FirstKey, stack) w = Some (FirstKey, stack).
Proof.
  apply feed_whiteSpace. intros c Hc. cbn [step plainStep]. now rewrite Hc.
Qed.

Lemma whiteSpace_NextKey (props : list (jsstring * value))
  (stack : list frame) (w : jsstring) :
  forallb isJSONWhiteSpace w = true ->
  feed P (NextKey props, stack) w = Some (NextKey props, stack).
Proof.
  apply feed_whiteSpace. intros c Hc. cbn [step plainStep]. now rewrite Hc.
Qed.

Lemma whiteSpace_NextMember (props : list (jsstring * value))
  (stack : list frame) (w : jsstring) :
  forallb isJSONWhiteSpace w = true ->
  feed P (NextMember props, stack) w = Some (NextMember props, stack).
Proof.
  apply feed_whiteSpace. intros c Hc. cbn [step plainStep]. now rewrite Hc.
Qed.

(** *** Strings *)

Lemma hexValue_hexDigit (d : N) : (d < 16)%N -> hexValue (hexDigit d) = Some d.
Proof.
  intros H.
  assert (Hd : In d [0; 1; 2; 3; 4; 5; 6; 7; 8; 9; 10; 11; 12; 13; 14; 15]%N).
  { cbn [In]. lia. }
  cbn [In] in Hd.
  repeat (destruct Hd as [<-|Hd]; [reflexivity|]). contradiction.
Qed.

Lemma hex_digits (c : N) :
  (c < 65536)%N ->
  (c / 4096 < 16 /\ (c / 256) mod 16 < 16 /\ (c / 16) mod 16 < 16
   /\ c mod 16 < 16
   /\ 4096 * (c / 4096) + 256 * ((c / 256) mod 16) + 16 * ((c / 16) mod 16)
      + c mod 16 = c)%N.
Proof.
  intros H.
  assert (c / 4096 < 16)%N by (apply N.Div0.div_lt_upper_bound; lia).
  pose proof (N.mod_upper_bound (c / 256) 16 ltac:(lia)).
  pose proof (N.mod_upper_bound (c / 16) 16 ltac:(lia)).
  pose proof (N.mod_upper_bound c 16 ltac:(lia)).
  repeat split; try assumption.
  pose proof (N.div_mod c 16 ltac:(lia)).
  pose proof (N.div_mod (c / 16) 16 ltac:(lia)).
  pose proof (N.div_mod (c / 256) 16 ltac:(lia)).
  assert (E1 : (c / 16 / 16 = c / 256)%N)
    by (rewrite N.Div0.div_div; reflexivity).
  assert (E2 : (c / 256 / 16 = c / 4096)%N)
    by (rewrite N.Div0.div_div; reflexivity).
  rewrite E1 in *. rewrite E2 in *.
  assert ((c / 4096) mod 16 = c / 4096)%N by (apply N.mod_small; lia).
  lia.
Qed.

Lemma step_unicode (c d : N) (acc : jsstring)
  (owner : option (list (jsstring * value))) (digits : list N)
  (stack : list frame) :
  hexValue c = Some d ->
  step P (InUnicode acc owner digits, stack) c
  = match digits with
    | [d1; d2; d3] =>
        Some (InString (acc ++ [4096 * d1 + 256 * d2 + 16 * d3 + d]%N) owner,
              stack)
    | _ => Some (InUnicode acc owner (digits ++ [d]), stack)
    end.
Proof. intros H. cbn [step plainStep]. now rewrite H. Qed.

(** The escape of a code unit is read back as that code unit. *)
Lemma feed_unicodeEscape (c : N) (acc : jsstring)
  (owner : option (list (jsstring * value))) (stack : list frame)
  (rest : jsstring) :
  (c < 65536)%N ->
  feed P (InString acc owner, stack) (unicodeEscape c ++ rest)
  = feed P (InString (acc ++ [c]) owner, stack) rest.
Proof.
  intros H. destruct (hex_digits H) as (H1 & H2 & H3 & H4 & E).
  unfold unicodeEscape. cbn [app].
  erewrite feed_step by reflexivity.
  erewrite feed_step by reflexivity.
  erewrite feed_step
    by (erewrite step_unicode by (apply hexValue_hexDigit; exact H1);
        reflexivity).
  erewrite feed_step
    by (erewrite step_unicode by (apply hexValue_hexDigit; exact H2);
        reflexivity).
  erewrite feed_step
    by (erewrite step_unicode by (apply hexValue_hexDigit; exact H3);
        reflexivity).
  erewrite feed_step
    by (erewrite step_unicode by (apply hexValue_hexDigit; exact H4);
        reflexivity).
  now rewrite E.
Qed.

Lemma feed_quoteUnit (c : N) (acc : jsstring)
  (owner : option (list (jsstring * value))) (stack : list frame)
  (rest : jsstring) :
  feed P (InString acc owner, stack) (quoteUnit c ++ rest)
  = feed P (InString (acc ++ [c]) owner, stack) rest.
Proof.
  unfold quoteUnit.
  destruct (N.eqb_spec c 8) as [->|H8]; [reflexivity|].
  destruct (N.eqb_spec c 9) as [->|H9]; [reflexivity|].
  destruct (N.eqb_spec c 10) as [->|H10]; [reflexivity|].
  destruct (N.eqb_spec c 12) as [->|H12]; [reflexivity|].
  destruct (N.eqb_spec c 13) as [->|H13]; [reflexivity|].
  destruct (N.eqb_spec c 34) as [->|H34]; [reflexivity|].
  destruct (N.eqb_spec c 92) as [->|H92]; [reflexivity|].
  destruct (N.ltb c 32 || isHighSurrogate c || isLowSurrogate c) eqn:E.
  - apply feed_unicodeEscape.
    apply orb_prop in E. destruct E as [E|E];
      [apply orb_prop in E; destruct E as [E|E]|].
    + apply N.ltb_lt in E. lia.
    + unfold isHighSurrogate in E. apply andb_prop in E.
      destruct E as [_ E]. apply N.leb_le in E. lia.
    + unfold isLowSurrogate in E. apply andb_prop in E.
      destruct E as [_ E]. apply N.leb_le in E. lia.
  - apply orb_false_elim in E. destruct E as [E _].
    apply orb_false_elim in E. destruct E as [E _].
    cbn [app feed step plainStep].
    apply N.eqb_neq in H34, H92. now rewrite H34, H92, E.
Qed.

(** A surrogate is neither a quote nor a backslash nor a control. *)
Lemma feed_surrogate (c : N) (acc : jsstring)
  (owner : option (list (jsstring * value))) (stack : list frame)
  (rest : jsstring) :
  isHighSurrogate c || isLowSurrogate c = true ->
  feed P (InString acc owner, stack) (c :: rest)
  = feed P (InString (acc ++ [c]) owner, stack) rest.
Proof.
  intros H.
  assert (Hc : (55296 <= c)%N).
  { apply orb_prop in H. destruct H as [H|H]; apply andb_prop in H;
      destruct H as [H _]; apply N.leb_le in H; lia. }
  cbn [feed step plainStep].
  destruct (N.eqb_spec c 34); [lia|]. destruct (N.eqb_spec c 92); [lia|].
  destruct (N.ltb_spec c 32); [lia|]. reflexivity.
Qed.

Lemma quoteUnits_pair (c d : N) (r : jsstring) :
  quoteUnits (c :: d :: r)
  = if isHighSurrogate c && isLowSurrogate d then c :: d :: quoteUnits r
    else quoteUnit c ++ quoteUnits (d :: r).
Proof. reflexivity. Qed.

Lemma feed_quoteUnits (n : nat) :
  forall (s acc : jsstring) (owner : option (list (jsstring * value)))
         (stack : list frame) (rest : jsstring),
    length s <= n ->
    feed P (InString acc owner, stack) (quoteUnits s ++ rest)
    = feed P (InString (acc ++ s) owner, stack) rest.
Proof.
  induction n as [|n IH]; intros s acc owner stack rest Hlen.
  - destruct s; [|simpl in Hlen; lia]. now rewrite app_nil_r.
  - destruct s as [|c [|d r]].
    + now rewrite app_nil_r.
    + apply feed_quoteUnit.
    + rewrite quoteUnits_pair.
      destruct (isHighSurrogate c && isLowSurrogate d) eqn:E.
      * apply andb_prop in E. destruct E as [Ec Ed].
        cbn [app]. rewrite feed_surrogate by now rewrite Ec.
        rewrite feed_surrogate by (rewrite Ed; apply orb_true_r).
        rewrite IH by (simpl in *; lia).
        now rewrite <- !app_assoc.
      * rewrite <- app_assoc, feed_quoteUnit.
        rewrite IH by (simpl in *; lia).
        now rewrite <- app_assoc.
Qed.

(** A quoted string, from its first character after the opening quote. *)
Lemma feed_quoted (s : jsstring)
  (owner : option (list (jsstring * value))) (stack : list frame) :
  feed P (InString [] owner, stack) (quoteUnits s ++ [quote])
  = Some (endString P s owner stack).
Proof.
  rewrite (@feed_quoteUnits (length s) s [] owner stack [quote] (le_n _)).
  reflexivity.
Qed.

(** *** Numbers *)

Lemma feed_number (s acc : jsstring) (st st' : numberState)
  (stack : list frame) :
  numberRun st s = Some st' ->
  feed P (InNumber acc st, stack) s = Some (InNumber (acc ++ s) st', stack).
Proof.
  revert acc st. induction s as [|c s IH]; intros acc st; cbn [numberRun feed].
  - intros [= <-]. now rewrite app_nil_r.
  - cbn [step]. destruct (numberStep st c) as [st1|]; [|discriminate].
    intros H. rewrite (IH _ _ H). now rewrite <- app_assoc.
Qed.

(** What a number begins with is a minus sign or a digit. *)
Lemma number_head (c : N) (st : numberState) :
  numberStep NStart c = Some st ->
  isJSONWhiteSpace c = false
  /\ N.eqb c 93 = false
  /\ forall stack : list frame,
      startValue P stack c = Some (InNumber [c] st, stack).
Proof.
  intros H.
  assert (Hc : c = 45%N \/ (48 <= c <= 57)%N).
  { cbn [numberStep] in H.
    destruct (N.eqb_spec c 45); [now left|].
    destruct (N.eqb_spec c 48); [right; lia|].
    unfold isDigit in H.
    destruct (N.leb_spec 48 c); [|discriminate].
    destruct (N.leb_spec c 57); [|discriminate]. right. lia. }
  unfold isJSONWhiteSpace, startValue. rewrite H.
  destruct (N.eqb_spec c 9); [lia|]. destruct (N.eqb_spec c 10); [lia|].
  destruct (N.eqb_spec c 13); [lia|]. destruct (N.eqb_spec c 32); [lia|].
  destruct (N.eqb_spec c 93); [lia|]. destruct (N.eqb_spec c 34); [lia|].
  destruct (N.eqb_spec c 91); [lia|]. destruct (N.eqb_spec c 123); [lia|].
  destruct (N.eqb_spec c 110); [lia|]. destruct (N.eqb_spec c 116); [lia|].
  destruct (N.eqb_spec c 102); [lia|]. repeat split.
Qed.

(** *** Values *)

(** A text that begins with the first character of a value. *)
Local Abbreviation opens text :=
  (match text with
   | c :: _ => isJSONWhiteSpace c = false /\ N.eqb c 93 = false
   | [] => False
   end).

(** What [JSON.stringify] writes for an element of an array. *)
Local Abbreviation element indent e :=
  (match SerializeJSONProperty P indent e with
   | Some text => text
   | None => js "null"
   end).

(** What it writes for a member of an object. *)
Local Abbreviation member indent kv :=
  (QuoteJSONString (fst kv) ++ js ": " ++ element indent (snd kv)).

(** A value is read back from its text, whatever stands around it. *)
Local Abbreviation readBack v :=
  (forall (indent : jsstring) (stack : list frame),
      forallb isJSONWhiteSpace indent = true ->
      exists text cfg,
        SerializeJSONProperty P indent v = Some text
        /\ opens text
        /\ feed P (BeforeValue, stack) text = Some cfg
        /\ close P cfg = Some (deliver P v stack)).

Lemma opens_app (a b : jsstring) : opens a -> opens (a ++ b).
Proof. now destruct a. Qed.

Lemma join_opens (sep x : jsstring) (l : list jsstring) :
  opens x -> opens (join sep (x :: l)).
Proof.
  destruct l as [|y l]; [trivial|]. cbn [join]. apply opens_app.
Qed.

(** The first element of an array is read like any other. *)
Lemma feed_first_element (text : jsstring) (stack : list frame) :
  opens text ->
  feed P (FirstElement, stack) text
  = feed P (BeforeValue, ArrayFrame [] :: stack) text.
Proof.
  destruct text as [|c text]; [contradiction|]. intros [Hw Hc].
  cbn [feed step plainStep]. now rewrite Hw, Hc.
Qed.

Lemma gap_whiteSpace (indent : jsstring) :
  forallb isJSONWhiteSpace indent = true ->
  forallb isJSONWhiteSpace (indent ++ gap) = true.
Proof. intros H. now rewrite forallb_app, H. Qed.

Lemma separator_whiteSpace (indent : jsstring) :
  forallb isJSONWhiteSpace indent = true ->
  forallb isJSONWhiteSpace ([newline] ++ indent) = true.
Proof. intros H. cbn [app forallb]. now rewrite H. Qed.

(** The elements of an array, one after the other. *)
Lemma feed_elements (items : list value) :
  Forall (fun v => plain v = true ->
                   Forall (readsBack P) (numbersOf v) -> readBack v) items ->
  forallb plain items = true ->
  Forall (readsBack P) (flat_map numbersOf items) ->
  items <> [] ->
  forall (indent : jsstring) (stack : list frame) (done : list value),
    forallb isJSONWhiteSpace indent = true ->
    opens (join ([comma; newline] ++ indent) (map (fun e => element indent e) items))
    /\ exists cfg,
        feed P (BeforeValue, ArrayFrame done :: stack)
          (join ([comma; newline] ++ indent)
             (map (fun e => element indent e) items)) = Some cfg
        /\ close P cfg = Some (NextElement (done ++ items), stack).
Proof.
  induction 1 as [|x xs Hx _ IH]; [congruence|].
  intros Hplain Hnum _ indent stack done Hind.
  cbn [forallb] in Hplain. apply andb_prop in Hplain.
  destruct Hplain as [Hpx Hpxs].
  cbn [flat_map] in Hnum. apply Forall_app in Hnum.
  destruct Hnum as [Hnx Hnxs].
  destruct (Hx Hpx Hnx indent (ArrayFrame done :: stack) Hind)
    as (text & cfg & Etext & Hopen & Hfeed & Hclose).
  cbn [map]. rewrite Etext.
  split; [now apply join_opens|].
  destruct xs as [|y ys].
  - exists cfg. split; [exact Hfeed | exact Hclose].
  - destruct (IH Hpxs Hnxs ltac:(discriminate) indent stack (done ++ [x]) Hind)
      as (_ & cfg' & Hfeed' & Hclose').
    exists cfg'. split.
    + change (join ([comma; newline] ++ indent)
                (text :: map (fun e => element indent e) (y :: ys)))
        with (text ++ comma :: ([newline] ++ indent)
                   ++ join ([comma; newline] ++ indent)
                        (map (fun e => element indent e) (y :: ys))).
      rewrite feed_app, Hfeed.
      erewrite feed_step
        by (erewrite step_settled
              by first [exact Hclose | apply comma_ends_number];
            reflexivity).
      rewrite feed_app, whiteSpace_BeforeValue
        by now apply separator_whiteSpace.
      exact Hfeed'.
    + rewrite Hclose'. now rewrite <- app_assoc.
Qed.

(** The text of the members begins with the quote of the first key. *)
Lemma join_members_head (sep indent : jsstring) (kv : jsstring * value)
  (props : list (jsstring * value)) :
  join sep (map (fun kv => member indent kv) (kv :: props))
  = quote :: tl (join sep (map (fun kv => member indent kv) (kv :: props))).
Proof.
  cbn [map]. now destruct (map (fun kv => member indent kv) props).
Qed.

(** The members of an object, one after the other. *)
Lemma feed_members (props : list (jsstring * value)) :
  Forall (fun kv => plain (snd kv) = true ->
                    Forall (readsBack P) (numbersOf (snd kv)) ->
                    readBack (snd kv)) props ->
  forallb (fun kv => plain (snd kv)) props = true ->
  Forall (readsBack P) (flat_map (fun kv => numbersOf (snd kv)) props) ->
  props <> [] ->
  forall (indent : jsstring) (stack : list frame)
         (done : list (jsstring * value)),
    forallb isJSONWhiteSpace indent = true ->
    enumerableFrom (map fst done) (map fst props) = true ->
    exists cfg,
      feed P (InString [] (Some done), stack)
        (tl (join ([comma; newline] ++ indent)
               (map (fun kv => member indent kv) props))) = Some cfg
      /\ close P cfg = Some (NextMember (done ++ props), stack).
Proof.
  induction 1 as [|[k x] kvs Hx _ IH]; [congruence|].
  intros Hplain Hnum _ indent stack done Hind Henum.
  cbn [forallb snd] in Hplain. apply andb_prop in Hplain.
  destruct Hplain as [Hpx Hpxs].
  cbn [flat_map snd] in Hnum. apply Forall_app in Hnum.
  destruct Hnum as [Hnx Hnxs].
  cbn [map fst enumerableFrom] in Henum. apply andb_prop in Henum.
  destruct Henum as [Hk Henum].
  cbn [snd] in Hx.
  destruct (Hx Hpx Hnx indent (ObjectFrame done k :: stack) Hind)
    as (text & cfg & Etext & Hopen & Hfeed & Hclose).
  cbn [deliver] in Hclose. rewrite obj_set_last in Hclose by exact Hk.
  assert (Hmember :
            forall rest,
              feed P (InString [] (Some done), stack)
                (quoteUnits k ++ [quote] ++ js ": " ++ text ++ rest)
              = match feed P (BeforeValue, ObjectFrame done k :: stack) text
                with
                | Some c => feed P c rest
                | None => None
                end).
  { intros rest. rewrite app_assoc, feed_app, feed_quoted.
    cbn [endString]. cbn [app js map list_ascii_of_string N_of_ascii].
    erewrite feed_step by reflexivity.
    erewrite feed_step by reflexivity.
    apply feed_app. }
  cbn [map fst snd]. rewrite Etext.
  destruct kvs as [|[k' y] ys].
  - exists cfg. split; [|exact Hclose].
    cbn [map join]. unfold QuoteJSONString. cbn [app tl].
    rewrite <- (app_nil_r text), <- !app_assoc.
    rewrite (Hmember []), Hfeed. reflexivity.
  - destruct (IH Hpxs Hnxs ltac:(discriminate) indent stack
                (done ++ [(k, x)]) Hind) as (cfg' & Hfeed' & Hclose').
    { now rewrite map_app. }
    exists cfg'. split.
    + remember (map (fun kv => member indent kv) ((k', y) :: ys)) as later
        eqn:El.
      assert (Hl : later <> []) by (subst later; discriminate).
      cbn [map]. 
      assert (Ej : join ([comma; newline] ++ indent)
                     ((QuoteJSONString k ++ js ": " ++ text) :: later)
                   = (QuoteJSONString k ++ js ": " ++ text)
                     ++ ([comma; newline] ++ indent)
                     ++ join ([comma; newline] ++ indent) later).
      { destruct later; [congruence | reflexivity]. }
      rewrite Ej. unfold QuoteJSONString. cbn [app tl].
      rewrite <- !app_assoc.
      change (quoteUnits k ++ [quote] ++ js ": " ++ text
              ++ comma :: newline :: indent
              ++ join (comma :: newline :: indent) later)
        with (quoteUnits k ++ [quote] ++ js ": " ++ text
              ++ (comma :: ([newline] ++ indent)
                  ++ join ([comma; newline] ++ indent) later)).
      rewrite Hmember, Hfeed.
      erewrite feed_step
        by (erewrite step_settled
              by first [exact Hclose | apply comma_ends_number];
            reflexivity).
      rewrite feed_app, whiteSpace_NextKey
        by now apply separator_whiteSpace.
      subst later. rewrite join_members_head.
      erewrite feed_step by reflexivity. exact Hfeed'.
    + rewrite Hclose'. now rewrite <- app_assoc.
Qed.

Lemma partial_members (props : list (jsstring * value)) (indent : jsstring) :
  (forall kv, In kv props ->
              exists text, SerializeJSONProperty P indent (snd kv) = Some text) ->
  flat_map
    (fun kv =>
       match SerializeJSONProperty P indent (snd kv) with
       | Some text => [QuoteJSONString (fst kv) ++ js ": " ++ text]
       | None => []
       end) props
  = map (fun kv => member indent kv) props.
Proof.
  induction props as [|kv props IH]; intros H; [reflexivity|].
  cbn [flat_map map]. rewrite IH by (intros kv' Hin; apply H; now right).
  destruct (H kv (or_introl eq_refl)) as (text & ->). reflexivity.
Qed.

Lemma number_token (t : jsstring) :
  isNumberToken t = true ->
  exists c r st1 st,
    t = c :: r /\ numberStep NStart c = Some st1
    /\ numberRun st1 r = Some st /\ numberComplete st = true.
Proof.
  unfold isNumberToken. destruct t as [|c r]; [discriminate|].
  cbn [numberRun]. destruct (numberStep NStart c) as [st1|] eqn:E1;
    [|discriminate].
  destruct (numberRun st1 r) as [st|] eqn:E2; [|discriminate].
  intros H. now exists c, r, st1, st.
Qed.

Lemma Serialize_array (indent : jsstring) (x : value) (xs : list value) :
  SerializeJSONProperty P indent (VArray (x :: xs))
  = Some (js "[" ++ [newline] ++ (indent ++ gap)
          ++ join ([comma; newline] ++ (indent ++ gap))
               (map (fun e => element (indent ++ gap) e) (x :: xs))
          ++ [newline] ++ indent ++ js "]").
Proof. reflexivity. Qed.

Lemma Serialize_object (indent : jsstring) (props : list (jsstring * value)) :
  SerializeJSONProperty P indent (VObject props)
  = match flat_map
            (fun kv =>
               match SerializeJSONProperty P (indent ++ gap) (snd kv) with
               | Some text => [QuoteJSONString (fst kv) ++ js ": " ++ text]
               | None => []
               end) props with
    | [] => Some (js "{}")
    | partial =>
        Some (js "{" ++ [newline] ++ (indent ++ gap)
              ++ join ([comma; newline] ++ (indent ++ gap)) partial
              ++ [newline] ++ indent ++ js "}")
    end.
Proof. reflexivity. Qed.

(** Every plain value whose numbers read back is read back from the text
    [JSON.stringify] writes for it, at any depth of indentation. *)
Lemma parse_printed (v : value) :
  plain v = true -> Forall (readsBack P) (numbersOf v) -> readBack v.
Proof.
  induction v as [|b|n|s|items IH|props IH|n] using value_nested_ind;
    intros Hplain Hnum indent stack Hind.
  - (* null *)
    exists (js "null"), (deliver P VNull stack).
    repeat split. apply close_deliver.
  - (* true, false *)
    exists (if b then js "true" else js "false"), (deliver P (VBool b) stack).
    destruct b; repeat split; apply close_deliver.
  - (* a number *)
    cbn [numbersOf] in Hnum. inversion Hnum as [|? ? (Hfin & Htok & Hback) _].
    subst. cbn [SerializeJSONProperty]. rewrite Hfin.
    pose proof Htok as Ht. apply number_token in Ht.
    destruct Ht as (c & r & st1 & st & Et & H1 & Hr & Hc).
    pose proof H1 as Hh. apply number_head in Hh.
    destruct Hh as (Hw & H93 & Hstart).
    exists (Number_toString P n), (InNumber (Number_toString P n) st, stack).
    split; [reflexivity|]. rewrite Et in *. split; [now split|]. split.
    + erewrite feed_step
        by (cbn [step plainStep]; rewrite Hw; apply Hstart).
      erewrite feed_number by exact Hr. reflexivity.
    + cbn [close]. now rewrite Hc, Hback.
  - (* a string *)
    exists (QuoteJSONString s), (deliver P (VString s) stack).
    split; [reflexivity|]. split; [now split|]. split.
    + unfold QuoteJSONString. cbn [app].
      erewrite feed_step by reflexivity. apply feed_quoted.
    + apply close_deliver.
  - (* an array *)
    cbn [plain] in Hplain. cbn [numbersOf] in Hnum.
    destruct items as [|x xs].
    { exists (js "[]"), (deliver P (VArray []) stack).
      repeat split. apply close_deliver. }
    destruct (@feed_elements (x :: xs) IH Hplain Hnum ltac:(discriminate)
                (indent ++ gap) stack [] (gap_whiteSpace _ Hind))
      as (Hopen & cfg & Hfeed & Hclose).
    rewrite Serialize_array.
    set (J := join ([comma; newline] ++ (indent ++ gap))
                (map (fun e => element (indent ++ gap) e) (x :: xs))) in *.
    eexists. exists (deliver P (VArray (x :: xs)) stack).
    split; [reflexivity|]. split; [now split|]. split; [|apply close_deliver].
    change (js "[" ++ [newline] ++ (indent ++ gap) ++ J
            ++ [newline] ++ indent ++ js "]")
      with (91%N :: ([newline] ++ (indent ++ gap))
                 ++ J ++ newline :: indent ++ [93%N]).
    erewrite feed_step by reflexivity.
    rewrite feed_app, whiteSpace_FirstElement
      by now apply separator_whiteSpace, gap_whiteSpace.
    rewrite feed_first_element by now apply opens_app.
    rewrite feed_app, Hfeed.
    erewrite feed_step
      by (erewrite step_settled
            by first [exact Hclose | apply newline_ends_number];
          reflexivity).
    rewrite feed_app, whiteSpace_NextElement by exact Hind.
    erewrite feed_step by reflexivity. reflexivity.
  - (* an object *)
    cbn [plain] in Hplain. apply andb_prop in Hplain.
    destruct Hplain as [Henum Hplain]. cbn [numbersOf] in Hnum.
    destruct props as [|kv kvs].
    { exists (js "{}"), (deliver P (VObject []) stack).
      repeat split. apply close_deliver. }
    assert (Hsome : forall kv', In kv' (kv :: kvs) ->
                      exists text,
                        SerializeJSONProperty P (indent ++ gap) (snd kv')
                        = Some text).
    { intros kv' Hin. rewrite Forall_forall in IH.
      rewrite forallb_forall in Hplain.
      rewrite Forall_flat_map, Forall_forall in Hnum.
      destruct (IH kv' Hin (Hplain kv' Hin) (Hnum kv' Hin) (indent ++ gap) []
                  (gap_whiteSpace _ Hind)) as (text & _ & Et & _).
      now exists text. }
    destruct (@feed_members (kv :: kvs) IH Hplain Hnum ltac:(discriminate)
                (indent ++ gap) stack [] (gap_whiteSpace _ Hind) Henum)
      as (cfg & Hfeed & Hclose).
    set (J := tl (join ([comma; newline] ++ (indent ++ gap))
                    (map (fun kv0 => member (indent ++ gap) kv0)
                       (kv :: kvs)))) in *.
    assert (Es : SerializeJSONProperty P indent (VObject (kv :: kvs))
                 = Some (js "{" ++ [newline] ++ (indent ++ gap)
                         ++ (quote :: J) ++ [newline] ++ indent ++ js "}")).
    { rewrite Serialize_object, partial_members by exact Hsome.
      subst J. rewrite <- join_members_head. reflexivity. }
    rewrite Es.
    eexists. exists (deliver P (VObject (kv :: kvs)) stack).
    split; [reflexivity|]. split; [now split|]. split; [|apply close_deliver].
    change (js "{" ++ [newline] ++ (indent ++ gap) ++ (quote :: J)
            ++ [newline] ++ indent ++ js "}")
      with (123%N :: ([newline] ++ (indent ++ gap))
                  ++ quote :: J ++ newline :: indent ++ [125%N]).
    erewrite feed_step by reflexivity.
    rewrite feed_app, whiteSpace_FirstKey
      by now apply separator_whiteSpace, gap_whiteSpace.
    erewrite feed_step by reflexivity.
    rewrite feed_app, Hfeed.
    erewrite feed_step
      by (erewrite step_settled
            by first [exact Hclose | apply newline_ends_number];
          reflexivity).
    rewrite feed_app, whiteSpace_NextMember by exact Hind.
    erewrite feed_step by reflexivity. reflexivity.
  - discriminate.
Qed.


End RoundTrip.

(** * The component on concrete inputs *)

Import Sample.



(** The third line of [a,b] / [1,2] / [3] has one field where two are
    expected. *)
Lemma parseCSV_row_length_error_witness :
  let text := js "a,b" ++ [newline] ++ js "1,2" ++ [newline] ++ js "3" in
  parseCSV browser text
  = Throw (Error (js "Row 3 has 1 columns, expected 2")).
Proof.
  intros text.
  destruct (parseCSV_row_length_error browser text)
    as (i & line & Hi & Hline & _ & Hfirst & Hthrow & _).
  - exists 2, (js "3"). split; [lia|]. split; [reflexivity|].
    vm_compute. discriminate.
  - reflexivity.
Defined.

Lemma parseCSV_rows_witness :
  let text := js "name, age" ++ [newline] ++ js "Ann, 41" in
  exists objs,
    parseCSV browser text = Ok (map VObject objs)
    /\ Forall2
         (fun line row =>
            forall j h c,
              nth_error (headersOf text) j = Some h ->
              nth_error (valuesOf line) j = Some c ->
              (forall j', j < j' ->
                          nth_error (headersOf text) j' <> Some h) ->
              h <> js "__proto__" ->
              obj_get row h = Some (VString c))
         (tl (linesOf text)) objs.
Proof.
  intros text.
  apply (proj1 (parseCSV_rows browser text)).
  repeat constructor.
Defined.

(** With the header [a,a] the object of a row has one key, and it holds
    the cell of the second column: the first column does not find its
    cell.  With the header [__proto__,a] the first column leaves nothing
    behind: the assignment goes to the setter on [Object.prototype], which
    ignores a string. *)
Lemma parseCSV_duplicate_header_counterexample :
  (let text := js "a,a" ++ [newline] ++ js "1,2" in
   exists row,
     parseCSV browser text = Ok [VObject row]
     /\ nth_error (headersOf text) 0 = Some (js "a")
     /\ nth_error (tl (linesOf text)) 0 = Some (js "1,2")
     /\ nth_error (valuesOf (js "1,2")) 0 = Some (js "1")
     /\ obj_get row (js "a") <> Some (VString (js "1")))
  /\ (let text := js "__proto__,a" ++ [newline] ++ js "1,2" in
      exists row,
        parseCSV browser text = Ok [VObject row]
        /\ nth_error (headersOf text) 0 = Some (js "__proto__")
        /\ nth_error (tl (linesOf text)) 0 = Some (js "1,2")
        /\ nth_error (valuesOf (js "1,2")) 0 = Some (js "1")
        /\ obj_get row (js "__proto__") <> Some (VString (js "1"))).
Proof.
  split.
  - intros text. exists [(js "a", VString (js "2"))].
    repeat split. vm_compute. discriminate.
  - intros text. exists [(js "a", VString (js "2"))].
    repeat split. vm_compute. discriminate.
Qed.

Lemma parseCSV_cleans_fields_witness :
  let text := js "x , y" ++ [newline] ++ [quote] ++ js "1" ++ [quote]
              ++ js ", a" ++ [quote] ++ js "b" in
  let rows : list (value (number browser)) :=
    [VObject [(js "x", VString (js "1")); (js "y", VString (js "ab"))]] in
  exists objs,
    rows = map VObject objs
    /\ Forall2
         (fun line row =>
            forall k v, obj_get row k = Some v ->
              exists j hf cf,
                nth_error (split comma (nth 0 (linesOf text) [])) j = Some hf
                /\ nth_error (split comma line) j = Some cf
                /\ k = removeQuotes (trim hf)
                /\ v = VString (removeQuotes (trim cf))
                /\ ~ In quote k
                /\ ~ In quote (removeQuotes (trim cf)))
         (tl (linesOf text)) objs.
Proof.
  intros text rows.
  apply (proj1 (parseCSV_cleans_fields browser text rows)).
  reflexivity.
Defined.

(** An object is no array: what is thrown carries the component's
    message, and it is an [Error], not a [TypeError]. *)
Lemma convertToCSV_requires_array_counterexample :
  JSON_parse browser (js "{}") = Ok (VObject [])
  /\ convertToCSV browser (VObject [])
     = Throw (Error (js "CSV output requires array data"))
  /\ forall m, convertToCSV browser (VObject []) <> Throw (TypeError m).
Proof.
  split; [vm_compute; reflexivity|]. split; [reflexivity|].
  intros m. vm_compute. discriminate.
Qed.

Lemma convertToCSV_requires_array_witness :
  convertToCSV browser (VObject [(js "a", VString (js "1"))])
  = Throw (Error (js "CSV output requires array data"))
  /\ forall m,
      convertToCSV browser (VObject [(js "a", VString (js "1"))])
      <> Throw (TypeError m).
Proof.
  apply (proj1 (convertToCSV_requires_array browser
                  (VObject [(js "a", VString (js "1"))]))).
  reflexivity.
Defined.



Lemma validateAndConvert_blank_witness :
  outputData (validateAndConvert browser blankState) = js "kept"
  /\ error (validateAndConvert browser blankState)
     = Some {| message := js "Please enter some data to convert";
               type := IsWarning |}.
Proof.
  destruct (validateAndConvert_blank browser blankState) as (E & Hout & _).
  - reflexivity.
  - split; [exact Hout | now rewrite E].
Defined.

Lemma validateAndConvert_outcome_witness :
  outputData (validateAndConvert browser shortRowState) = []
  /\ error (validateAndConvert browser shortRowState)
     = Some {| message := js "Row 2 has 1 columns, expected 2";
               type := IsError |}.
Proof.
  destruct (validateAndConvert_outcome browser shortRowState)
    as (Hparse & _ & _).
  - reflexivity.
  - apply (Hparse (Error (js "Row 2 has 1 columns, expected 2"))).
    reflexivity.
Defined.

(** * The further properties on concrete inputs *)

Lemma parseCSV_blank_witness :
  parseCSV browser (js "  " ++ [newline]) = Ok [].
Proof. apply parseCSV_blank. reflexivity. Defined.

Lemma csv_round_trip_witness :
  let keys := [js "name"; js "note"] in
  let table := [[js "Ann"; js " a b "]; [js "Bob"; []]] in
  exists text,
    convertToCSV browser
      (VArray (map (fun cells => VObject (combine keys (map VString cells)))
                 table)) = Ok text
    /\ parseCSV browser text
       = Ok (map (fun cells => VObject (combine keys (map VString cells)))
               table).
Proof.
  intros keys table. apply (csv_round_trip browser keys table).
  - reflexivity.
  - vm_compute. intuition discriminate.
  - vm_compute. discriminate.
  - reflexivity.
  - reflexivity.
Defined.

Lemma csv_to_csv_witness :
  outputData (validateAndConvert browser (session people csv csv))
  = js "name,age" ++ [newline]
    ++ [quote] ++ js "Ann" ++ [quote; comma; quote] ++ js "41" ++ [quote]
    ++ [newline]
    ++ [quote] ++ js "Bob" ++ [quote; comma; quote] ++ js "7" ++ [quote]
  /\ error (validateAndConvert browser (session people csv csv)) = None.
Proof.
  apply (csv_to_csv browser (session people csv csv)).
  - reflexivity.
  - reflexivity.
  - reflexivity.
  - vm_compute. intuition discriminate.
  - vm_compute. discriminate.
  - vm_compute. repeat constructor.
Defined.

Lemma csv_header_only_witness :
  outputData (validateAndConvert browser (session (js "a,b") csv csv)) = []
  /\ error (validateAndConvert browser (session (js "a,b") csv csv)) = None
  /\ toasts (validateAndConvert browser (session (js "a,b") csv csv))
     = [successToast (session (js "a,b") csv csv)]
  /\ fst (handleDownload
            (validateAndConvert browser (session (js "a,b") csv csv)))
     = None.
Proof.
  apply (csv_header_only browser (session (js "a,b") csv csv));
    reflexivity.
Defined.

Lemma csv_to_xml_witness :
  outputData (validateAndConvert browser (session people csv xml))
  = xmlDeclaration ++ [newline] ++ js "<root>" ++ [newline]
    ++ js "<item><name>Ann</name>" ++ [newline] ++ js "<age>41</age></item>"
    ++ [newline]
    ++ js "<item><name>Bob</name>" ++ [newline] ++ js "<age>7</age></item>"
    ++ [newline] ++ js "</root>".
Proof.
  apply (csv_to_xml browser (session people csv xml)).
  - reflexivity.
  - reflexivity.
  - reflexivity.
  - reflexivity.
  - vm_compute. intuition discriminate.
  - vm_compute. repeat constructor.
Defined.


Lemma csv_input_fails_iff_witness :
  error (validateAndConvert browser (session people csv json)) = None
  <-> Forall (fun line => length (valuesOf line) = length (headersOf people))
        (tl (linesOf people)).
Proof.
  apply (csv_input_fails_iff browser (session people csv json));
    reflexivity.
Defined.

Lemma xmlToObject_keys_witness :
  exists props,
    xmlToObject browser catalogue = VObject props
    /\ forall k, obj_get props k <> None
                 <-> exists child, In child (children catalogue)
                                   /\ tagNameOf child = k.
Proof.
  apply (proj1 (xmlToObject_keys browser catalogue)).
  - vm_compute. discriminate.
  - intros child Hin. vm_compute in Hin.
    destruct Hin as [<-|[<-|[<-|[]]]]; vm_compute; discriminate.
Defined.

Lemma xmlToObject_collapses_witness :
  exists props,
    xmlToObject browser catalogue = VObject props
    /\ forall k,
        obj_get props k
        = collapsed
            (map (xmlToObject browser)
               (filter (fun c => jsstring_eqb (tagNameOf c) k)
                  (children catalogue))).
Proof.
  apply (proj1 (xmlToObject_collapses browser catalogue)).
  - vm_compute. discriminate.
  - intros c [<-|[<-|[<-|[]]]]; reflexivity.
  - intros c [<-|[<-|[<-|[]]]]; reflexivity.
Defined.

Lemma parseXML_outcome_witness :
  parseXML browser (js "<x>hi</x>")
  = Ok (xmlToObject browser
          (DOMParser_parseFromString browser (js "<x>hi</x>")))
  /\ parseXML browser (js "<x>hi")
     = Throw (Error (js "Failed to parse XML data")).
Proof.
  split.
  - apply (proj1 (parseXML_outcome browser (js "<x>hi</x>"))). reflexivity.
  - apply (proj1 (proj2 (parseXML_outcome browser (js "<x>hi")))).
    vm_compute. discriminate.
Defined.

Lemma xml_to_csv_always_fails_witness :
  outputData (validateAndConvert browser (session (js "<x>hi</x>") xml csv))
  = []
  /\ (error (validateAndConvert browser (session (js "<x>hi</x>") xml csv))
      = Some {| message := js "Failed to parse XML data"; type := IsError |}
      \/ error (validateAndConvert browser
                  (session (js "<x>hi</x>") xml csv))
         = Some {| message := js "CSV output requires array data";
                   type := IsError |}).
Proof.
  apply (xml_to_csv_always_fails browser (session (js "<x>hi</x>") xml csv));
    reflexivity.
Defined.


Lemma handleFileUpload_format_witness :
  inputFormat
    (handleFileUpload
       (Some {| name := js "my.data.XML"; contents := js "<a/>" |})
       (session (js "{}") json csv)) = xml
  /\ inputData
       (handleFileUpload
          (Some {| name := js "my.data.XML"; contents := js "<a/>" |})
          (session (js "{}") json csv)) = js "<a/>".
Proof.
  rewrite (handleFileUpload_format
             {| name := js "my.data.XML"; contents := js "<a/>" |}
             (session (js "{}") json csv) (ext := js "XML")).
  - split; reflexivity.
  - intros H. vm_compute in H. intuition discriminate.
  - right. exists (js "my.data"). reflexivity.
Defined.

Lemma download_after_conversion_witness :
  fst (handleDownload (validateAndConvert browser shortRowState)) = None
  /\ destructive
       (snd (handleDownload (validateAndConvert browser shortRowState)))
     = true.
Proof.
  apply (proj1 (download_after_conversion browser shortRowState eq_refl)
           (Error (js "Row 2 has 1 columns, expected 2"))).
  reflexivity.
Defined.

Lemma enabled_buttons_witness :
  exists file,
    fst (handleDownload (session (js "a,b") csv csv)) = Some file
    /\ blobText file = js "old".
Proof.
  apply (proj2 (enabled_buttons browser (session (js "a,b") csv csv))).
  reflexivity.
Defined.
